(** * Worker-pod autoscaler: the scaling decision and the reconciler

    A shallow embedding of [pkg/controller/controller.go]:

    - Go's [int32] and [int] are integers of [Z] with their wrap-around
      written out;
    - Go's [float64] is IEEE-754 binary64, taken from the Standard Library's
      executable specification [SpecFloat] (precision 53, [emax] 1024,
      rounding to nearest even);
    - [klog.Fatalf] ends the process: a function that can reach it returns
      an [outcome];
    - the reconciler talks to the cluster, the queue registry and the work
      queue: each tick is a pure function of what those answer, and yields
      the list of effects it performed. *)

From Stdlib Require Import ZArith Bool List String Ascii Lia.
From Stdlib Require Import Floats.SpecFloat.
Import ListNotations.

Local Open Scope Z_scope.

(** ** Machine integers *)

Module Int32.
Definition min_int : Z := -2147483648.
Definition max_int : Z := 2147483647.

Definition in_range (z : Z) : bool := (min_int <=? z) && (z <=? max_int).

(** Conversion of an integer to [int32]: the low 32 bits, signed. *)
Definition wrap (z : Z) : Z := (z + 2147483648) mod 4294967296 - 2147483648.

Definition sub (x y : Z) : Z := wrap (x - y).
End Int32.

Module Int64.
Definition min_int : Z := -9223372036854775808.
Definition max_int : Z := 9223372036854775807.

Definition in_range (z : Z) : bool := (min_int <=? z) && (z <=? max_int).

Definition wrap (z : Z) : Z :=
  (z + 9223372036854775808) mod 18446744073709551616 - 9223372036854775808.
End Int64.

(** ** Floating point *)

Module Float64.
Definition prec : Z := 53.
Definition emax : Z := 1024.

Definition float64 : Type := spec_float.

Definition zero : float64 := S754_zero false.

(** [float64(i)] for an integer [i]: rounded to nearest even, exact below
    2^53. *)
Definition of_Z (z : Z) : float64 := binary_normalize prec emax z 0 false.

Definition mul : float64 -> float64 -> float64 := SFmul prec emax.
Definition div : float64 -> float64 -> float64 := SFdiv prec emax.
Definition abs : float64 -> float64 := SFabs.
Definition eqb : float64 -> float64 -> bool := SFeqb.
Definition ltb : float64 -> float64 -> bool := SFltb.
Definition leb : float64 -> float64 -> bool := SFleb.

(** [math.Ceil]: the least integral value not below [x]; zeros,
    infinities and NaN are returned as they are, and a negative value
    above -1 gives the negative zero. *)
Definition Ceil (x : float64) : float64 :=
  match x with
  | S754_finite s m e =>
      if 0 <=? e then x
      else
        let q := Z.pos m / 2 ^ (- e) in
        let r := Z.pos m mod 2 ^ (- e) in
        if s then binary_normalize prec emax (- q) 0 true
        else binary_normalize prec emax (if r =? 0 then q else q + 1) 0 false
  | _ => x
  end.

(** The integer part of a finite value (truncation toward zero), as the
    conversion of a float to an integer type takes it. *)
Definition trunc (x : float64) : option Z :=
  match x with
  | S754_zero _ => Some 0
  | S754_finite s m e =>
      Some (cond_Zopp s (if 0 <=? e then Z.pos m * 2 ^ e
                         else Z.pos m / 2 ^ (- e)))
  | S754_infinity _ | S754_nan => None
  end.

(** A zero or a positive finite value: what a rate or a duration is. *)
Definition is_nonneg_finite (x : float64) : bool :=
  match x with
  | S754_zero _ | S754_finite false _ _ => true
  | _ => false
  end.
End Float64.

Import Float64.

(** The Go language leaves the conversion of a float to an integer type
    implementation-dependent when the value does not fit (or is NaN): the
    conversion succeeds with a value chosen by the platform. *)
Class Platform : Type := {
  float64_to_int32_unfit : float64 -> Z;
  float64_to_int_unfit : float64 -> Z
}.

(** amd64: CVTTSD2SL / CVTTSD2SQ give the "integer indefinite" value. *)
Definition amd64 : Platform := {|
  float64_to_int32_unfit := fun _ => Int32.min_int;
  float64_to_int_unfit := fun _ => Int64.min_int
|}.

(** arm64: FCVTZS saturates, and gives 0 for NaN. *)
Definition arm64 : Platform := {|
  float64_to_int32_unfit := fun x =>
    match x with
    | S754_nan => 0
    | S754_infinity s | S754_finite s _ _ | S754_zero s =>
        if s then Int32.min_int else Int32.max_int
    end;
  float64_to_int_unfit := fun x =>
    match x with
    | S754_nan => 0
    | S754_infinity s | S754_finite s _ _ | S754_zero s =>
        if s then Int64.min_int else Int64.max_int
    end
|}.

Section Conversions.
Context {P : Platform}.

(** [int32(x)] for a [float64] [x]. *)
Definition int32_of_float64 (x : float64) : Z :=
  match trunc x with
  | Some z => if Int32.in_range z then z
              else Int32.wrap (float64_to_int32_unfit x)
  | None => Int32.wrap (float64_to_int32_unfit x)
  end.

(** [int(x)] for a [float64] [x] ([int] has 64 bits). *)
Definition int_of_float64 (x : float64) : Z :=
  match trunc x with
  | Some z => if Int64.in_range z then z
              else Int64.wrap (float64_to_int_unfit x)
  | None => Int64.wrap (float64_to_int_unfit x)
  end.
End Conversions.

(** ** Process outcome *)

(** A call returns, or ends the process through [klog.Fatalf], or panics
    (a nil pointer is dereferenced). *)
Inductive outcome (A : Type) : Type :=
| Ret (a : A)
| Fatal (msg : string)
| Panic (msg : string).
Arguments Ret {A} a.
Arguments Fatal {A} msg.
Arguments Panic {A} msg.

Definition obind {A B : Type} (o : outcome A) (k : A -> outcome B) : outcome B :=
  match o with
  | Ret a => k a
  | Fatal msg => Fatal msg
  | Panic msg => Panic msg
  end.

Definition omap {A B : Type} (f : A -> B) (o : outcome A) : outcome B :=
  obind o (fun a => Ret (f a)).

Notation "x <- c1 ;; c2" := (obind c1 (fun x => c2))
  (at level 61, c1 at next level, right associativity).

(** ** The integer-or-percent value of [maxDisruption]

    [k8s.io/apimachinery/pkg/util/intstr] and [strconv] are libraries the
    controller calls; they are written out here as far as the controller
    uses them. *)

Module strconv.
Definition is_digit (c : ascii) : bool :=
  let n := Z.of_nat (nat_of_ascii c) in (48 <=? n) && (n <=? 57).

Definition digit_value (c : ascii) : Z := Z.of_nat (nat_of_ascii c) - 48.

Fixpoint digits (s : string) (acc : Z) : option Z :=
  match s with
  | EmptyString => Some acc
  | String c s' =>
      if is_digit c then digits s' (acc * 10 + digit_value c) else None
  end.

(** [strconv.Atoi]: an optional sign and at least one decimal digit; a
    value outside [int] is an error. *)
Definition Atoi (s : string) : option Z :=
  let '(neg, body) :=
    match s with
    | String "-"%char r => (true, r)
    | String "+"%char r => (false, r)
    | _ => (false, s)
    end in
  match body with
  | EmptyString => None
  | _ =>
      match digits body 0 with
      | Some n =>
          let v := if neg then - n else n in
          if Int64.in_range v then Some v else None
      | None => None
      end
  end.
End strconv.

Module intstr.
Inductive IntOrString : Type :=
| Int (IntVal : Z)
| Str (StrVal : string).

(** [intstr.Parse]: a string that [Atoi] accepts is an integer (kept as an
    [int32]), any other one stays a string. *)
Definition Parse (val : string) : IntOrString :=
  match strconv.Atoi val with
  | Some i => Int (Int32.wrap i)
  | None => Str val
  end.

(** [strings.Replace(s, "%", "", -1)] *)
Fixpoint remove_percent (s : string) : string :=
  match s with
  | EmptyString => EmptyString
  | String c s' =>
      if Ascii.eqb c "%"%char then remove_percent s'
      else String c (remove_percent s')
  end.

Definition getIntOrPercentValue (v : IntOrString) : option (Z * bool) :=
  match v with
  | Int i => Some (i, false)
  | Str s =>
      match strconv.Atoi (remove_percent s) with
      | Some n => Some (n, true)
      | None => None
      end
  end.

Section WithPlatform.
Context {P : Platform}.

(** [intstr.GetValueFromIntOrPercent]; [None] is its error. *)
Definition GetValueFromIntOrPercent
    (v : IntOrString) (total : Z) (roundUp : bool) : option Z :=
  match getIntOrPercentValue v with
  | None => None
  | Some (value, isPercent) =>
      if isPercent then
        if roundUp then
          Some (int_of_float64
                  (Ceil (div (mul (of_Z value) (of_Z total)) (of_Z 100))))
        else
          (* math.Floor, which the controller never asks for *)
          Some (int_of_float64
                  (SFopp (Ceil (SFopp
                     (div (mul (of_Z value) (of_Z total)) (of_Z 100))))))
      else Some value
  end.
End WithPlatform.
End intstr.

(** ** The decision function *)

Section Decision.
Context {P : Platform}.

(** [getMaxDisruptableWorkers]: the largest number of workers one
    scale-down may remove. *)
Definition getMaxDisruptableWorkers
    (maxDisruption : option string) (currentWorkers : Z) : outcome Z :=
  match maxDisruption with
  | None => Fatal "maxDisruption default is not being set. Exiting"
  | Some s =>
      let maxDisruptionIntOrStr := intstr.Parse s in
      match intstr.GetValueFromIntOrPercent
              maxDisruptionIntOrStr currentWorkers true with
      | None => Fatal "Error calculating maxDisruptable workers"
      | Some maxDisruptableWorkers => Ret (Int32.wrap maxDisruptableWorkers)
      end
  end.

(** The local [workersBasedOnMessagesSent] of [getMinWorkers]. *)
Definition workersBasedOnMessagesSent
    (messagesSentPerMinute secondsToProcessOneJob : float64) : Z :=
  int32_of_float64
    (Ceil (div (mul secondsToProcessOneJob messagesSentPerMinute) (of_Z 60))).

Definition getMinWorkers
    (messagesSentPerMinute : float64) (minWorkers : Z)
    (secondsToProcessOneJob : float64) : Z :=
  if eqb secondsToProcessOneJob zero then minWorkers
  else
    let w := workersBasedOnMessagesSent
               messagesSentPerMinute secondsToProcessOneJob in
    if w >? minWorkers then w else minWorkers.

Definition isChangeTooSmall (desired current : Z) (tolerance : float64) : bool :=
  leb (div (abs (of_Z (Int32.sub desired current))) (of_Z current)) tolerance.

Definition convertDesiredReplicasWithRules
    (current desired min max maxDisruptable : Z) : Z :=
  if min >=? max then max
  else
    let desired :=
      if Int32.sub current desired >? maxDisruptable
      then Int32.sub current maxDisruptable
      else desired in
    if desired >? max then max
    else if desired <? min then min
    else desired.

(** The constant [0.1] as a [float64]: the nearest value, which is what the
    division of 1 by 10 gives. *)
Definition tolerance : float64 := S754_finite false 7205759403792794 (-56).

(** The first value of the local [desiredWorkers] of [GetDesiredWorkers]:
    the backlog divided by the target per worker, rounded up. *)
Definition rawDesired (queueMessages targetMessagesPerWorker : Z) : Z :=
  int32_of_float64
    (Ceil (div (of_Z queueMessages) (of_Z targetMessagesPerWorker))).

(** A call of [isChangeTooSmall], as [GetDesiredWorkers] makes it. *)
Record StabilityTest : Type := {
  st_desired : Z;
  st_current : Z;
  st_tolerance : float64
}.

(** [GetDesiredWorkers], with the calls of [isChangeTooSmall] it made. *)
Definition GetDesiredWorkers_run
    (queueName : string)
    (queueMessages : Z)
    (messagesSentPerMinute : float64)
    (secondsToProcessOneJob : float64)
    (targetMessagesPerWorker : Z)
    (currentWorkers : Z)
    (idleWorkers : Z)
    (minWorkers : Z)
    (maxWorkers : Z)
    (maxDisruption : option string) : outcome (Z * list StabilityTest) :=
  let minWorkers :=
    getMinWorkers messagesSentPerMinute minWorkers secondsToProcessOneJob in
  maxDisruptableWorkers <-
    getMaxDisruptableWorkers maxDisruption currentWorkers ;;
  let desiredWorkers := rawDesired queueMessages targetMessagesPerWorker in
  if currentWorkers =? 0 then
    Ret (convertDesiredReplicasWithRules
           currentWorkers desiredWorkers minWorkers maxWorkers
           maxDisruptableWorkers, [])
  else if queueMessages >? 0 then
    let call := {| st_desired := desiredWorkers;
                   st_current := currentWorkers;
                   st_tolerance := tolerance |} in
    if isChangeTooSmall desiredWorkers currentWorkers tolerance then
      Ret (convertDesiredReplicasWithRules
             currentWorkers currentWorkers minWorkers maxWorkers
             maxDisruptableWorkers, [call])
    else
      Ret (convertDesiredReplicasWithRules
             currentWorkers desiredWorkers minWorkers maxWorkers
             maxDisruptableWorkers, [call])
  else if ltb zero messagesSentPerMinute && ltb zero secondsToProcessOneJob then
    Ret (convertDesiredReplicasWithRules
           currentWorkers minWorkers minWorkers maxWorkers
           maxDisruptableWorkers, [])
  else if currentWorkers =? idleWorkers then
    let desiredWorkers := 0 in
    Ret (convertDesiredReplicasWithRules
           currentWorkers desiredWorkers minWorkers maxWorkers
           currentWorkers, [])
  else
    Ret (convertDesiredReplicasWithRules
           currentWorkers minWorkers minWorkers maxWorkers
           maxDisruptableWorkers, []).

Definition GetDesiredWorkers
    (queueName : string)
    (queueMessages : Z)
    (messagesSentPerMinute : float64)
    (secondsToProcessOneJob : float64)
    (targetMessagesPerWorker : Z)
    (currentWorkers : Z)
    (idleWorkers : Z)
    (minWorkers : Z)
    (maxWorkers : Z)
    (maxDisruption : option string) : outcome Z :=
  omap fst
    (GetDesiredWorkers_run queueName queueMessages messagesSentPerMinute
       secondsToProcessOneJob targetMessagesPerWorker currentWorkers
       idleWorkers minWorkers maxWorkers maxDisruption).
End Decision.


(** ** The branches of [GetDesiredWorkers]

    The function is a chain of tests, each ending in a call of the bounding
    rules; [branch] names the one that is taken. *)

Inductive Branch : Type :=
| ColdStart
| BacklogStable
| Backlog
| VelocityFloor
| MassiveScaleDown
| PartialScaleDown.

Section Branches.
Context {P : Platform}.

Definition branch
    (queueMessages : Z) (messagesSentPerMinute secondsToProcessOneJob : float64)
    (targetMessagesPerWorker currentWorkers idleWorkers : Z) : Branch :=
  if currentWorkers =? 0 then ColdStart
  else if queueMessages >? 0 then
    if isChangeTooSmall
         (rawDesired queueMessages targetMessagesPerWorker)
         currentWorkers tolerance
    then BacklogStable else Backlog
  else if ltb zero messagesSentPerMinute && ltb zero secondsToProcessOneJob
  then VelocityFloor
  else if currentWorkers =? idleWorkers then MassiveScaleDown
  else PartialScaleDown.

(** What a branch hands to the bounding rules: the desired count and the
    disruption bound. *)
Definition branch_desired
    (b : Branch) (rawDesired currentWorkers computedMin : Z) : Z :=
  match b with
  | ColdStart | Backlog => rawDesired
  | BacklogStable => currentWorkers
  | VelocityFloor | PartialScaleDown => computedMin
  | MassiveScaleDown => 0
  end.

Definition branch_disruption
    (b : Branch) (currentWorkers maxDisruptableWorkers : Z) : Z :=
  match b with
  | MassiveScaleDown => currentWorkers
  | _ => maxDisruptableWorkers
  end.
End Branches.

(** ** The reconciler: data *)

(** An instant ([metav1.Time], compared with [Equal]) and a duration. *)
Definition Time : Type := Z.
Definition Duration : Type := Z.

(** [pkg/apis/workerpodautoscaler/v1/types.go]; a Go pointer is an
    [option]. *)
Record WorkerPodAutoScalerSpec : Type := {
  MinReplicas : option Z;
  MaxReplicas : option Z;
  MaxDisruption : option string;
  QueueURI : string;
  QueueServiceName : string;
  DeploymentName : string;
  ReplicaSetName : string;
  TargetMessagesPerWorker : option Z;
  SecondsToProcessOneJob : option float64
}.

Record WorkerPodAutoScalerStatus : Type := {
  CurrentMessages : Z;
  CurrentReplicas : Z;
  AvailableReplicas : Z;
  DesiredReplicas : Z;
  LastScaleTime : option Time
}.

(** Of the object's metadata the controller reads the namespace and the
    name. *)
Record WorkerPodAutoScaler : Type := {
  Namespace : string;
  Name : string;
  Spec : WorkerPodAutoScalerSpec;
  Status : WorkerPodAutoScalerStatus
}.

(** A Deployment or a ReplicaSet, as far as the controller reads it:
    [Spec.Replicas] (a pointer) and [Status.AvailableReplicas]. *)
Record Workload : Type := {
  Replicas : option Z;
  WorkloadAvailableReplicas : Z
}.

Inductive error : Type :=
| NotFound (msg : string)
| Conflict (msg : string)
| Errorf (msg : string).

Definition IsNotFound (e : error) : bool :=
  match e with NotFound _ => true | _ => false end.

Definition IsConflict (e : error) : bool :=
  match e with Conflict _ => true | _ => false end.

Definition Error (e : error) : string :=
  match e with NotFound m | Conflict m | Errorf m => m end.

Record WokerPodAutoScalerEvent : Type := {
  event_key : string;
  event_name : string
}.

Definition WokerPodAutoScalerEventAdd : string := "add".
Definition WokerPodAutoScalerEventUpdate : string := "update".
Definition WokerPodAutoScalerEventDelete : string := "delete".

(** Modelled from the spec: the type of [GetScaleOperation]'s result is
    declared outside [src/]; section 4.4 names its three values. *)
Inductive ScaleOperation : Type :=
| ScaleUp
| ScaleDown
| ScaleNoop.

(** What comes off the work queue: an event, or anything else. *)
Inductive WorkItem : Type :=
| ItemEvent (e : WokerPodAutoScalerEvent)
| ItemOther (shown : string).

(** What a tick does to the world outside, in the order it does it.
    Verbose [klog.V] lines are left out. *)
Inductive Effect : Type :=
| EHandleError (msg : string)
| EWarning (msg : string)
| EErrorLog (msg : string)
| EQueuesAdd (namespace name uri service : string) (workers : Z) (seconds : float64)
| EQueuesDelete (namespace name : string)
| EQueuesGetQueueInfo (namespace name : string)
| EDesiredWorkers (desired : Z)
| ESetGauge (gauge : string) (labels : list string) (value : float64)
| EIncCounter (counter : string) (labels : list string)
| EUpdateDeployment (namespace name : string) (replicas : Z)
| EUpdateReplicaSet (namespace name : string) (replicas : Z)
| EUpdateStatus (namespace : string) (object : WorkerPodAutoScaler)
| EForget (item : WorkItem)
| EAddRateLimited (e : WokerPodAutoScalerEvent)
| EDone (item : WorkItem).

(** A computation of the reconciler: the effects performed so far and how
    it ended. *)
Definition M (A : Type) : Type := list Effect * outcome A.

Definition mret {A : Type} (a : A) : M A := ([], Ret a).

Definition mbind {A B : Type} (m : M A) (k : A -> M B) : M B :=
  match m with
  | (t, Ret a) => let '(t', r) := k a in (t ++ t', r)
  | (t, Fatal msg) => (t, Fatal msg)
  | (t, Panic msg) => (t, Panic msg)
  end.

Definition emit (e : Effect) : M unit := ([e], Ret tt).

Definition lift {A : Type} (o : outcome A) : M A := ([], o).

(** [*p] for a pointer [p]. *)
Definition deref {A : Type} (p : option A) : M A :=
  match p with
  | Some a => mret a
  | None => lift (Panic "invalid memory address or nil pointer dereference")
  end.

Notation "x <~ c1 ;; c2" := (mbind c1 (fun x => c2))
  (at level 61, c1 at next level, right associativity).
Notation "c1 ;;; c2" := (mbind c1 (fun _ => c2))
  (at level 61, right associativity).

(** The answer of a lister. *)
Inductive lookup (A : Type) : Type :=
| Found (a : A)
| Failed (err : error).
Arguments Found {A} a.
Arguments Failed {A} err.

(** [queue.Queues], the registry shared with the pollers: the controller
    calls it and takes what it answers. *)
Record QueuesRegistry : Type := {
  Queues_Add : string -> string -> string -> string -> Z -> float64 -> option error;
  Queues_Delete : string -> string -> option error;
  Queues_GetQueueInfo : string -> string -> string * Z * float64 * Z
}.

(** The [Controller] struct: listers over the read-only cache, the two
    clients (an update is answered with an error or none, on each attempt),
    the settings and the registry. *)
Record Controller : Type := {
  kubeclientset_UpdateDeployment : nat -> string -> string -> Z -> option error;
  kubeclientset_UpdateReplicaSet : nat -> string -> string -> Z -> option error;
  customclientset_UpdateStatus : string -> WorkerPodAutoScaler -> option error;
  deploymentLister : string -> string -> lookup Workload;
  replicaSetLister : string -> string -> lookup Workload;
  workerPodAutoScalersLister : string -> string -> lookup WorkerPodAutoScaler;
  defaultMaxDisruption : string;
  scaleDownDelay : Duration;
  Queues : QueuesRegistry;
  (* the clock: [metav1.Now()] and [time.Since(now).Seconds()] *)
  metav1_Now : Time;
  loop_seconds : float64
}.

(** [cache.SplitMetaNamespaceKey]: the key is cut at each slash; one part is
    a name, two are a namespace and a name, more are an error. *)
Fixpoint split_slash (s : string) : list string :=
  match s with
  | EmptyString => [EmptyString]
  | String c s' =>
      if Ascii.eqb c "/"%char then EmptyString :: split_slash s'
      else match split_slash s' with
           | part :: parts => String c part :: parts
           | [] => [String c EmptyString]
           end
  end.

Definition SplitMetaNamespaceKey (k : string) : option (string * string) :=
  match split_slash k with
  | [n] => Some (EmptyString, n)
  | [ns; n] => Some (ns, n)
  | _ => None
  end.

(** The [Equal] method of a [metav1.Time] pointer. *)
Definition Time_Equal (t u : option Time) : bool :=
  match t, u with
  | None, None => true
  | Some a, Some b => a =? b
  | _, _ => false
  end.

(** ** The reconciler: operations *)

(** [retry.RetryOnConflict(retry.DefaultRetry, fn)]: [fn] is called again
    while it answers with a conflict, five times at most; the last conflict
    is the error then. *)
Fixpoint retry_steps (steps attempt : nat) (last : option error)
    (fn : nat -> M (option error)) : M (option error) :=
  match steps with
  | O => mret last
  | S steps' =>
      err <~ fn attempt ;;
      match err with
      | None => mret None
      | Some e =>
          if IsConflict e then retry_steps steps' (S attempt) err fn
          else mret err
      end
  end.

Definition RetryOnConflict (fn : nat -> M (option error)) : M (option error) :=
  retry_steps 5 0 None fn.

(** The status a tick writes. *)
Definition with_status
    (w : WorkerPodAutoScaler)
    (currentWorkers availableWorkers desiredWorkers queueMessages : Z)
    (lastScaleTime : option Time) : WorkerPodAutoScaler :=
  {| Namespace := Namespace w;
     Name := Name w;
     Spec := Spec w;
     Status := {| CurrentMessages := queueMessages;
                  CurrentReplicas := currentWorkers;
                  AvailableReplicas := availableWorkers;
                  DesiredReplicas := desiredWorkers;
                  LastScaleTime := lastScaleTime |} |}.

(** [updateWorkerPodAutoScalerStatus]: the object of the store is read, a
    copy of it is changed and sent. *)
Definition updateWorkerPodAutoScalerStatus
    (name namespace : string)
    (UpdateStatus : string -> WorkerPodAutoScaler -> option error)
    (desiredWorkers : Z)
    (workerPodAutoScaler : WorkerPodAutoScaler)
    (currentWorkers availableWorkers queueMessages : Z)
    (lastScaleTime : option Time) : M unit :=
  if (CurrentReplicas (Status workerPodAutoScaler) =? currentWorkers)
     && (AvailableReplicas (Status workerPodAutoScaler) =? availableWorkers)
     && (DesiredReplicas (Status workerPodAutoScaler) =? desiredWorkers)
     && (CurrentMessages (Status workerPodAutoScaler) =? queueMessages)
     && Time_Equal (LastScaleTime (Status workerPodAutoScaler)) lastScaleTime
  then mret tt
  else
    let workerPodAutoScalerCopy :=
      with_status workerPodAutoScaler currentWorkers availableWorkers
        desiredWorkers queueMessages lastScaleTime in
    emit (EUpdateStatus (Namespace workerPodAutoScaler) workerPodAutoScalerCopy) ;;;
    match UpdateStatus (Namespace workerPodAutoScaler) workerPodAutoScalerCopy with
    | Some err => emit (EErrorLog ("Error updating wpa status, err: " ++ Error err))
    | None => mret tt
    end.

(** What the controller takes from parts of the repository outside [src/]:
    the constant [queue.UnsyncedQueueMessageCount], the policy's
    [GetMaxDisruption] method and [GetScaleOperation]. The reconciler is
    taken with any such three. *)
Class Externals : Type := {
  UnsyncedQueueMessageCount : Z;
  GetMaxDisruption : WorkerPodAutoScaler -> string -> option string;
  GetScaleOperation :
    string -> Z -> Z -> option Time -> Duration -> ScaleOperation
}.

Section Reconciler.
Context {P : Platform} {X : Externals}.

Definition updateDeployment
    (c : Controller) (namespace deploymentName : string) (replicas : Z) : M unit :=
  retryErr <~ RetryOnConflict (fun attempt =>
    match deploymentLister c namespace deploymentName with
    | Failed getErr =>
        if IsNotFound getErr then
          mret (Some (Errorf ("deployment " ++ deploymentName
                              ++ " was not found in namespace " ++ namespace)))
        else lift (Fatal ("Failed to get deployment: " ++ Error getErr))
    | Found deployment =>
        emit (EUpdateDeployment namespace deploymentName replicas) ;;;
        match kubeclientset_UpdateDeployment c attempt namespace
                deploymentName replicas with
        | Some updateErr =>
            emit (EErrorLog ("Failed to update deployment: " ++ Error updateErr)) ;;;
            mret (Some updateErr)
        | None => mret None
        end
    end) ;;
  match retryErr with
  | Some e => lift (Fatal ("Failed to update deployment (retry failed): " ++ Error e))
  | None => mret tt
  end.

Definition updateReplicaSet
    (c : Controller) (namespace replicaSetName : string) (replicas : Z) : M unit :=
  retryErr <~ RetryOnConflict (fun attempt =>
    match replicaSetLister c namespace replicaSetName with
    | Failed getErr =>
        if IsNotFound getErr then
          mret (Some (Errorf ("ReplicaSet " ++ replicaSetName
                              ++ " was not found in namespace " ++ namespace)))
        else lift (Fatal ("Failed to get ReplicaSet: " ++ Error getErr))
    | Found replicaSet =>
        emit (EUpdateReplicaSet namespace replicaSetName replicas) ;;;
        match kubeclientset_UpdateReplicaSet c attempt namespace
                replicaSetName replicas with
        | Some updateErr =>
            emit (EErrorLog ("Failed to update ReplicaSet: " ++ Error updateErr)) ;;;
            mret (Some updateErr)
        | None => mret None
        end
    end) ;;
  match retryErr with
  | Some e => lift (Fatal ("Failed to update ReplicaSet (retry failed): " ++ Error e))
  | None => mret tt
  end.

(** The part of [syncHandler] after the workload is read: the registry is
    told of the event, asked for the queue, and the scaling follows. *)
Definition syncHandler_scale
    (c : Controller) (event : WokerPodAutoScalerEvent)
    (namespace name : string) (workerPodAutoScaler : WorkerPodAutoScaler)
    (currentWorkers availableWorkers : Z) : M (option error) :=
  let deploymentName := DeploymentName (Spec workerPodAutoScaler) in
  let replicaSetName := ReplicaSetName (Spec workerPodAutoScaler) in
  let secondsToProcessOneJob :=
    match SecondsToProcessOneJob (Spec workerPodAutoScaler) with
    | Some v => v
    | None => zero
    end in
  err <~ (if String.eqb (event_name event) WokerPodAutoScalerEventAdd
             || String.eqb (event_name event) WokerPodAutoScalerEventUpdate
          then
            emit (EQueuesAdd namespace name
                    (QueueURI (Spec workerPodAutoScaler))
                    (QueueServiceName (Spec workerPodAutoScaler))
                    currentWorkers secondsToProcessOneJob) ;;;
            mret (Queues_Add (Queues c) namespace name
                    (QueueURI (Spec workerPodAutoScaler))
                    (QueueServiceName (Spec workerPodAutoScaler))
                    currentWorkers secondsToProcessOneJob)
          else if String.eqb (event_name event) WokerPodAutoScalerEventDelete
          then
            emit (EQueuesDelete namespace name) ;;;
            mret (Queues_Delete (Queues c) namespace name)
          else mret None) ;;
  match err with
  | Some e =>
      emit (EHandleError ("unable to sync queue: " ++ Error e)) ;;;
      mret (Some e)
  | None =>
      emit (EQueuesGetQueueInfo namespace name) ;;;
      let '(queueName, queueMessages, messagesSentPerMinute, idleWorkers) :=
        Queues_GetQueueInfo (Queues c) namespace name in
      if String.eqb queueName "" then mret None
      else if queueMessages =? UnsyncedQueueMessageCount then
        emit (EWarning (queueName
                        ++ " q not initialized, waiting for init to complete")) ;;;
        mret None
      else
        targetMessagesPerWorker <~
          deref (TargetMessagesPerWorker (Spec workerPodAutoScaler)) ;;
        minReplicas <~ deref (MinReplicas (Spec workerPodAutoScaler)) ;;
        maxReplicas <~ deref (MaxReplicas (Spec workerPodAutoScaler)) ;;
        desiredWorkers <~
          lift (GetDesiredWorkers queueName queueMessages messagesSentPerMinute
                  secondsToProcessOneJob targetMessagesPerWorker
                  currentWorkers idleWorkers minReplicas maxReplicas
                  (GetMaxDisruption workerPodAutoScaler (defaultMaxDisruption c))) ;;
        emit (EDesiredWorkers desiredWorkers) ;;;
        let labels := [name; namespace; queueName] in
        emit (ESetGauge "wpa_queue_messages" labels (of_Z queueMessages)) ;;;
        emit (ESetGauge "wpa_queue_messages_sent_per_minute" labels
                messagesSentPerMinute) ;;;
        emit (ESetGauge "wpa_worker_idle" labels (of_Z idleWorkers)) ;;;
        emit (ESetGauge "wpa_worker_current" labels (of_Z currentWorkers)) ;;;
        emit (ESetGauge "wpa_worker_desired" labels (of_Z desiredWorkers)) ;;;
        emit (ESetGauge "wpa_worker_available" labels (of_Z availableWorkers)) ;;;
        let lastScaleTime := LastScaleTime (Status workerPodAutoScaler) in
        let op := GetScaleOperation queueName desiredWorkers currentWorkers
                    lastScaleTime (scaleDownDelay c) in
        lastScaleTime <~
          (match op with
           | ScaleUp | ScaleDown =>
               (if negb (String.eqb deploymentName "") then
                  updateDeployment c (Namespace workerPodAutoScaler)
                    deploymentName desiredWorkers
                else
                  updateReplicaSet c (Namespace workerPodAutoScaler)
                    replicaSetName desiredWorkers) ;;;
               mret (Some (metav1_Now c))
           | ScaleNoop => mret lastScaleTime
           end) ;;
        updateWorkerPodAutoScalerStatus name namespace
          (customclientset_UpdateStatus c) desiredWorkers workerPodAutoScaler
          currentWorkers availableWorkers queueMessages lastScaleTime ;;;
        emit (ESetGauge "wpa_controller_loop_duration_seconds"
                [name; namespace] (loop_seconds c)) ;;;
        emit (EIncCounter "wpa_controller_loop_count_success" [name; namespace]) ;;;
        mret None
  end.

(** [syncHandler]: one reconciliation of the policy an event names; the
    result is the error handed back to the work queue, [None] for [nil]. *)
Definition syncHandler
    (c : Controller) (event : WokerPodAutoScalerEvent) : M (option error) :=
  let key := event_key event in
  match SplitMetaNamespaceKey key with
  | None =>
      emit (EHandleError ("invalid resource key: " ++ key)) ;;;
      mret None
  | Some (namespace, name) =>
      match workerPodAutoScalersLister c namespace name with
      | Failed err =>
          if IsNotFound err then
            emit (EHandleError ("workerPodAutoScaler '" ++ key
                                ++ "' in work queue no longer exists")) ;;;
            emit (EQueuesDelete namespace name) ;;;
            mret None
          else mret (Some err)
      | Found workerPodAutoScaler =>
          let deploymentName := DeploymentName (Spec workerPodAutoScaler) in
          let replicaSetName := ReplicaSetName (Spec workerPodAutoScaler) in
          if negb (String.eqb deploymentName "") then
            match deploymentLister c (Namespace workerPodAutoScaler)
                    deploymentName with
            | Failed err =>
                if IsNotFound err then
                  mret (Some (Errorf ("deployment " ++ deploymentName
                                      ++ " not found in namespace "
                                      ++ Namespace workerPodAutoScaler)))
                else mret (Some err)
            | Found deployment =>
                currentWorkers <~ deref (Replicas deployment) ;;
                syncHandler_scale c event namespace name workerPodAutoScaler
                  currentWorkers (WorkloadAvailableReplicas deployment)
            end
          else if negb (String.eqb replicaSetName "") then
            match replicaSetLister c (Namespace workerPodAutoScaler)
                    replicaSetName with
            | Failed err =>
                if IsNotFound err then
                  mret (Some (Errorf ("ReplicaSet " ++ replicaSetName
                                      ++ " not found in namespace "
                                      ++ Namespace workerPodAutoScaler)))
                else mret (Some err)
            | Found replicaSet =>
                currentWorkers <~ deref (Replicas replicaSet) ;;
                syncHandler_scale c event namespace name workerPodAutoScaler
                  currentWorkers (WorkloadAvailableReplicas replicaSet)
            end
          else
            emit (EHandleError
                    (key ++ ": deployment or replicaset name must be specified")) ;;;
            mret None
      end
  end.

(** [processNextWorkItem], given what [workqueue.Get] answered. [Done] is
    deferred: it runs when the inner function returns or panics, not when
    the process ends. *)
Definition processNextWorkItem
    (c : Controller) (obj : WorkItem) (shutdown : bool) : M bool :=
  if shutdown then mret false
  else
    let body : M (option error) :=
      match obj with
      | ItemOther shown =>
          emit (EForget obj) ;;;
          emit (EHandleError ("expected string in workqueue but got " ++ shown)) ;;;
          mret None
      | ItemEvent event =>
          err <~ syncHandler c event ;;
          match err with
          | Some e =>
              emit (EAddRateLimited event) ;;;
              mret (Some (Errorf ("error syncing '" ++ event_key event ++ "': "
                                  ++ Error e ++ ", requeuing")))
          | None =>
              emit (EForget obj) ;;;
              mret None
          end
      end in
    let deferred : M (option error) :=
      match body with
      | (t, Ret r) => (t ++ [EDone obj], Ret r)
      | (t, Panic msg) => (t ++ [EDone obj], Panic msg)
      | (t, Fatal msg) => (t, Fatal msg)
      end in
    err <~ deferred ;;
    match err with
    | Some e => emit (EHandleError (Error e)) ;;; mret true
    | None => mret true
    end.
End Reconciler.

(** What a tick does when it scales: it computes a desired count, writes
    gauges and counters, updates a workload or the status, or puts the item
    back on the work queue with a back-off. *)
Definition is_scaling_effect (e : Effect) : bool :=
  match e with
  | EDesiredWorkers _ | ESetGauge _ _ _ | EIncCounter _ _
  | EUpdateDeployment _ _ _ | EUpdateReplicaSet _ _ _ | EUpdateStatus _ _
  | EAddRateLimited _ => true
  | _ => false
  end.

(** ** A small cluster, for examples *)

Module Example.
Definition policy : WorkerPodAutoScaler :=
  {| Namespace := "default";
     Name := "otpsms";
     Spec := {| MinReplicas := Some 0;
                MaxReplicas := Some 20;
                MaxDisruption := Some "10%"%string;
                QueueURI := "https://sqs.example/otpsms";
                QueueServiceName := "sqs";
                DeploymentName := "otpsms-worker";
                ReplicaSetName := "";
                TargetMessagesPerWorker := Some 200;
                SecondsToProcessOneJob := None |};
     Status := {| CurrentMessages := 10;
                  CurrentReplicas := 20;
                  AvailableReplicas := 20;
                  DesiredReplicas := 18;
                  LastScaleTime := Some 1000 |} |}.

(** The same policy, with no workload named. *)
Definition policy_without_workload : WorkerPodAutoScaler :=
  {| Namespace := "default";
     Name := "otpsms";
     Spec := {| MinReplicas := Some 0;
                MaxReplicas := Some 20;
                MaxDisruption := Some "10%"%string;
                QueueURI := "https://sqs.example/otpsms";
                QueueServiceName := "sqs";
                DeploymentName := "";
                ReplicaSetName := "";
                TargetMessagesPerWorker := Some 200;
                SecondsToProcessOneJob := None |};
     Status := Status policy |}.

Definition Unsynced : Z := -1.

(** A registry whose poller has not answered yet. *)
Definition unsynced_registry : QueuesRegistry :=
  {| Queues_Add := fun _ _ _ _ _ _ => None;
     Queues_Delete := fun _ _ => None;
     Queues_GetQueueInfo := fun _ _ => ("otpsms"%string, Unsynced, zero, 0) |}.

Definition controller (p : WorkerPodAutoScaler) : Controller :=
  {| kubeclientset_UpdateDeployment := fun _ _ _ _ => None;
     kubeclientset_UpdateReplicaSet := fun _ _ _ _ => None;
     customclientset_UpdateStatus := fun _ _ => None;
     deploymentLister := fun _ _ =>
       Found {| Replicas := Some 20; WorkloadAvailableReplicas := 20 |};
     replicaSetLister := fun _ _ => Failed (NotFound "not found");
     workerPodAutoScalersLister := fun _ _ => Found p;
     defaultMaxDisruption := "100%";
     scaleDownDelay := 600;
     Queues := unsynced_registry;
     metav1_Now := 2000;
     loop_seconds := zero |}.

Definition add_event : WokerPodAutoScalerEvent :=
  {| event_key := "default/otpsms"; event_name := WokerPodAutoScalerEventAdd |}.

(** Modelled from the spec: [GetMaxDisruption] is defined outside [src/];
    the policy's own [maxDisruption], or the default of the process when
    the policy has none (section 6, process surface). *)
Definition GetMaxDisruption (w : WorkerPodAutoScaler) (default : string)
  : option string :=
  match MaxDisruption (Spec w) with
  | Some d => Some d
  | None => Some default
  end.

(** Modelled from the spec: [GetScaleOperation] is defined outside [src/];
    section 4.4, step 8, at the instant [now]. *)
Definition GetScaleOperation (now : Time) (queueName : string)
    (desired current : Z) (lastScaleTime : option Time) (delay : Duration)
  : ScaleOperation :=
  if desired =? current then ScaleNoop
  else if desired >? current then ScaleUp
  else match lastScaleTime with
       | None => ScaleDown
       | Some t => if delay <=? now - t then ScaleDown else ScaleNoop
       end.

Definition externals : Externals :=
  Build_Externals Unsynced GetMaxDisruption (GetScaleOperation 2000).
End Example.

(** ** The decision in integers *)

(** What [GetDesiredWorkers] computes, in integer arithmetic: the count a
    branch asks for, kept within the disruption bound of the current count
    and then between the computed minimum and the maximum. *)
Definition desired_in_integers
    (queueMessages targetMessagesPerWorker currentWorkers idleWorkers
     computedMin maxWorkers maxDisruptableWorkers : Z) (traffic : bool) : Z :=
  if computedMin >=? maxWorkers then maxWorkers
  else
    let raw := (queueMessages + targetMessagesPerWorker - 1)
               / targetMessagesPerWorker in
    let '(desired, bound) :=
      if currentWorkers =? 0 then (raw, maxDisruptableWorkers)
      else if queueMessages >? 0 then
        (if 10 * Z.abs (raw - currentWorkers) <=? currentWorkers
         then currentWorkers else raw, maxDisruptableWorkers)
      else if traffic then (computedMin, maxDisruptableWorkers)
      else if currentWorkers =? idleWorkers then (0, currentWorkers)
      else (computedMin, maxDisruptableWorkers) in
    Z.min maxWorkers
      (Z.max computedMin (Z.max desired (currentWorkers - bound))).

(** ** The worker and the event handlers *)

Section Worker.
Context {P : Platform} {X : Externals}.

(** [runWorker]: items are processed for as long as [processNextWorkItem]
    says so. A pass of the loop is what the world answers during it: the
    controller with the caches, the clients and the registry as they are
    then, and the answer of [workqueue.Get]. The loop is followed while
    there are passes, and the passes it did not make are returned. *)
Fixpoint runWorker (passes : list (Controller * WorkItem * bool))
  : M (list (Controller * WorkItem * bool)) :=
  match passes with
  | [] => mret []
  | (c, obj, shutdown) :: rest =>
      continue <~ processNextWorkItem c obj shutdown ;;
      if continue then runWorker rest else mret rest
  end.

End Worker.

(** What an informer hands to a handler: a policy, a key given as such, or
    an object without metadata (the tombstone of a deletion that was
    missed, for one). *)
Inductive Object : Type :=
| ObjPolicy (w : WorkerPodAutoScaler)
| ObjExplicitKey (key : string)
| ObjOther (shown : string).

(** [cache.MetaNamespaceKeyFunc]: the namespace, a slash and the name; the
    name alone when the namespace is empty. *)
Definition MetaNamespaceKeyFunc (obj : Object) : string + error :=
  match obj with
  | ObjExplicitKey key => inl key
  | ObjPolicy w =>
      if (0 <? String.length (Namespace w))%nat
      then inl (Namespace w ++ "/" ++ Name w)%string
      else inl (Name w)
  | ObjOther shown => inr (Errorf ("object has no meta: " ++ shown))
  end.

(** [getKeyForWorkerPodAutoScaler]: the key of the object; when there is
    none the error is reported and the key is empty. *)
Definition getKeyForWorkerPodAutoScaler (obj : Object) : M string :=
  match MetaNamespaceKeyFunc obj with
  | inr err => emit (EHandleError (Error err)) ;;; mret ""%string
  | inl key => mret key
  end.

(** The three handlers of the informer. [workqueue.Add] is their last
    step: the result is the event handed to it. *)
Definition enqueueAddWorkerPodAutoScaler (obj : Object)
  : M WokerPodAutoScalerEvent :=
  key <~ getKeyForWorkerPodAutoScaler obj ;;
  mret {| event_key := key; event_name := WokerPodAutoScalerEventAdd |}.

(** The handler of an update; it is given the new object. *)
Definition enqueueUpdateWorkerPodAutoScaler (obj : Object)
  : M WokerPodAutoScalerEvent :=
  key <~ getKeyForWorkerPodAutoScaler obj ;;
  mret {| event_key := key; event_name := WokerPodAutoScalerEventUpdate |}.

(** The handler of a deletion. *)
Definition enqueueDeleteWorkerPodAutoScaler (obj : Object)
  : M WokerPodAutoScalerEvent :=
  key <~ getKeyForWorkerPodAutoScaler obj ;;
  mret {| event_key := key; event_name := WokerPodAutoScalerEventDelete |}.

(** ** What a tick may do, and how it ends

    The notions in which the properties of the reconciler are stated. *)

(** The replica counts a policy allows: between its minimum and its
    maximum, or the maximum alone when the minimum is not below it. *)
Definition replicas_within_policy (w : WorkerPodAutoScaler) (r : Z) : Prop :=
  exists min max,
    MinReplicas (Spec w) = Some min
    /\ MaxReplicas (Spec w) = Some max
    /\ (min < max -> min <= r <= max)
    /\ (max <= min -> r = max).

(** The workload a policy names, as the cache has it: the deployment when
    one is named, else the replica-set. *)
Definition policy_workload (c : Controller) (w : WorkerPodAutoScaler)
  : option Workload :=
  if negb (String.eqb (DeploymentName (Spec w)) "") then
    match deploymentLister c (Namespace w) (DeploymentName (Spec w)) with
    | Found d => Some d
    | Failed _ => None
    end
  else if negb (String.eqb (ReplicaSetName (Spec w)) "") then
    match replicaSetLister c (Namespace w) (ReplicaSetName (Spec w)) with
    | Found d => Some d
    | Failed _ => None
    end
  else None.

(** The name under which the registry knows the queue of a policy. *)
Definition registered_queue (c : Controller) (namespace name : string) : string :=
  fst (fst (fst (Queues_GetQueueInfo (Queues c) namespace name))).

Section Ticks.
Context {P : Platform} {X : Externals}.

(** What a tick may do for the event [event] of the policy [w], found
    under [namespace] and [name], whose workload has [currentWorkers]
    replicas of which [availableWorkers] are available. *)
Definition tick_effect_of
    (c : Controller) (event : WokerPodAutoScalerEvent)
    (namespace name : string)
    (w : WorkerPodAutoScaler) (currentWorkers availableWorkers : Z)
    (e : Effect) : Prop :=
  let scaling r :=
    GetScaleOperation (registered_queue c namespace name) r currentWorkers
      (LastScaleTime (Status w)) (scaleDownDelay c) <> ScaleNoop in
  match e with
  | EQueuesAdd ns n uri service workers _ =>
      (event_name event = WokerPodAutoScalerEventAdd
       \/ event_name event = WokerPodAutoScalerEventUpdate)
      /\ ns = namespace /\ n = name
      /\ uri = QueueURI (Spec w) /\ service = QueueServiceName (Spec w)
      /\ workers = currentWorkers
  | EQueuesDelete ns n =>
      event_name event = WokerPodAutoScalerEventDelete
      /\ ns = namespace /\ n = name
  | EQueuesGetQueueInfo ns n => ns = namespace /\ n = name
  | EUpdateDeployment ns n r =>
      DeploymentName (Spec w) <> ""%string
      /\ ns = Namespace w /\ n = DeploymentName (Spec w)
      /\ replicas_within_policy w r /\ scaling r
  | EUpdateReplicaSet ns n r =>
      DeploymentName (Spec w) = ""%string
      /\ ns = Namespace w /\ n = ReplicaSetName (Spec w)
      /\ replicas_within_policy w r /\ scaling r
  | EUpdateStatus ns o =>
      ns = Namespace w
      /\ Namespace o = Namespace w /\ Name o = Name w /\ Spec o = Spec w
      /\ replicas_within_policy w (DesiredReplicas (Status o))
      /\ CurrentReplicas (Status o) = currentWorkers
      /\ AvailableReplicas (Status o) = availableWorkers
      /\ (LastScaleTime (Status o) = LastScaleTime (Status w)
          \/ LastScaleTime (Status o) = Some (metav1_Now c)
             /\ scaling (DesiredReplicas (Status o)))
  | EDesiredWorkers d => replicas_within_policy w d
  | EForget _ | EAddRateLimited _ | EDone _ => False
  | _ => True
  end.

(** The tick of a work item: [syncHandler] for an event, nothing for
    anything else. *)
Definition item_tick (c : Controller) (obj : WorkItem) : M (option error) :=
  match obj with
  | ItemEvent event => syncHandler c event
  | ItemOther _ => mret None
  end.

(** What the registry answers to the event of a tick: [Add] for an add or
    an update, [Delete] for a delete, nothing for any other name. *)
Definition sync_queue_answer
    (c : Controller) (event : WokerPodAutoScalerEvent)
    (namespace name : string) (w : WorkerPodAutoScaler) (currentWorkers : Z)
  : option error :=
  if String.eqb (event_name event) WokerPodAutoScalerEventAdd
     || String.eqb (event_name event) WokerPodAutoScalerEventUpdate
  then Queues_Add (Queues c) namespace name (QueueURI (Spec w))
         (QueueServiceName (Spec w)) currentWorkers
         match SecondsToProcessOneJob (Spec w) with
         | Some v => v
         | None => zero
         end
  else if String.eqb (event_name event) WokerPodAutoScalerEventDelete
  then Queues_Delete (Queues c) namespace name
  else None.

(** The calls to the registry at the start of a tick, as [syncHandler]
    makes them: the one the event asks for, and the read of the queue. *)
Definition sync_queue_effects
    (event : WokerPodAutoScalerEvent) (namespace name : string)
    (w : WorkerPodAutoScaler) (currentWorkers : Z) : list Effect :=
  (if String.eqb (event_name event) WokerPodAutoScalerEventAdd
      || String.eqb (event_name event) WokerPodAutoScalerEventUpdate
   then [EQueuesAdd namespace name (QueueURI (Spec w))
           (QueueServiceName (Spec w)) currentWorkers
           match SecondsToProcessOneJob (Spec w) with
           | Some v => v
           | None => zero
           end]
   else if String.eqb (event_name event) WokerPodAutoScalerEventDelete
   then [EQueuesDelete namespace name]
   else [])
  ++ [EQueuesGetQueueInfo namespace name].

(** A tick that reaches the decision: the key names a policy of the cache
    whose workload is in the cache with a replica count, the registry
    takes the event and knows the queue, and the queue has been polled. *)
Definition tick_reaches_decision
    (c : Controller) (event : WokerPodAutoScalerEvent)
    (namespace name : string) (w : WorkerPodAutoScaler) (d : Workload)
    (currentWorkers : Z) (queueName : string) (queueMessages : Z)
    (messagesSentPerMinute : float64) (idleWorkers : Z) : Prop :=
  SplitMetaNamespaceKey (event_key event) = Some (namespace, name)
  /\ workerPodAutoScalersLister c namespace name = Found w
  /\ policy_workload c w = Some d
  /\ Replicas d = Some currentWorkers
  /\ sync_queue_answer c event namespace name w currentWorkers = None
  /\ Queues_GetQueueInfo (Queues c) namespace name
     = (queueName, queueMessages, messagesSentPerMinute, idleWorkers)
  /\ queueName <> ""%string
  /\ queueMessages <> UnsyncedQueueMessageCount.

(** What a tick does once the desired count is known: the gauges are
    set, the workload is updated when [GetScaleOperation] says so, the
    status is written, and the loop is counted. Lemma
    [syncHandler_decision] shows [syncHandler] to end in it. *)
Definition syncHandler_apply
    (c : Controller) (namespace name : string) (w : WorkerPodAutoScaler)
    (currentWorkers availableWorkers : Z)
    (queueName : string) (queueMessages : Z) (messagesSentPerMinute : float64)
    (idleWorkers desiredWorkers : Z) : M (option error) :=
  let labels := [name; namespace; queueName] in
  emit (EDesiredWorkers desiredWorkers) ;;;
  emit (ESetGauge "wpa_queue_messages" labels (of_Z queueMessages)) ;;;
  emit (ESetGauge "wpa_queue_messages_sent_per_minute" labels
          messagesSentPerMinute) ;;;
  emit (ESetGauge "wpa_worker_idle" labels (of_Z idleWorkers)) ;;;
  emit (ESetGauge "wpa_worker_current" labels (of_Z currentWorkers)) ;;;
  emit (ESetGauge "wpa_worker_desired" labels (of_Z desiredWorkers)) ;;;
  emit (ESetGauge "wpa_worker_available" labels (of_Z availableWorkers)) ;;;
  lastScaleTime <~
    (match GetScaleOperation queueName desiredWorkers currentWorkers
             (LastScaleTime (Status w)) (scaleDownDelay c) with
     | ScaleUp | ScaleDown =>
         (if negb (String.eqb (DeploymentName (Spec w)) "") then
            updateDeployment c (Namespace w) (DeploymentName (Spec w))
              desiredWorkers
          else
            updateReplicaSet c (Namespace w) (ReplicaSetName (Spec w))
              desiredWorkers) ;;;
         mret (Some (metav1_Now c))
     | ScaleNoop => mret (LastScaleTime (Status w))
     end) ;;
  updateWorkerPodAutoScalerStatus name namespace
    (customclientset_UpdateStatus c) desiredWorkers w
    currentWorkers availableWorkers queueMessages lastScaleTime ;;;
  emit (ESetGauge "wpa_controller_loop_duration_seconds"
          [name; namespace] (loop_seconds c)) ;;;
  emit (EIncCounter "wpa_controller_loop_count_success" [name; namespace]) ;;;
  mret None.

End Ticks.

(** The calls of the work queue among the effects. *)
Definition is_workqueue_effect (e : Effect) : bool :=
  match e with
  | EForget _ | EAddRateLimited _ | EDone _ => true
  | _ => false
  end.

(** The updates sent to workloads, among the effects. *)
Definition is_workload_update (e : Effect) : bool :=
  match e with
  | EUpdateDeployment _ _ _ | EUpdateReplicaSet _ _ _ => true
  | _ => false
  end.

(** The writes of a status, among the effects. *)
Definition is_status_write (e : Effect) : bool :=
  match e with
  | EUpdateStatus _ _ => true
  | _ => false
  end.

(** The calls to the work queue by which an item leaves
    [processNextWorkItem], by the way its tick ended. *)
Definition workqueue_calls
    (obj : WorkItem) (ended : outcome (option error)) : list Effect :=
  match ended with
  | Ret None => [EForget obj; EDone obj]
  | Ret (Some _) =>
      match obj with
      | ItemEvent event => [EAddRateLimited event; EDone obj]
      | ItemOther _ => [EDone obj]
      end
  | Panic _ => [EDone obj]
  | Fatal _ => []
  end.

(** The passes [runWorker] does not make: those behind the first answer
    that says the queue is shut down. *)
Fixpoint after_shutdown (passes : list (Controller * WorkItem * bool))
  : list (Controller * WorkItem * bool) :=
  match passes with
  | [] => []
  | (_, _, true) :: rest => rest
  | (_, _, false) :: rest => after_shutdown rest
  end.

(** The items [runWorker] processes: those before the first answer that
    says the queue is shut down. *)
Fixpoint before_shutdown (passes : list (Controller * WorkItem * bool))
  : list (Controller * WorkItem) :=
  match passes with
  | [] => []
  | (_, _, true) :: _ => []
  | (c, obj, false) :: rest => (c, obj) :: before_shutdown rest
  end.

(** The log line of an attempt at an update that met an error. *)
Definition update_error_log (what : string) (answer : option error) : list Effect :=
  match answer with
  | Some e => [EErrorLog (what ++ Error e)]
  | None => []
  end.

(** One attempt at the update of a workload, in the shape
    [updateDeployment] and [updateReplicaSet] share: the workload is
    read from the cache, the update is sent, and its error is logged.
    Lemmas [updateDeployment_attempts] and [updateReplicaSet_attempts]
    show both functions to be of this shape. *)
Definition update_attempt
    (lister : lookup Workload) (sent : Effect) (what missing fatal : string)
    (answer : nat -> option error) (attempt : nat) : M (option error) :=
  match lister with
  | Failed getErr =>
      if IsNotFound getErr then mret (Some (Errorf missing))
      else lift (Fatal (fatal ++ Error getErr))
  | Found _ =>
      emit sent ;;;
      match answer attempt with
      | Some updateErr =>
          emit (EErrorLog (what ++ Error updateErr)) ;;; mret (Some updateErr)
      | None => mret None
      end
  end.

(** An accepted update: the workload is in the cache, an attempt among
    the first five has no error, and every attempt before it met a
    conflict. *)
Definition update_accepted
    (lister : lookup Workload) (answer : nat -> option error) (k : nat) : Prop :=
  (exists d, lister = Found d)
  /\ (k < 5)%nat
  /\ answer k = None
  /\ forall j, (j < k)%nat -> exists e, answer j = Some e /\ IsConflict e = true.

(** The command a policy's workload is sent: to the deployment when one is
    named, else to the replica-set. *)
Definition workload_update (w : WorkerPodAutoScaler) (replicas : Z) : Effect :=
  if negb (String.eqb (DeploymentName (Spec w)) "") then
    EUpdateDeployment (Namespace w) (DeploymentName (Spec w)) replicas
  else
    EUpdateReplicaSet (Namespace w) (ReplicaSetName (Spec w)) replicas.

(** What the client answers to that command, attempt after attempt. *)
Definition workload_update_answer
    (c : Controller) (w : WorkerPodAutoScaler) (replicas : Z) (attempt : nat)
  : option error :=
  if negb (String.eqb (DeploymentName (Spec w)) "") then
    kubeclientset_UpdateDeployment c attempt (Namespace w)
      (DeploymentName (Spec w)) replicas
  else
    kubeclientset_UpdateReplicaSet c attempt (Namespace w)
      (ReplicaSetName (Spec w)) replicas.

(** The number of slashes of a string. *)
Fixpoint count_slash (s : string) : nat :=
  match s with
  | EmptyString => O
  | String c s' =>
      if Ascii.eqb c "/"%char then S (count_slash s') else count_slash s'
  end.

(** ** A cluster whose queue has been polled, for examples *)
Module Scenario.

(** The registry after a poll: ten messages wait, ten are sent a minute,
    no worker is idle. *)
Definition registry : QueuesRegistry :=
  {| Queues_Add := fun _ _ _ _ _ _ => None;
     Queues_Delete := fun _ _ => None;
     Queues_GetQueueInfo := fun _ _ => ("otpsms"%string, 10, of_Z 10, 0) |}.

Definition deployment : Workload :=
  {| Replicas := Some 20; WorkloadAvailableReplicas := 20 |}.

(** A cluster: what the caches answer for the policy and for its workload,
    and what the client answers to each attempt at an update. *)
Definition cluster
    (policies : lookup WorkerPodAutoScaler) (workloads : lookup Workload)
    (update : nat -> option error) : Controller :=
  {| kubeclientset_UpdateDeployment := fun attempt _ _ _ => update attempt;
     kubeclientset_UpdateReplicaSet := fun attempt _ _ _ => update attempt;
     customclientset_UpdateStatus := fun _ _ => None;
     deploymentLister := fun _ _ => workloads;
     replicaSetLister := fun _ _ => workloads;
     workerPodAutoScalersLister := fun _ _ => policies;
     defaultMaxDisruption := "100%";
     scaleDownDelay := 600;
     Queues := registry;
     metav1_Now := 2000;
     loop_seconds := zero |}.

(** A client that meets a conflict at the first attempt. *)
Definition conflict_once (attempt : nat) : option error :=
  match attempt with
  | O => Some (Conflict "the object has been modified")
  | S _ => None
  end.

Definition accepted (attempt : nat) : option error := None.

(** The policy of the examples, with another minimum and disruption. *)
Definition policy_with (minReplicas : option Z) (maxDisruption : string)
  : WorkerPodAutoScaler :=
  {| Namespace := Namespace Example.policy;
     Name := Name Example.policy;
     Spec := {| MinReplicas := minReplicas;
                MaxReplicas := Some 20;
                MaxDisruption := Some maxDisruption;
                QueueURI := "https://sqs.example/otpsms";
                QueueServiceName := "sqs";
                DeploymentName := "otpsms-worker";
                ReplicaSetName := "";
                TargetMessagesPerWorker := Some 200;
                SecondsToProcessOneJob := None |};
     Status := Status Example.policy |}.

(** The cluster of the examples: the policy and its deployment are in the
    caches, and the first update meets a conflict. *)
Definition scaling : Controller :=
  cluster (Found Example.policy) (Found deployment) conflict_once.

(** Four passes of the worker: in the second the policy is gone from the
    cache, in the third the queue is shut down. *)
Definition passes : list (Controller * WorkItem * bool) :=
  [(scaling, ItemEvent Example.add_event, false);
   (cluster (Failed (NotFound "not found")) (Found deployment) accepted,
    ItemEvent Example.add_event, false);
   (scaling, ItemEvent Example.add_event, true);
   (scaling, ItemOther "late", false)].

(** The externals of the examples, at an instant within the scale-down
    delay of the last scaling. *)
Definition early : Externals :=
  Build_Externals Example.Unsynced Example.GetMaxDisruption
    (Example.GetScaleOperation 1200).

End Scenario.

(** * Properties of the machine arithmetic *)

(** ** [int32] *)

Lemma Int32_wrap_in_range :
  forall z, Int32.in_range z = true -> Int32.wrap z = z.
Proof.
  intros z Hz. unfold Int32.in_range, Int32.min_int, Int32.max_int in Hz.
  apply andb_true_iff in Hz. destruct Hz as [H1 H2].
  apply Z.leb_le in H1, H2. unfold Int32.wrap.
  rewrite Z.mod_small; lia.
Qed.

Lemma Int32_wrap_bounds :
  forall z, Int32.min_int <= Int32.wrap z <= Int32.max_int.
Proof.
  intros z. unfold Int32.wrap, Int32.min_int, Int32.max_int.
  pose proof (Z.mod_pos_bound (z + 2147483648) 4294967296 ltac:(lia)). lia.
Qed.

(** ** [float64]

    The conversions and the one division the decision function makes on
    integers are exact enough to be read in integer arithmetic. *)

Lemma digits2_pos_size : forall p, digits2_pos p = Pos.size p.
Proof. induction p; cbn; congruence. Qed.

Lemma digits_bounds :
  forall p, 2 ^ (Z.pos (digits2_pos p) - 1) <= Z.pos p < 2 ^ Z.pos (digits2_pos p).
Proof.
  intros p. rewrite digits2_pos_size.
  pose proof (Pos.size_gt p) as Hgt. pose proof (Pos.size_le p) as Hle.
  apply Pos2Z.pos_lt_pos in Hgt. apply Pos2Z.pos_le_pos in Hle.
  rewrite Pos2Z.inj_pow in Hgt, Hle.
  change (Z.pos p~0) with (2 * Z.pos p) in Hle.
  replace (Z.pos (Pos.size p)) with (Z.succ (Z.pos (Pos.size p) - 1)) in Hle by lia.
  rewrite Z.pow_succ_r in Hle by lia. lia.
Qed.

Lemma digits_unique :
  forall p d, 2 ^ (d - 1) <= Z.pos p < 2 ^ d -> Z.pos (digits2_pos p) = d.
Proof.
  intros p d [Hlo Hhi]. pose proof (digits_bounds p) as [Hlo' Hhi'].
  set (D := Z.pos (digits2_pos p)) in *.
  assert (0 < d).
  { destruct (Z.lt_ge_cases 0 d); [assumption |].
    destruct (Z.eq_dec d 0) as [-> | ]; [cbn in Hhi; lia |].
    rewrite Z.pow_neg_r in Hhi by lia. lia. }
  destruct (Z.lt_trichotomy D d) as [Hlt | [Heq | Hgt]]; [| assumption |].
  - assert (2 ^ D <= 2 ^ (d - 1)) by (apply Z.pow_le_mono_r; lia). lia.
  - assert (2 ^ d <= 2 ^ (D - 1)) by (apply Z.pow_le_mono_r; lia). lia.
Qed.

Lemma iter_xO_value :
  forall k p, Z.pos (Pos.iter xO p k) = Z.pos p * 2 ^ Z.pos k.
Proof.
  intros k p. induction k using Pos.peano_ind.
  - cbn. lia.
  - rewrite Pos.iter_succ, Pos2Z.inj_xO, IHk, Pos2Z.inj_succ, Z.pow_succ_r; lia.
Qed.

(** A canonical mantissa with a reachable exponent is rounded to itself. *)
Lemma binary_round_aux_canonical :
  forall s m e,
    Z.pos (digits2_pos m) = 53 -> -1074 <= e <= 971 ->
    binary_round_aux prec emax s (Z.pos m) e loc_Exact = S754_finite s m e.
Proof.
  intros s m e Hd He. unfold binary_round_aux, shr_fexp, fexp, emin, prec, emax.
  cbn [Zdigits2 shr_record_of_loc]. rewrite Hd.
  replace (Z.max (53 + e - 53) (3 - 1024 - 53) - e) with 0 by lia.
  cbn [shr shr_m loc_of_shr_record round_nearest_even Zdigits2 shr_record_of_loc].
  rewrite Hd.
  replace (Z.max (53 + e - 53) (3 - 1024 - 53) - e) with 0 by lia.
  cbn [shr shr_m]. destruct (Z.leb_spec e (1024 - 53)); [reflexivity | lia].
Qed.

Lemma binary_round_exact :
  forall s p,
    Z.pos (digits2_pos p) <= 53 ->
    exists m,
      binary_round prec emax s p 0 = S754_finite s m (Z.pos (digits2_pos p) - 53)
      /\ Z.pos m = Z.pos p * 2 ^ (53 - Z.pos (digits2_pos p))
      /\ Z.pos (digits2_pos m) = 53.
Proof.
  intros s p Hd. unfold binary_round, shl_align, fexp, emin, prec, emax.
  set (d := Z.pos (digits2_pos p)) in *.
  assert (0 < d) by (unfold d; lia).
  replace (Z.max (d + 0 - 53) (3 - 1024 - 53) - 0) with (d - 53) by lia.
  replace (Z.max (d + 0 - 53) (3 - 1024 - 53)) with (d - 53) by lia.
  destruct (d - 53) as [| k | k] eqn:Hk; [| lia |].
  - exists p. replace (53 - d) with 0 by lia. rewrite Z.mul_1_r.
    split; [| split; [reflexivity | unfold d in *; lia]].
    change (binary_round_aux 53 1024) with (binary_round_aux prec emax).
    apply binary_round_aux_canonical; unfold d in *; lia.
  - assert (Hv : Z.pos (Pos.iter xO p k) = Z.pos p * 2 ^ (53 - d)).
    { rewrite iter_xO_value. f_equal. f_equal. lia. }
    assert (Hdm : Z.pos (digits2_pos (Pos.iter xO p k)) = 53).
    { apply digits_unique. rewrite Hv. pose proof (digits_bounds p) as [Hlo Hhi].
      fold d in Hlo, Hhi.
      assert (E1 : 2 ^ 53 = 2 ^ d * 2 ^ (53 - d))
        by (rewrite <- Z.pow_add_r by lia; f_equal; lia).
      assert (E2 : 2 ^ (53 - 1) = 2 ^ (d - 1) * 2 ^ (53 - d))
        by (rewrite <- Z.pow_add_r by lia; f_equal; lia).
      rewrite E1, E2.
      assert (0 < 2 ^ (53 - d)) by (apply Z.pow_pos_nonneg; lia). nia. }
    exists (Pos.iter xO p k). split; [| split; assumption].
    change (binary_round_aux 53 1024) with (binary_round_aux prec emax).
    apply binary_round_aux_canonical; [assumption | lia].
Qed.

Lemma of_Z_exact :
  forall z, - 2 ^ 53 < z < 2 ^ 53 -> trunc (of_Z z) = Some z.
Proof.
  intros z Hz. unfold of_Z, binary_normalize.
  destruct z as [| p | p]; [reflexivity | |].
  - assert (Hd : Z.pos (digits2_pos p) <= 53).
    { pose proof (digits_bounds p) as [Hlo _].
      destruct (Z.le_gt_cases (Z.pos (digits2_pos p)) 53); [assumption |].
      assert (2 ^ 53 <= 2 ^ (Z.pos (digits2_pos p) - 1))
        by (apply Z.pow_le_mono_r; lia). lia. }
    destruct (binary_round_exact false p Hd) as (m & -> & Hm & _).
    unfold trunc. cbn [cond_Zopp]. f_equal.
    set (d := Z.pos (digits2_pos p)) in *.
    destruct (Z.leb_spec 0 (d - 53)).
    + replace (d - 53) with 0 by lia. replace (53 - d) with 0 in Hm by lia. lia.
    + rewrite Hm. replace (- (d - 53)) with (53 - d) by lia.
      apply Z.div_mul. apply Z.pow_nonzero; lia.
  - assert (Hd : Z.pos (digits2_pos p) <= 53).
    { pose proof (digits_bounds p) as [Hlo _].
      destruct (Z.le_gt_cases (Z.pos (digits2_pos p)) 53); [assumption |].
      assert (2 ^ 53 <= 2 ^ (Z.pos (digits2_pos p) - 1))
        by (apply Z.pow_le_mono_r; lia). lia. }
    destruct (binary_round_exact true p Hd) as (m & -> & Hm & _).
    unfold trunc. cbn [cond_Zopp]. f_equal.
    set (d := Z.pos (digits2_pos p)) in *.
    destruct (Z.leb_spec 0 (d - 53)).
    + replace (d - 53) with 0 by lia. replace (53 - d) with 0 in Hm by lia. lia.
    + rewrite Hm. replace (- (d - 53)) with (53 - d) by lia.
      rewrite Z.div_mul by (apply Z.pow_nonzero; lia). lia.
Qed.

Lemma loc_of_shr_record_of_loc :
  forall m l, loc_of_shr_record (shr_record_of_loc m l) = l.
Proof. intros m [| []]; reflexivity. Qed.

Lemma shr_m_record_of_loc :
  forall m l, shr_m (shr_record_of_loc m l) = m.
Proof. intros m [| []]; reflexivity. Qed.

Lemma round_nearest_even_bracket :
  forall m l,
    m <= round_nearest_even m l <= m + 1
    /\ (l = loc_Exact -> round_nearest_even m l = m).
Proof.
  intros m [| []]; cbn; try destruct (Z.even m); split; try lia; try reflexivity;
    discriminate.
Qed.

(** The last step of a rounding: a mantissa of 53 bits stays, 2^53 becomes
    2^52 with the next exponent. *)
Lemma shr_fexp_renormalize :
  forall s m e,
    2 ^ 52 <= m <= 2 ^ 53 -> -1074 <= e <= 970 ->
    exists mf ef,
      (let '(mrs, e') := shr_fexp prec emax m e loc_Exact in
       match shr_m mrs with
       | Z0 => S754_zero s
       | Zpos m' =>
           if e' <=? emax - prec then S754_finite s m' e' else S754_infinity s
       | Zneg _ => S754_nan
       end) = S754_finite s mf ef
      /\ Z.pos (digits2_pos mf) = 53
      /\ ((ef = e /\ Z.pos mf = m) \/ (ef = e + 1 /\ Z.pos mf * 2 = m)).
Proof.
  intros s m e Hm He.
  destruct m as [| p | p]; try (exfalso; lia).
  destruct (Z.eq_dec (Z.pos p) (2 ^ 53)) as [Heq | Hne].
  - exists 4503599627370496%positive, (e + 1).
    assert (Hp : p = 9007199254740992%positive) by (injection Heq; auto).
    subst p. unfold shr_fexp, fexp, emin, prec, emax.
    change (Zdigits2 9007199254740992) with 54.
    replace (Z.max (54 + e - 53) (3 - 1024 - 53) - e) with 1 by lia.
    cbn [shr shr_record_of_loc iter_pos shr_1 shr_m orb].
    destruct (Z.leb_spec (e + 1) (1024 - 53)); [| lia].
    split; [reflexivity |]. split; [reflexivity |]. right. split; reflexivity.
  - exists p, e.
    assert (Hd : Z.pos (digits2_pos p) = 53) by (apply digits_unique; lia).
    unfold shr_fexp, fexp, emin, prec, emax. cbn [Zdigits2]. rewrite Hd.
    replace (Z.max (53 + e - 53) (3 - 1024 - 53) - e) with 0 by lia.
    cbn [shr shr_record_of_loc shr_m].
    destruct (Z.leb_spec e (1024 - 53)); [| lia].
    split; [reflexivity |]. split; [reflexivity |]. left. split; reflexivity.
Qed.

(** How a quotient of 53 or 54 bits is rounded: one bit is dropped from a
    quotient of 54 bits, the mantissa that is left is kept or increased by
    one, and it is kept when nothing was lost. *)
Lemma binary_round_aux_bracket :
  forall s q e loc,
    2 ^ 52 <= Z.pos q < 2 ^ 54 -> -1074 <= e <= 969 ->
    exists mf ef g m1,
      binary_round_aux prec emax s (Z.pos q) e loc = S754_finite s mf ef
      /\ Z.pos (digits2_pos mf) = 53
      /\ (g = 0 \/ g = 1)
      /\ 2 ^ (52 + g) <= Z.pos q < 2 ^ (53 + g)
      /\ ((ef = e + g /\ Z.pos mf = m1) \/ (ef = e + g + 1 /\ Z.pos mf * 2 = m1))
      /\ Z.pos q / 2 ^ g <= m1 <= Z.pos q / 2 ^ g + 1
      /\ (loc = loc_Exact -> Z.pos q mod 2 ^ g = 0 -> m1 = Z.pos q / 2 ^ g).
Proof.
  intros s q e loc Hq He.
  destruct (Z.lt_ge_cases (Z.pos q) (2 ^ 53)) as [Hlt | Hge].
  - (* 53 bits *)
    assert (Hd : Z.pos (digits2_pos q) = 53) by (apply digits_unique; lia).
    pose proof (round_nearest_even_bracket (Z.pos q) loc) as [Hr Hx].
    destruct (shr_fexp_renormalize s (round_nearest_even (Z.pos q) loc) e)
      as (mf & ef & Hres & Hdf & Hcase); [lia | lia |].
    exists mf, ef, 0, (round_nearest_even (Z.pos q) loc).
    split.
    { unfold binary_round_aux. unfold shr_fexp at 1.
      unfold fexp, emin, prec, emax. cbn [Zdigits2]. rewrite Hd.
      replace (Z.max (53 + e - 53) (3 - 1024 - 53) - e) with 0 by lia.
      cbn [shr]. rewrite loc_of_shr_record_of_loc, shr_m_record_of_loc.
      exact Hres. }
    split; [assumption |]. split; [left; reflexivity |].
    rewrite Z.add_0_r. split; [lia |]. split; [lia |].
    change (2 ^ 0) with 1. rewrite Z.div_1_r. split; [lia |]. auto.
  - (* 54 bits *)
    assert (Hd : Z.pos (digits2_pos q) = 54) by (apply digits_unique; lia).
    set (rec1 := shr_1 (shr_record_of_loc (Z.pos q) loc)).
    assert (Hrec : shr_m rec1 = Z.pos q / 2
                   /\ (loc = loc_Exact -> Z.pos q mod 2 = 0 ->
                       loc_of_shr_record rec1 = loc_Exact)).
    { unfold rec1. destruct q as [q' | q' |]; [| | exfalso; lia].
      - split.
        + destruct loc as [| []]; cbn [shr_1 shr_record_of_loc shr_m];
            rewrite Pos2Z.inj_xI;
            apply (Z.div_unique _ 2 _ 1); lia.
        + intros _ Hodd. rewrite Pos2Z.inj_xI in Hodd.
          replace (2 * Z.pos q' + 1) with (1 + Z.pos q' * 2) in Hodd by lia.
          rewrite Z.mod_add in Hodd by lia. discriminate.
      - split.
        + destruct loc as [| []]; cbn [shr_1 shr_record_of_loc shr_m];
            rewrite Pos2Z.inj_xO;
            apply (Z.div_unique _ 2 _ 0); lia.
        + intros -> _. reflexivity. }
    destruct Hrec as [Hm Hexact].
    pose proof (round_nearest_even_bracket (shr_m rec1) (loc_of_shr_record rec1))
      as [Hr Hx].
    assert (Hhalf : 2 ^ 52 <= Z.pos q / 2 < 2 ^ 53).
    { split.
      - apply Z.div_le_lower_bound; lia.
      - apply Z.div_lt_upper_bound; lia. }
    destruct (shr_fexp_renormalize s
                (round_nearest_even (shr_m rec1) (loc_of_shr_record rec1)) (e + 1))
      as (mf & ef & Hres & Hdf & Hcase); [lia | lia |].
    exists mf, ef, 1, (round_nearest_even (shr_m rec1) (loc_of_shr_record rec1)).
    split.
    { unfold binary_round_aux. unfold shr_fexp at 1.
      unfold fexp, emin, prec, emax. cbn [Zdigits2]. rewrite Hd.
      replace (Z.max (54 + e - 53) (3 - 1024 - 53) - e) with 1 by lia.
      cbn [shr iter_pos]. fold rec1. exact Hres. }
    split; [assumption |]. split; [right; reflexivity |].
    change (2 ^ 1) with 2. split; [lia |]. split; [exact Hcase |].
    rewrite <- Hm. split; [lia |].
    intros Hl Hmod. rewrite Hx; [reflexivity |]. apply Hexact; assumption.
Qed.

Lemma new_location_exact : forall n, new_location n 0 = loc_Exact.
Proof.
  intros n. unfold new_location, new_location_even, new_location_odd.
  destruct (Z.even n); reflexivity.
Qed.

(** The quotient of two positive numbers below 2^53 whose digits differ by
    less than 53: its mantissa [mr], at the exponent [- E], is the integer
    quotient of [a * 2^E] by [t], or the next integer when that division
    leaves a remainder. *)
Lemma div_of_Z_bracket :
  forall a t,
    Z.pos (digits2_pos a) <= 53 -> Z.pos (digits2_pos t) <= 53 ->
    Z.pos (digits2_pos a) - Z.pos (digits2_pos t) < 52 ->
    exists mf ef E mr,
      div (of_Z (Z.pos a)) (of_Z (Z.pos t)) = S754_finite false mf ef
      /\ Z.pos (digits2_pos mf) = 53
      /\ 0 < E
      /\ ((ef = - E /\ Z.pos mf = mr) \/ (ef = - E + 1 /\ Z.pos mf * 2 = mr))
      /\ 2 ^ 52 <= mr <= 2 ^ 53
      /\ Z.pos a * 2 ^ E / Z.pos t <= mr <= Z.pos a * 2 ^ E / Z.pos t + 1
      /\ ((Z.pos a * 2 ^ E) mod Z.pos t = 0 -> mr = Z.pos a * 2 ^ E / Z.pos t).
Proof.
  intros a t Ha Ht Hdiff.
  destruct (binary_round_exact false a Ha) as (ma & Hfa & Hma & Hda).
  destruct (binary_round_exact false t Ht) as (mt & Hft & Hmt & Hdt).
  set (da := Z.pos (digits2_pos a)) in *. set (dt := Z.pos (digits2_pos t)) in *.
  assert (0 < da) by (unfold da; lia). assert (0 < dt) by (unfold dt; lia).
  pose proof (digits_bounds ma) as Hbma. rewrite Hda in Hbma.
  pose proof (digits_bounds mt) as Hbmt. rewrite Hdt in Hbmt.
  change (2 ^ (53 - 1)) with (2 ^ 52) in Hbma, Hbmt.
  set (A := Z.pos ma * 2 ^ 53).
  assert (Hq : 2 ^ 52 <= A / Z.pos mt < 2 ^ 54).
  { unfold A. split.
    - apply Z.div_le_lower_bound; [lia |]. nia.
    - apply Z.div_lt_upper_bound; [lia |]. nia. }
  destruct (A / Z.pos mt) as [| q | q] eqn:Hquot; try (exfalso; lia).
  destruct (binary_round_aux_bracket false q (da - dt - 53)
              (new_location (Z.pos mt) (A mod Z.pos mt)) Hq)
    as (mf & ef & g & mr & Hres & Hdf & Hg & Hqg & Hef & Hmr & Hexact);
    [lia |].
  assert (Hdiv : div (of_Z (Z.pos a)) (of_Z (Z.pos t)) = S754_finite false mf ef).
  { unfold div, of_Z, binary_normalize. rewrite Hfa, Hft.
    unfold SFdiv, SFdiv_core_binary. cbn [Zdigits2]. rewrite Hda, Hdt.
    unfold fexp, emin. change prec with 53. change emax with 1024.
    replace (Z.min (Z.max (53 + (da - 53) - (53 + (dt - 53)) - 53) (3 - 1024 - 53))
               (da - 53 - (dt - 53))) with (da - dt - 53) by lia.
    replace (da - 53 - (dt - 53) - (da - dt - 53)) with 53 by lia.
    rewrite Z.shiftl_mul_pow2 by lia. fold A.
    unfold Z.div, Z.modulo in Hquot, Hres.
    destruct (Z.div_eucl A (Z.pos mt)) as [q0 r0]. subst q0.
    cbn [xorb]. exact Hres. }
  set (E := 53 - da + dt - g).
  assert (HE : 0 < E) by (unfold E; lia).
  assert (Hpg : 0 < 2 ^ g) by (apply Z.pow_pos_nonneg; lia).
  assert (Hpk : 0 < 2 ^ (53 - dt + g)) by (apply Z.pow_pos_nonneg; lia).
  assert (HA : A = Z.pos a * 2 ^ E * 2 ^ (53 - dt + g)).
  { unfold A. rewrite Hma, <- !Z.mul_assoc, <- !Z.pow_add_r by lia.
    f_equal. f_equal. unfold E. lia. }
  assert (Hden : Z.pos mt * 2 ^ g = Z.pos t * 2 ^ (53 - dt + g)).
  { rewrite Hmt, <- Z.mul_assoc, <- Z.pow_add_r by lia. reflexivity. }
  assert (Hfl : Z.pos q / 2 ^ g = Z.pos a * 2 ^ E / Z.pos t).
  { rewrite <- Hquot, Z.div_div by lia. rewrite Hden, HA.
    apply Z.div_mul_cancel_r; lia. }
  assert (Hzero : (Z.pos a * 2 ^ E) mod Z.pos t = 0 ->
                  A mod Z.pos mt = 0 /\ Z.pos q mod 2 ^ g = 0).
  { intros Hmod.
    assert (Hfull : A mod (Z.pos mt * 2 ^ g) = 0).
    { rewrite Hden, HA, Z.mul_mod_distr_r by lia. rewrite Hmod. reflexivity. }
    rewrite Z.rem_mul_r in Hfull by lia. rewrite Hquot in Hfull.
    pose proof (Z.mod_pos_bound A (Z.pos mt) ltac:(lia)).
    pose proof (Z.mod_pos_bound (Z.pos q) (2 ^ g) Hpg).
    split; nia. }
  exists mf, ef, E, mr. split; [exact Hdiv |]. split; [assumption |].
  split; [assumption |]. split.
  { unfold E. destruct Hef as [[-> ->] | [-> Hm]]; [left | right]; split; lia. }
  split.
  { pose proof (digits_bounds mf) as Hbmf. rewrite Hdf in Hbmf.
    change (2 ^ (53 - 1)) with (2 ^ 52) in Hbmf.
    destruct Hef as [[_ Hm] | [_ Hm]]; [lia |].
    assert (Hlo : 2 ^ 52 <= Z.pos q / 2 ^ g).
    { destruct Hg as [-> | ->]; [change (2 ^ 0) with 1; rewrite Z.div_1_r; lia |].
      change (2 ^ 1) with 2. apply Z.div_le_lower_bound; lia. }
    assert (Hhi : Z.pos q / 2 ^ g < 2 ^ 53).
    { destruct Hg as [-> | ->]; [change (2 ^ 0) with 1; rewrite Z.div_1_r; lia |].
      change (2 ^ 1) with 2. apply Z.div_lt_upper_bound; lia. }
    lia. }
  rewrite <- Hfl. split; [exact Hmr |].
  intros Hmod. destruct (Hzero Hmod) as [Hr Hqz].
  apply Hexact; [| assumption]. rewrite Hr. apply new_location_exact.
Qed.

(** Rounding up a quotient of integers. *)
Lemma ceiling_unique :
  forall m N n, 0 < N -> (n - 1) * N < m <= n * N -> (m + N - 1) / N = n.
Proof.
  intros m N n HN Hm. symmetry.
  apply (Z.div_unique _ N n (m + N - 1 - n * N)); lia.
Qed.

Lemma ceiling_bounds :
  forall a t, 0 < t ->
    ((a + t - 1) / t - 1) * t < a <= (a + t - 1) / t * t.
Proof.
  intros a t Ht. pose proof (Z.div_mod (a + t - 1) t ltac:(lia)) as Hdm.
  pose proof (Z.mod_pos_bound (a + t - 1) t Ht). nia.
Qed.

(** A scaled quotient that is kept or increased by one, and kept when the
    division is exact, has the ceiling of the quotient it came from. *)
Lemma scaled_quotient_ceiling :
  forall a t N mr,
    0 < t < N ->
    a * N / t <= mr <= a * N / t + 1 ->
    ((a * N) mod t = 0 -> mr = a * N / t) ->
    ((a + t - 1) / t - 1) * N < mr <= (a + t - 1) / t * N.
Proof.
  intros a t N mr Ht Hmr Hexact.
  pose proof (ceiling_bounds a t ltac:(lia)) as [Hlo Hhi].
  set (n := (a + t - 1) / t) in *.
  pose proof (Z.div_mod (a * N) t ltac:(lia)) as Hdm.
  pose proof (Z.mod_pos_bound (a * N) t ltac:(lia)) as Hrem.
  set (fl := a * N / t) in *. set (rem := (a * N) mod t) in *.
  split.
  - assert (Hfl : (n - 1) * N < fl); [| lia].
    apply Z.mul_lt_mono_pos_r with (p := t); [lia |]. nia.
  - destruct (Z.eq_dec rem 0) as [Hz | Hnz].
    + rewrite (Hexact Hz).
      apply Z.mul_le_mono_pos_r with (p := t); [lia |]. nia.
    + assert (Hfl : fl < n * N); [| lia].
      apply Z.mul_lt_mono_pos_r with (p := t); [lia |]. nia.
Qed.

Section FloatToInt.
Context {P : Platform}.

(** [int32(math.Ceil(x))] for a positive [x] that is not integral by its
    exponent. *)
Lemma int32_of_Ceil_finite :
  forall mf ef,
    ef < 0 -> Z.pos mf < 2 ^ 53 ->
    Int32.in_range ((Z.pos mf + 2 ^ (- ef) - 1) / 2 ^ (- ef)) = true ->
    int32_of_float64 (Ceil (S754_finite false mf ef))
    = (Z.pos mf + 2 ^ (- ef) - 1) / 2 ^ (- ef).
Proof.
  intros mf ef He Hm Hrange. unfold Ceil.
  destruct (Z.leb_spec 0 ef); [lia |].
  set (d := 2 ^ (- ef)) in *.
  assert (Hd : 2 <= d).
  { unfold d. change 2 with (2 ^ 1) at 1. apply Z.pow_le_mono_r; lia. }
  pose proof (Z.div_mod (Z.pos mf) d ltac:(lia)) as Hdm.
  pose proof (Z.mod_pos_bound (Z.pos mf) d ltac:(lia)) as Hrem.
  assert (Hv : (if Z.pos mf mod d =? 0 then Z.pos mf / d else Z.pos mf / d + 1)
               = (Z.pos mf + d - 1) / d).
  { symmetry. apply ceiling_unique; [lia |].
    destruct (Z.eqb_spec (Z.pos mf mod d) 0); nia. }
  rewrite Hv. fold (of_Z ((Z.pos mf + d - 1) / d)).
  unfold int32_of_float64. rewrite of_Z_exact, Hrange; [reflexivity |].
  unfold Int32.in_range, Int32.min_int, Int32.max_int in Hrange.
  apply andb_true_iff in Hrange. destruct Hrange as [H1 H2].
  apply Z.leb_le in H1, H2. lia.
Qed.

(** The raw desired count is the backlog divided by the target per worker
    and rounded up, in exact arithmetic. *)
Lemma rawDesired_exact :
  forall queueMessages targetMessagesPerWorker,
    0 <= queueMessages <= Int32.max_int ->
    0 < targetMessagesPerWorker <= Int32.max_int ->
    rawDesired queueMessages targetMessagesPerWorker
    = (queueMessages + targetMessagesPerWorker - 1) / targetMessagesPerWorker.
Proof.
  intros a t Ha Ht. unfold Int32.max_int in *. unfold rawDesired.
  assert (Hdig : forall p, Z.pos p <= 2147483647 -> Z.pos (digits2_pos p) <= 31).
  { intros p Hp. pose proof (digits_bounds p) as [Hlo _].
    destruct (Z.le_gt_cases (Z.pos (digits2_pos p)) 31); [assumption |].
    assert (2 ^ 31 <= 2 ^ (Z.pos (digits2_pos p) - 1))
      by (apply Z.pow_le_mono_r; lia). lia. }
  destruct t as [| t | t]; try lia.
  destruct a as [| a | a]; try lia.
  - (* no backlog *)
    destruct (binary_round_exact false t) as (mt & Hft & _);
      [specialize (Hdig t); lia |].
    rewrite (Z.div_small (0 + Z.pos t - 1) (Z.pos t)) by lia.
    unfold of_Z, binary_normalize. rewrite Hft. reflexivity.
  - pose proof (Hdig a ltac:(lia)) as Hda. pose proof (Hdig t ltac:(lia)) as Hdt.
    destruct (div_of_Z_bracket a t) as (mf & ef & E & mr & Hdiv & Hdf & HE &
                                          Hef & Hmr52 & Hmr & Hexact);
      [lia | lia | lia |].
    rewrite Hdiv.
    assert (Hpow : forall k, 0 <= k -> 0 < 2 ^ k)
      by (intros; apply Z.pow_pos_nonneg; lia).
    assert (HN : Z.pos t < 2 ^ E).
    { destruct (Z.lt_ge_cases (Z.pos t) (2 ^ E)); [assumption | exfalso].
      assert (Z.pos a * 2 ^ E / Z.pos t <= Z.pos a).
      { apply Z.div_le_upper_bound; [lia |]. specialize (Hpow E). nia. }
      lia. }
    assert (HE2 : 2 <= E).
    { destruct (Z.lt_ge_cases E 2); [exfalso | lia].
      assert (2 ^ E <= 2 ^ 1) by (apply Z.pow_le_mono_r; lia).
      change (2 ^ 1) with 2 in *.
      assert (Z.pos a * 2 ^ E / Z.pos t <= Z.pos a * 2).
      { apply Z.div_le_upper_bound; [lia |]. nia. }
      lia. }
    pose proof (scaled_quotient_ceiling (Z.pos a) (Z.pos t) (2 ^ E) mr
                  ltac:(lia) Hmr Hexact) as Hbr.
    pose proof (ceiling_bounds (Z.pos a) (Z.pos t) ltac:(lia)) as Hn.
    set (n := (Z.pos a + Z.pos t - 1) / Z.pos t) in *.
    assert (Hn1 : 1 <= n <= Z.pos a) by nia.
    pose proof (digits_bounds mf) as Hbmf. rewrite Hdf in Hbmf.
    assert (Hceil : (Z.pos mf + 2 ^ (- ef) - 1) / 2 ^ (- ef) = n).
    { apply ceiling_unique.
      - apply Hpow. destruct Hef as [[-> _] | [-> _]]; lia.
      - destruct Hef as [[-> Hm] | [-> Hm]].
        + rewrite Z.opp_involutive, Hm. exact Hbr.
        + replace (- (- E + 1)) with (E - 1) by lia.
          assert (H2 : 2 ^ E = 2 * 2 ^ (E - 1)).
          { rewrite <- Z.pow_succ_r by lia. f_equal. lia. }
          rewrite H2 in Hbr. lia. }
    rewrite int32_of_Ceil_finite; rewrite ?Hceil; try reflexivity.
    + destruct Hef as [[-> _] | [-> _]]; lia.
    + lia.
    + unfold Int32.in_range, Int32.min_int, Int32.max_int.
      apply andb_true_iff. split; apply Z.leb_le; lia.
Qed.
End FloatToInt.

(** The tolerance is the [float64] nearest to one tenth: ten times its
    mantissa is 2^56 + 4. *)
Lemma tolerance_mantissa : 10 * 7205759403792794 = 2 ^ 56 + 4.
Proof. reflexivity. Qed.

(** Comparing a rounded quotient of integers with the tolerance is comparing
    the quotient itself with one tenth. *)
Lemma scaled_quotient_tolerance :
  forall a c E mr,
    0 < a <= 2 ^ 31 -> 0 < c < 2 ^ 31 -> 0 < E ->
    2 ^ 52 <= mr <= 2 ^ 53 ->
    a * 2 ^ E / c <= mr <= a * 2 ^ E / c + 1 ->
    ((a * 2 ^ E) mod c = 0 -> mr = a * 2 ^ E / c) ->
    (mr * 2 ^ 56 <= 7205759403792794 * 2 ^ E <-> 10 * a <= c).
Proof.
  intros a c E mr Ha Hc HE Hmr52 Hmr Hexact.
  pose proof (Z.div_mod (a * 2 ^ E) c ltac:(lia)) as Hdm.
  pose proof (Z.mod_pos_bound (a * 2 ^ E) c ltac:(lia)) as Hrem.
  set (N := 2 ^ E) in *. set (fl := a * N / c) in *.
  set (rem := (a * N) mod c) in *.
  assert (HN : 0 < N) by (apply Z.pow_pos_nonneg; lia).
  change (2 ^ 31) with 2147483648 in *.
  change (2 ^ 52) with 4503599627370496 in *.
  change (2 ^ 53) with 9007199254740992 in *.
  change (2 ^ 56) with 72057594037927936 in *.
  split.
  - (* a quotient above a tenth is rounded above the tolerance *)
    intros Hle. destruct (Z.le_gt_cases (10 * a) c) as [| Hgt]; [assumption |].
    exfalso.
    assert (H20 : 20 * c <= N).
    { apply Z.mul_le_mono_pos_l with (p := 2147483648); [lia |]. nia. }
    assert (Hflc : (c + 1) * N - 10 * c < 10 * fl * c) by nia.
    assert (72057594037927936 * (10 * fl * c)
            <= 72057594037927940 * N * c) by nia.
    nia.
  - (* a quotient of at most a tenth is rounded to at most the tolerance *)
    intros Hle.
    assert (Hfl10 : 10 * fl <= N).
    { apply Z.mul_le_mono_pos_r with (p := c); [lia |]. nia. }
    assert (HE56 : 56 <= E).
    { destruct (Z.le_gt_cases 56 E); [assumption | exfalso].
      assert (N <= 2 ^ 55) by (apply Z.pow_le_mono_r; lia).
      change (2 ^ 55) with 36028797018963968 in *. lia. }
    assert (HM : N = 72057594037927936 * 2 ^ (E - 56)).
    { unfold N. change 72057594037927936 with (2 ^ 56).
      rewrite <- Z.pow_add_r by lia. f_equal. lia. }
    assert (0 < 2 ^ (E - 56)) by (apply Z.pow_pos_nonneg; lia).
    set (M := 2 ^ (E - 56)) in *.
    assert (Hgoal : mr <= 7205759403792794 * M); [| nia].
    destruct (Z.eq_dec rem 0) as [Hz | Hnz].
    + rewrite (Hexact Hz). lia.
    + assert (10 * fl < N).
      { apply Z.mul_lt_mono_pos_r with (p := c); [lia |]. nia. }
      lia.
Qed.

Lemma abs_of_Z :
  forall z, - 2 ^ 53 < z < 2 ^ 53 -> abs (of_Z z) = of_Z (Z.abs z).
Proof.
  intros z Hz. destruct z as [| p | p]; [reflexivity | |];
    (assert (Hd : Z.pos (digits2_pos p) <= 53);
     [ pose proof (digits_bounds p) as [Hlo _];
       destruct (Z.le_gt_cases (Z.pos (digits2_pos p)) 53); [assumption |];
       assert (2 ^ 53 <= 2 ^ (Z.pos (digits2_pos p) - 1))
         by (apply Z.pow_le_mono_r; lia); lia |]);
    unfold of_Z, binary_normalize; cbn [Z.abs].
  - destruct (binary_round_exact false p Hd) as (m & -> & _). reflexivity.
  - destruct (binary_round_exact true p Hd) as (m & -> & Hm & _).
    destruct (binary_round_exact false p Hd) as (m' & -> & Hm' & _).
    cbn. f_equal. lia.
Qed.

(** The order of two positive floats with mantissas of 53 bits. *)
Lemma leb_finite :
  forall m1 e1 m2 e2,
    leb (S754_finite false m1 e1) (S754_finite false m2 e2) = true
    <-> e1 < e2 \/ (e1 = e2 /\ Z.pos m1 <= Z.pos m2).
Proof.
  intros. unfold leb, SFleb, SFcompare.
  destruct (Z.compare_spec e1 e2) as [He | He | He].
  - change (Pos.compare_cont Eq m1 m2) with (Pos.compare m1 m2).
    destruct (Pos.compare_spec m1 m2) as [Hm | Hm | Hm]; split; intros H;
      try discriminate; try reflexivity; try (right; split; lia); try lia.
  - split; [intros _; left; assumption | reflexivity].
  - split; [discriminate | lia].
Qed.

Section StabilityTestExact.
Context {P : Platform}.

(** The stability test of the code, on [float64], is the test of the spec in
    exact arithmetic: the distance of the desired count from the current
    one is at most a tenth of the current one. *)
Lemma isChangeTooSmall_exact :
  forall desired current,
    0 < current <= Int32.max_int ->
    isChangeTooSmall desired current tolerance = true
    <-> 10 * Z.abs (Int32.sub desired current) <= current.
Proof.
  intros desired current Hc. unfold Int32.max_int in Hc.
  unfold isChangeTooSmall.
  pose proof (Int32_wrap_bounds (desired - current)) as Hw.
  unfold Int32.min_int, Int32.max_int in Hw. fold (Int32.sub desired current) in Hw.
  set (w := Int32.sub desired current) in *.
  rewrite abs_of_Z by lia.
  assert (Hdig : forall p, Z.pos p <= 2147483648 -> Z.pos (digits2_pos p) <= 32).
  { intros p Hp. pose proof (digits_bounds p) as [Hlo _].
    destruct (Z.le_gt_cases (Z.pos (digits2_pos p)) 32); [assumption |].
    assert (2 ^ 32 <= 2 ^ (Z.pos (digits2_pos p) - 1))
      by (apply Z.pow_le_mono_r; lia). lia. }
  destruct current as [| c | c]; try lia.
  destruct (Z.abs w) as [| a | a] eqn:Ha; try lia.
  - (* the desired count is the current one *)
    destruct (binary_round_exact false c) as (mc & Hfc & _);
      [specialize (Hdig c); lia |].
    unfold of_Z, binary_normalize. rewrite Hfc. cbn. split; [lia | reflexivity].
  - pose proof (Hdig a ltac:(lia)) as Hda. pose proof (Hdig c ltac:(lia)) as Hdc.
    destruct (div_of_Z_bracket a c) as (mf & ef & E & mr & Hdiv & Hdf & HE &
                                          Hef & Hmr52 & Hmr & Hexact);
      [lia | lia | lia |].
    rewrite Hdiv. unfold tolerance. rewrite leb_finite.
    rewrite <- (scaled_quotient_tolerance (Z.pos a) (Z.pos c) E mr)
      by (assumption || (change (2 ^ 31) with 2147483648; lia)).
    pose proof (digits_bounds mf) as Hbmf. rewrite Hdf in Hbmf.
    change (2 ^ (53 - 1)) with 4503599627370496 in Hbmf.
    change (2 ^ 53) with 9007199254740992 in *.
    change (2 ^ 52) with 4503599627370496 in *.
    change (2 ^ 56) with 72057594037927936.
    assert (Hpow : forall k, 0 <= k -> 0 < 2 ^ k)
      by (intros; apply Z.pow_pos_nonneg; lia).
    assert (Hsplit : forall k, 0 <= k -> 2 ^ E = 2 ^ k * 2 ^ (E - k) \/ E < k).
    { intros k Hk. destruct (Z.lt_ge_cases E k); [right; assumption | left].
      rewrite <- Z.pow_add_r by lia. f_equal. lia. }
    destruct (Z.lt_trichotomy E 56) as [Hlt | [Heq | Hgt]].
    + (* the quotient is in a binade above the one of the tolerance *)
      assert (2 ^ E <= 2 ^ 55) by (apply Z.pow_le_mono_r; lia).
      change (2 ^ 55) with 36028797018963968 in *.
      destruct Hef as [[-> Hm] | [-> Hm]]; split; intros H0; try lia.
    + subst E. change (2 ^ 56) with 72057594037927936.
      destruct Hef as [[-> Hm] | [-> Hm]]; split; intros H0; try lia.
    + destruct (Hsplit 57 ltac:(lia)) as [H57 | ]; [| lia].
      specialize (Hpow (E - 57) ltac:(lia)).
      change (2 ^ 57) with 144115188075855872 in H57.
      destruct (Z.eq_dec E 57) as [-> | Hne].
      * change (2 ^ 57) with 144115188075855872.
        destruct Hef as [[-> Hm] | [-> Hm]]; split; intros H0; try lia.
      * destruct (Hsplit 58 ltac:(lia)) as [H58 | ]; [| lia].
        assert (0 < 2 ^ (E - 58)) by (apply Z.pow_pos_nonneg; lia).
        change (2 ^ 58) with 288230376151711744 in H58.
        destruct Hef as [[-> Hm] | [-> Hm]]; split; intros H0; try lia.
Qed.
End StabilityTestExact.

(** * Properties of the decision function *)

Section DecisionProperties.
Context {P : Platform}.

Lemma convertDesiredReplicasWithRules_pinned :
  forall current desired min max maxDisruptable,
    max <= min ->
    convertDesiredReplicasWithRules current desired min max maxDisruptable = max.
Proof.
  intros. unfold convertDesiredReplicasWithRules.
  destruct (Z.geb_spec min max); [reflexivity | lia].
Qed.

Lemma convertDesiredReplicasWithRules_bounded :
  forall current desired min max maxDisruptable,
    min < max ->
    min <= convertDesiredReplicasWithRules current desired min max maxDisruptable
        <= max.
Proof.
  intros. unfold convertDesiredReplicasWithRules.
  destruct (Z.geb_spec min max); [lia |].
  set (d := if Int32.sub current desired >? maxDisruptable
            then Int32.sub current maxDisruptable else desired).
  destruct (Z.gtb_spec d max); [lia |].
  destruct (Z.ltb_spec d min); lia.
Qed.

Lemma getMinWorkers_ge_minWorkers :
  forall messagesSentPerMinute minWorkers secondsToProcessOneJob,
    minWorkers <= getMinWorkers messagesSentPerMinute minWorkers
                    secondsToProcessOneJob.
Proof.
  intros. unfold getMinWorkers.
  destruct (eqb secondsToProcessOneJob zero); [lia |].
  destruct (Z.gtb_spec
              (workersBasedOnMessagesSent messagesSentPerMinute
                 secondsToProcessOneJob) minWorkers); lia.
Qed.

(** [getMinWorkers] is the larger of the given minimum and the workers the
    sending rate asks for, when a processing time is set. *)
Lemma getMinWorkers_velocity :
  forall messagesSentPerMinute minWorkers secondsToProcessOneJob,
    eqb secondsToProcessOneJob zero = false ->
    getMinWorkers messagesSentPerMinute minWorkers secondsToProcessOneJob
    = Z.max minWorkers
        (workersBasedOnMessagesSent messagesSentPerMinute secondsToProcessOneJob).
Proof.
  intros * Hs. unfold getMinWorkers. rewrite Hs.
  destruct (Z.gtb_spec
              (workersBasedOnMessagesSent messagesSentPerMinute
                 secondsToProcessOneJob) minWorkers); lia.
Qed.

(** The function as one call of the bounding rules, on what the branch
    taken hands to them. *)
Lemma GetDesiredWorkers_by_branch :
  forall queueName queueMessages messagesSentPerMinute secondsToProcessOneJob
         targetMessagesPerWorker currentWorkers idleWorkers minWorkers
         maxWorkers maxDisruption,
    GetDesiredWorkers queueName queueMessages messagesSentPerMinute
      secondsToProcessOneJob targetMessagesPerWorker currentWorkers
      idleWorkers minWorkers maxWorkers maxDisruption
    = (maxDisruptableWorkers <-
         getMaxDisruptableWorkers maxDisruption currentWorkers ;;
       let b := branch queueMessages messagesSentPerMinute
                  secondsToProcessOneJob targetMessagesPerWorker
                  currentWorkers idleWorkers in
       let computedMin := getMinWorkers messagesSentPerMinute minWorkers
                            secondsToProcessOneJob in
       Ret (convertDesiredReplicasWithRules currentWorkers
              (branch_desired b
                 (rawDesired queueMessages targetMessagesPerWorker)
                 currentWorkers computedMin)
              computedMin maxWorkers
              (branch_disruption b currentWorkers maxDisruptableWorkers))).
Proof.
  intros. unfold GetDesiredWorkers, GetDesiredWorkers_run, branch, omap.
  destruct (getMaxDisruptableWorkers maxDisruption currentWorkers)
    as [maxDisruptableWorkers | msg | msg]; simpl; try reflexivity.
  destruct (currentWorkers =? 0); [reflexivity |].
  destruct (queueMessages >? 0).
  - destruct (isChangeTooSmall _ _ _); reflexivity.
  - destruct (ltb zero messagesSentPerMinute && ltb zero secondsToProcessOneJob);
      [reflexivity |].
    destruct (currentWorkers =? idleWorkers); reflexivity.
Qed.

(** *** Bounding *)

(** C1. Whenever [maxDisruption] can be read, [GetDesiredWorkers] returns,
    and what it returns lies between the minimum and the maximum when the
    minimum is below the maximum, and is the maximum otherwise; this holds
    for the [minWorkers] given and for the one [getMinWorkers] raised to
    the velocity floor, which is the one the bounding rules compare. *)
Theorem GetDesiredWorkers_bounding :
  forall queueName queueMessages messagesSentPerMinute secondsToProcessOneJob
         targetMessagesPerWorker currentWorkers idleWorkers minWorkers
         maxWorkers maxDisruption maxDisruptableWorkers,
    getMaxDisruptableWorkers maxDisruption currentWorkers
    = Ret maxDisruptableWorkers ->
    exists desired,
      GetDesiredWorkers queueName queueMessages messagesSentPerMinute
        secondsToProcessOneJob targetMessagesPerWorker currentWorkers
        idleWorkers minWorkers maxWorkers maxDisruption = Ret desired
      /\ (minWorkers < maxWorkers -> minWorkers <= desired <= maxWorkers)
      /\ (maxWorkers <= minWorkers -> desired = maxWorkers)
      /\ (getMinWorkers messagesSentPerMinute minWorkers secondsToProcessOneJob
           < maxWorkers ->
           getMinWorkers messagesSentPerMinute minWorkers secondsToProcessOneJob
           <= desired <= maxWorkers)
      /\ (maxWorkers
           <= getMinWorkers messagesSentPerMinute minWorkers secondsToProcessOneJob ->
           desired = maxWorkers).
Proof.
  intros * Hmd. rewrite GetDesiredWorkers_by_branch, Hmd. cbn [obind].
  eexists. split; [reflexivity |].
  pose proof (getMinWorkers_ge_minWorkers
                messagesSentPerMinute minWorkers secondsToProcessOneJob) as Hge.
  set (computedMin := getMinWorkers _ _ _) in *.
  set (d := branch_desired _ _ _ _). set (md := branch_disruption _ _ _).
  destruct (Z.lt_ge_cases computedMin maxWorkers) as [Hlt | Hle].
  - pose proof (convertDesiredReplicasWithRules_bounded
                  currentWorkers d computedMin maxWorkers md Hlt).
    repeat split; intros; lia.
  - rewrite (convertDesiredReplicasWithRules_pinned _ _ _ _ _ Hle).
    repeat split; intros; lia.
Qed.


(** *** The disruption cap *)


Lemma int32_of_float64_range :
  forall x, Int32.min_int <= int32_of_float64 x <= Int32.max_int.
Proof.
  intros x. unfold int32_of_float64.
  destruct (trunc x) as [z |]; [| apply Int32_wrap_bounds].
  destruct (Int32.in_range z) eqn:Hz; [| apply Int32_wrap_bounds].
  unfold Int32.in_range in Hz. apply andb_true_iff in Hz.
  destruct Hz as [H1 H2]. apply Z.leb_le in H1, H2. lia.
Qed.

Lemma getMinWorkers_range :
  forall messagesSentPerMinute minWorkers secondsToProcessOneJob,
    minWorkers <= Int32.max_int ->
    getMinWorkers messagesSentPerMinute minWorkers secondsToProcessOneJob
    <= Int32.max_int.
Proof.
  intros * Hmin. unfold getMinWorkers.
  destruct (eqb secondsToProcessOneJob zero); [assumption |].
  pose proof (int32_of_float64_range
                (Ceil (div (mul secondsToProcessOneJob messagesSentPerMinute)
                         (of_Z 60)))) as Hw.
  fold (workersBasedOnMessagesSent messagesSentPerMinute secondsToProcessOneJob)
    in Hw.
  destruct (_ >? minWorkers); lia.
Qed.

Lemma getMaxDisruptableWorkers_range :
  forall maxDisruption currentWorkers maxDisruptableWorkers,
    getMaxDisruptableWorkers maxDisruption currentWorkers
    = Ret maxDisruptableWorkers ->
    Int32.min_int <= maxDisruptableWorkers <= Int32.max_int.
Proof.
  intros * H. unfold getMaxDisruptableWorkers in H.
  destruct maxDisruption as [s |]; [| discriminate].
  destruct (intstr.GetValueFromIntOrPercent _ _ _) as [v |]; [| discriminate].
  injection H as <-. apply Int32_wrap_bounds.
Qed.

Lemma in_range_bounds :
  forall z, Int32.min_int <= z <= Int32.max_int -> Int32.in_range z = true.
Proof.
  intros z Hz. unfold Int32.in_range. apply andb_true_iff.
  split; apply Z.leb_le; lia.
Qed.



(** *** The stability band *)

(** With a backlog and workers running, a raw desired count within the
    tolerance of the current one takes the stable branch. *)
Lemma GetDesiredWorkers_stable :
  forall queueName queueMessages messagesSentPerMinute secondsToProcessOneJob
         targetMessagesPerWorker currentWorkers idleWorkers minWorkers
         maxWorkers maxDisruption maxDisruptableWorkers,
    0 < queueMessages ->
    0 < currentWorkers ->
    isChangeTooSmall (rawDesired queueMessages targetMessagesPerWorker)
      currentWorkers tolerance = true ->
    getMaxDisruptableWorkers maxDisruption currentWorkers
    = Ret maxDisruptableWorkers ->
    GetDesiredWorkers queueName queueMessages messagesSentPerMinute
      secondsToProcessOneJob targetMessagesPerWorker currentWorkers
      idleWorkers minWorkers maxWorkers maxDisruption
    = Ret (convertDesiredReplicasWithRules currentWorkers currentWorkers
             (getMinWorkers messagesSentPerMinute minWorkers
                secondsToProcessOneJob)
             maxWorkers maxDisruptableWorkers).
Proof.
  intros * Hq Hc Hsmall Hmd.
  assert (Hb : branch queueMessages messagesSentPerMinute
                 secondsToProcessOneJob targetMessagesPerWorker
                 currentWorkers idleWorkers = BacklogStable).
  { unfold branch.
    destruct (Z.eqb_spec currentWorkers 0); [lia |].
    destruct (Z.gtb_spec queueMessages 0); [| lia].
    rewrite Hsmall. reflexivity. }
  rewrite GetDesiredWorkers_by_branch, Hmd, Hb. reflexivity.
Qed.

(** On [int32] inputs with a target above zero, the stability test of the
    code is the test of the spec in exact arithmetic. *)
Lemma stability_test_exact :
  forall queueMessages targetMessagesPerWorker currentWorkers,
    0 <= queueMessages <= Int32.max_int ->
    0 < targetMessagesPerWorker <= Int32.max_int ->
    0 < currentWorkers <= Int32.max_int ->
    isChangeTooSmall (rawDesired queueMessages targetMessagesPerWorker)
      currentWorkers tolerance = true
    <-> 10 * Z.abs ((queueMessages + targetMessagesPerWorker - 1)
                    / targetMessagesPerWorker - currentWorkers)
        <= currentWorkers.
Proof.
  intros * Hq Ht Hc.
  rewrite isChangeTooSmall_exact, rawDesired_exact by assumption.
  unfold Int32.sub. rewrite Int32_wrap_in_range; [reflexivity |].
  apply in_range_bounds. unfold Int32.min_int, Int32.max_int in *.
  pose proof (ceiling_bounds queueMessages targetMessagesPerWorker ltac:(lia)).
  nia.
Qed.

(** C3. With a backlog, a current count above zero and a raw desired count
    within a tenth of the current one, the function returns the bounding
    rules applied to the current count; that is the current count itself
    when it lies between the computed minimum and the maximum and the
    disruption bound is not negative. "Within a tenth" is the [float64]
    test of the code, or, on [int32] inputs with a target above zero, the
    test in exact arithmetic, which is the same there. *)
Theorem stability_band_pins_current :
  forall queueName queueMessages messagesSentPerMinute secondsToProcessOneJob
         targetMessagesPerWorker currentWorkers idleWorkers minWorkers
         maxWorkers maxDisruption maxDisruptableWorkers,
    0 < queueMessages ->
    0 < currentWorkers ->
    isChangeTooSmall (rawDesired queueMessages targetMessagesPerWorker)
      currentWorkers tolerance = true
    \/ (queueMessages <= Int32.max_int
        /\ 0 < targetMessagesPerWorker <= Int32.max_int
        /\ currentWorkers <= Int32.max_int
        /\ 10 * Z.abs ((queueMessages + targetMessagesPerWorker - 1)
                       / targetMessagesPerWorker - currentWorkers)
           <= currentWorkers) ->
    getMaxDisruptableWorkers maxDisruption currentWorkers
    = Ret maxDisruptableWorkers ->
    let computedMin :=
      getMinWorkers messagesSentPerMinute minWorkers secondsToProcessOneJob in
    GetDesiredWorkers queueName queueMessages messagesSentPerMinute
      secondsToProcessOneJob targetMessagesPerWorker currentWorkers
      idleWorkers minWorkers maxWorkers maxDisruption
    = Ret (convertDesiredReplicasWithRules currentWorkers currentWorkers
             computedMin maxWorkers maxDisruptableWorkers)
    /\ (computedMin <= currentWorkers <= maxWorkers ->
         computedMin < maxWorkers ->
         0 <= maxDisruptableWorkers ->
         GetDesiredWorkers queueName queueMessages messagesSentPerMinute
           secondsToProcessOneJob targetMessagesPerWorker currentWorkers
           idleWorkers minWorkers maxWorkers maxDisruption
         = Ret currentWorkers).
Proof.
  intros * Hq Hc Hsmall Hmd computedMin.
  assert (Htest : isChangeTooSmall
                    (rawDesired queueMessages targetMessagesPerWorker)
                    currentWorkers tolerance = true).
  { destruct Hsmall as [H | (Hqm & Ht & Hcm & H)]; [exact H |].
    apply stability_test_exact; (assumption || lia). }
  rewrite (GetDesiredWorkers_stable _ _ _ _ _ _ _ _ _ _ _ Hq Hc Htest Hmd).
  fold computedMin. split; [reflexivity |].
  intros Hin Hlt Hnn. f_equal.
  unfold convertDesiredReplicasWithRules, Int32.sub.
  rewrite Z.sub_diag. change (Int32.wrap 0) with 0.
  destruct (Z.geb_spec computedMin maxWorkers); [lia |].
  destruct (Z.gtb_spec 0 maxDisruptableWorkers); [lia |].
  destruct (Z.gtb_spec currentWorkers maxWorkers); [lia |].
  destruct (Z.ltb_spec currentWorkers computedMin); [lia | reflexivity].
Qed.

(** *** The velocity floor *)

Lemma ltb_zero_not_eqb_zero :
  forall x : float64, ltb zero x = true -> eqb x zero = false.
Proof.
  intros x. unfold ltb, eqb, SFltb, SFeqb, zero.
  destruct x as [s | s | | s m e]; cbn; try discriminate;
    destruct s; cbn; congruence.
Qed.

(** The velocity floor as the code has it. Without a backlog, with a
    sending rate and a processing time above zero and workers running, the
    function returns at least [workersBasedOnMessagesSent], the rounded-up
    quotient after its conversion to [int32], brought into the interval
    from [minWorkers] to [maxWorkers]. *)
Theorem velocity_floor :
  forall queueName queueMessages messagesSentPerMinute secondsToProcessOneJob
         targetMessagesPerWorker currentWorkers idleWorkers minWorkers
         maxWorkers maxDisruption maxDisruptableWorkers,
    queueMessages = 0 ->
    ltb zero messagesSentPerMinute = true ->
    ltb zero secondsToProcessOneJob = true ->
    0 < currentWorkers ->
    getMaxDisruptableWorkers maxDisruption currentWorkers
    = Ret maxDisruptableWorkers ->
    exists desired,
      GetDesiredWorkers queueName queueMessages messagesSentPerMinute
        secondsToProcessOneJob targetMessagesPerWorker currentWorkers
        idleWorkers minWorkers maxWorkers maxDisruption = Ret desired
      /\ Z.min maxWorkers
           (Z.max minWorkers
              (workersBasedOnMessagesSent messagesSentPerMinute
                 secondsToProcessOneJob))
         <= desired.
Proof.
  intros * Hq Hm Hs Hc Hmd.
  assert (Hb : branch queueMessages messagesSentPerMinute
                 secondsToProcessOneJob targetMessagesPerWorker
                 currentWorkers idleWorkers = VelocityFloor).
  { unfold branch.
    destruct (Z.eqb_spec currentWorkers 0); [lia |].
    destruct (Z.gtb_spec queueMessages 0); [lia |].
    rewrite Hm, Hs. reflexivity. }
  rewrite GetDesiredWorkers_by_branch, Hmd, Hb. cbn [obind].
  cbn [branch_desired branch_disruption].
  eexists. split; [reflexivity |].
  rewrite <- (getMinWorkers_velocity _ _ _ (ltb_zero_not_eqb_zero _ Hs)).
  set (computedMin := getMinWorkers _ _ _).
  destruct (Z.lt_ge_cases computedMin maxWorkers) as [Hlt | Hle].
  - pose proof (convertDesiredReplicasWithRules_bounded currentWorkers
                  computedMin computedMin maxWorkers maxDisruptableWorkers Hlt).
    lia.
  - rewrite (convertDesiredReplicasWithRules_pinned _ _ _ _ _ Hle). lia.
Qed.

(** Where the rounded-up quotient is an [int32], the conversion keeps it,
    on every platform. *)
Lemma workersBasedOnMessagesSent_within_int32 :
  forall messagesSentPerMinute secondsToProcessOneJob ceiling,
    trunc (Ceil (div (mul secondsToProcessOneJob messagesSentPerMinute)
                   (of_Z 60))) = Some ceiling ->
    Int32.in_range ceiling = true ->
    workersBasedOnMessagesSent messagesSentPerMinute secondsToProcessOneJob
    = ceiling.
Proof.
  intros * Hceil Hrange. unfold workersBasedOnMessagesSent, int32_of_float64.
  rewrite Hceil, Hrange. reflexivity.
Qed.

(** The floor of the specification holds where the rounded-up quotient,
    computed on [float64] as the code computes it, is an [int32]: the
    function then returns at least that quotient brought into the interval
    from [minWorkers] to [maxWorkers], on every platform. *)
Lemma velocity_floor_within_int32 :
  forall queueName queueMessages messagesSentPerMinute secondsToProcessOneJob
         targetMessagesPerWorker currentWorkers idleWorkers minWorkers
         maxWorkers maxDisruption maxDisruptableWorkers ceiling,
    queueMessages = 0 ->
    ltb zero messagesSentPerMinute = true ->
    ltb zero secondsToProcessOneJob = true ->
    0 < currentWorkers ->
    getMaxDisruptableWorkers maxDisruption currentWorkers
    = Ret maxDisruptableWorkers ->
    trunc (Ceil (div (mul secondsToProcessOneJob messagesSentPerMinute)
                   (of_Z 60))) = Some ceiling ->
    Int32.in_range ceiling = true ->
    exists desired,
      GetDesiredWorkers queueName queueMessages messagesSentPerMinute
        secondsToProcessOneJob targetMessagesPerWorker currentWorkers
        idleWorkers minWorkers maxWorkers maxDisruption = Ret desired
      /\ Z.min maxWorkers (Z.max minWorkers ceiling) <= desired.
Proof.
  intros * Hq Hm Hs Hc Hmd Hceil Hrange.
  rewrite <- (workersBasedOnMessagesSent_within_int32 _ _ _ Hceil Hrange).
  apply (velocity_floor queueName queueMessages messagesSentPerMinute
           secondsToProcessOneJob targetMessagesPerWorker currentWorkers
           idleWorkers minWorkers maxWorkers maxDisruption
           maxDisruptableWorkers); assumption.
Qed.

(** *** The massive scale-down *)

Lemma workersBasedOnMessagesSent_no_traffic :
  forall messagesSentPerMinute secondsToProcessOneJob,
    is_nonneg_finite messagesSentPerMinute = true ->
    is_nonneg_finite secondsToProcessOneJob = true ->
    ltb zero messagesSentPerMinute && ltb zero secondsToProcessOneJob = false ->
    workersBasedOnMessagesSent messagesSentPerMinute secondsToProcessOneJob = 0.
Proof.
  intros x y Hx Hy Hno. unfold workersBasedOnMessagesSent.
  destruct x as [sx | sx | | [|] mx ex]; try discriminate;
    destruct y as [sy | sy | | [|] my ey]; try discriminate;
    try reflexivity;
    try (destruct sx; reflexivity);
    try (destruct sy; reflexivity);
    try (destruct sx, sy; reflexivity).
Qed.

(** C5. With workers running, no backlog, no traffic and every worker
    idle, the function hands 0 to the bounding rules with the current
    count in the place of the disruption bound, and returns 0 brought
    into the interval from the minimum to the maximum; the minimum is the
    given [minWorkers] when the processing time is zero, and when the
    rate, the time and [minWorkers] are not negative. *)
Theorem massive_scale_down :
  forall queueName queueMessages messagesSentPerMinute secondsToProcessOneJob
         targetMessagesPerWorker currentWorkers idleWorkers minWorkers
         maxWorkers maxDisruption maxDisruptableWorkers,
    0 < currentWorkers ->
    Int32.in_range currentWorkers = true ->
    queueMessages = 0 ->
    ltb zero messagesSentPerMinute && ltb zero secondsToProcessOneJob = false ->
    currentWorkers = idleWorkers ->
    getMaxDisruptableWorkers maxDisruption currentWorkers
    = Ret maxDisruptableWorkers ->
    let computedMin :=
      getMinWorkers messagesSentPerMinute minWorkers secondsToProcessOneJob in
    GetDesiredWorkers queueName queueMessages messagesSentPerMinute
      secondsToProcessOneJob targetMessagesPerWorker currentWorkers
      idleWorkers minWorkers maxWorkers maxDisruption
    = Ret (convertDesiredReplicasWithRules currentWorkers 0 computedMin
             maxWorkers currentWorkers)
    /\ convertDesiredReplicasWithRules currentWorkers 0 computedMin
         maxWorkers currentWorkers
       = Z.min maxWorkers (Z.max computedMin 0)
    /\ (eqb secondsToProcessOneJob zero = true -> computedMin = minWorkers)
    /\ (is_nonneg_finite messagesSentPerMinute = true ->
         is_nonneg_finite secondsToProcessOneJob = true ->
         0 <= minWorkers ->
         computedMin = minWorkers).
Proof.
  intros * Hc Hrange Hq Hno Hidle Hmd computedMin.
  assert (Hb : branch queueMessages messagesSentPerMinute
                 secondsToProcessOneJob targetMessagesPerWorker
                 currentWorkers idleWorkers = MassiveScaleDown).
  { unfold branch.
    destruct (Z.eqb_spec currentWorkers 0); [lia |].
    destruct (Z.gtb_spec queueMessages 0); [lia |].
    rewrite Hno.
    destruct (Z.eqb_spec currentWorkers idleWorkers); [reflexivity | lia]. }
  rewrite GetDesiredWorkers_by_branch, Hmd, Hb. cbn [obind].
  cbn [branch_desired branch_disruption]. fold computedMin.
  split; [reflexivity |]. split; [| split].
  - unfold convertDesiredReplicasWithRules, Int32.sub.
    rewrite Z.sub_0_r, (Int32_wrap_in_range _ Hrange).
    destruct (Z.geb_spec computedMin maxWorkers); [lia |].
    destruct (Z.gtb_spec currentWorkers currentWorkers); [lia |].
    destruct (Z.gtb_spec 0 maxWorkers); [lia |].
    destruct (Z.ltb_spec 0 computedMin); lia.
  - intros Hz. unfold computedMin, getMinWorkers. rewrite Hz. reflexivity.
  - intros Hm Hs Hmin. unfold computedMin, getMinWorkers.
    destruct (eqb secondsToProcessOneJob zero); [reflexivity |].
    rewrite (workersBasedOnMessagesSent_no_traffic _ _ Hm Hs Hno).
    destruct (Z.gtb_spec 0 minWorkers); [lia | reflexivity].
Qed.

(** *** The stability test is reached with workers running *)

(** C10. Every call of [isChangeTooSmall] that [GetDesiredWorkers] makes
    has the current count as its divisor, and that count is not zero: the
    cold-start branch has returned before. The divisor [float64(current)]
    of the test is then that count exactly, a finite value other than
    zero. *)
Theorem isChangeTooSmall_divisor_nonzero :
  forall queueName queueMessages messagesSentPerMinute secondsToProcessOneJob
         targetMessagesPerWorker currentWorkers idleWorkers minWorkers
         maxWorkers maxDisruption desired calls,
    GetDesiredWorkers_run queueName queueMessages messagesSentPerMinute
      secondsToProcessOneJob targetMessagesPerWorker currentWorkers
      idleWorkers minWorkers maxWorkers maxDisruption = Ret (desired, calls) ->
    forall call,
      In call calls ->
      st_current call = currentWorkers
      /\ st_current call <> 0
      /\ (Int32.in_range currentWorkers = true ->
          trunc (of_Z (st_current call)) = Some currentWorkers).
Proof.
  intros * Hrun call Hin.
  assert (Hfloat : Int32.in_range currentWorkers = true ->
                   trunc (of_Z currentWorkers) = Some currentWorkers).
  { intros Hr. apply of_Z_exact.
    unfold Int32.in_range, Int32.min_int, Int32.max_int in Hr.
    apply andb_true_iff in Hr. destruct Hr as [H1 H2].
    apply Z.leb_le in H1, H2.
    change (2 ^ 53) with 9007199254740992. lia. }
  unfold GetDesiredWorkers_run in Hrun.
  destruct (getMaxDisruptableWorkers maxDisruption currentWorkers)
    as [maxDisruptableWorkers | msg | msg]; cbn [obind] in Hrun;
    try discriminate.
  destruct (Z.eqb_spec currentWorkers 0) as [Hz | Hnz].
  - injection Hrun as _ Hcalls. subst calls. destruct Hin.
  - destruct (queueMessages >? 0).
    + destruct (isChangeTooSmall _ _ _);
        injection Hrun as _ Hcalls; subst calls;
        destruct Hin as [Hcall | []]; subst call; cbn; auto.
    + destruct (ltb zero messagesSentPerMinute && ltb zero secondsToProcessOneJob);
        [| destruct (currentWorkers =? idleWorkers)];
        injection Hrun as _ Hcalls; subst calls; destruct Hin.
Qed.

(** *** A scenario of the test suite *)

(** The literals of the source are the nearest [float64] values. *)
Lemma float64_literals :
  tolerance = div (of_Z 1) (of_Z 10)
  /\ S754_finite false 5404319552844595 (-54) = div (of_Z 3) (of_Z 10).
Proof. split; reflexivity. Qed.

(** The other test of the suite,
    [TestScaleUpWhenCalculatedMinIsGreaterThanMax]: a sending rate that asks
    for 357 workers gives the maximum of 20. *)
Lemma scale_up_when_calculated_min_is_greater_than_max :
  workersBasedOnMessagesSent (div (of_Z 21366) (of_Z 10)) (of_Z 10) = 357
  /\ GetDesiredWorkers "otpsms" 1 (div (of_Z 21366) (of_Z 10)) (of_Z 10)
       2500 10 0 2 20 (Some "0%"%string) = Ret 20.
Proof. split; vm_compute; reflexivity. Qed.

(** C6. [TestScaleDownWhenQueueMessagesLessThanTarget]: 10 messages, 10
    sent per minute, 0.3 seconds per job, a target of 200, 20 workers of
    which none is idle, between 0 and 20 workers allowed and a disruption
    of 10% give 18 workers, on every platform. *)
Theorem scale_down_when_queue_messages_less_than_target :
  GetDesiredWorkers "otpsms" 10 (of_Z 10)
    (S754_finite false 5404319552844595 (-54))
    200 20 0 0 20 (Some "10%"%string) = Ret 18.
Proof. vm_compute. reflexivity. Qed.
End DecisionProperties.

Lemma GetDesiredWorkers_bounding_witness :
  exists desired,
    @GetDesiredWorkers amd64 "otpsms" 1 (div (of_Z 21366) (of_Z 10)) (of_Z 10)
      2500 10 0 2 20 (Some "0%"%string) = Ret desired
    /\ (2 < 20 -> 2 <= desired <= 20)
    /\ (20 <= 2 -> desired = 20)
    /\ (@getMinWorkers amd64 (div (of_Z 21366) (of_Z 10)) 2 (of_Z 10) < 20 ->
         @getMinWorkers amd64 (div (of_Z 21366) (of_Z 10)) 2 (of_Z 10)
         <= desired <= 20)
    /\ (20 <= @getMinWorkers amd64 (div (of_Z 21366) (of_Z 10)) 2 (of_Z 10) ->
         desired = 20).
Proof.
  apply (@GetDesiredWorkers_bounding amd64 "otpsms" 1
           (div (of_Z 21366) (of_Z 10)) (of_Z 10) 2500 10 0 2 20
           (Some "0%"%string) 0).
  reflexivity.
Defined.



Lemma stability_band_pins_current_witness :
  @GetDesiredWorkers amd64 "q" 4100 zero zero 200 20 0 1 30
    (Some "100%"%string) = Ret 20.
Proof.
  refine (proj2 (@stability_band_pins_current amd64 "q" 4100 zero zero 200 20 0
                   1 30 (Some "100%"%string) 20 _ _ _ _) _ _ _);
    try reflexivity.
  - right. vm_compute. repeat split; discriminate.
  - vm_compute. split; discriminate.
  - discriminate.
Defined.

(** C4. The velocity floor fails where the rounded-up quotient is no
    [int32]. With 1500000 messages sent a minute and 86400 seconds a job
    the quotient is 2160000000; with no backlog, 20 workers, between 0 and
    30 workers allowed and a disruption of 10%, the floor of the claim is
    30. On a platform whose conversion gives the least [int32] the
    velocity is lost and the function returns 18, two workers less than
    are running; on a platform whose conversion saturates it returns
    30. *)
Theorem velocity_floor_lost_on_overflow :
  trunc (Ceil (div (mul (of_Z 86400) (of_Z 1500000)) (of_Z 60)))
  = Some 2160000000
  /\ Z.min 30 (Z.max 0 2160000000) = 30
  /\ @workersBasedOnMessagesSent amd64 (of_Z 1500000) (of_Z 86400)
     = Int32.min_int
  /\ @GetDesiredWorkers amd64 "otpsms" 0 (of_Z 1500000) (of_Z 86400) 200 20 0
       0 30 (Some "10%"%string) = Ret 18
  /\ @GetDesiredWorkers arm64 "otpsms" 0 (of_Z 1500000) (of_Z 86400) 200 20 0
       0 30 (Some "10%"%string) = Ret 30.
Proof. vm_compute. repeat split; reflexivity. Qed.

Lemma velocity_floor_witness :
  exists desired,
    @GetDesiredWorkers amd64 "q" 0 (of_Z 600) (of_Z 1) 200 20 0 1 30
      (Some "10%"%string) = Ret desired
    /\ Z.min 30 (Z.max 1 (@workersBasedOnMessagesSent amd64 (of_Z 600) (of_Z 1)))
       <= desired.
Proof.
  apply (@velocity_floor amd64 "q" 0 (of_Z 600) (of_Z 1) 200 20 0 1 30
           (Some "10%"%string) 2); reflexivity.
Defined.

Lemma massive_scale_down_witness :
  @GetDesiredWorkers amd64 "q" 0 zero zero 100 5 5 0 10 (Some "10%"%string)
  = Ret (convertDesiredReplicasWithRules 5 0
           (@getMinWorkers amd64 zero 0 zero) 10 5).
Proof.
  refine (proj1 (@massive_scale_down amd64 "q" 0 zero zero 100 5 5 0 10
                   (Some "10%"%string) 1 _ _ _ _ _ _)); reflexivity.
Defined.

Lemma isChangeTooSmall_divisor_nonzero_witness :
  st_current {| st_desired := 1; st_current := 20; st_tolerance := tolerance |} = 20
  /\ st_current {| st_desired := 1; st_current := 20; st_tolerance := tolerance |}
     <> 0
  /\ (Int32.in_range 20 = true ->
      trunc (of_Z (st_current {| st_desired := 1; st_current := 20;
                                 st_tolerance := tolerance |})) = Some 20).
Proof.
  apply (@isChangeTooSmall_divisor_nonzero amd64 "otpsms" 10 (of_Z 10)
           (S754_finite false 5404319552844595 (-54)) 200 20 0 0 20
           (Some "10%"%string) 18
           [{| st_desired := 1; st_current := 20; st_tolerance := tolerance |}]).
  - reflexivity.
  - left. reflexivity.
Defined.

(** * Properties of the reconciler *)

(** *** The status writer *)

(** C8. The status is written exactly when one of the five tracked fields
    differs from the stored one: if all are equal nothing is done; if not,
    the object sent has the five values as its status and the namespace,
    the name and the spec of the stored object, and nothing else is done
    but to log the error of a failed write. *)
Theorem status_write_suppressed_iff_unchanged :
  forall name namespace UpdateStatus desiredWorkers workerPodAutoScaler
         currentWorkers availableWorkers queueMessages lastScaleTime,
    let stored := Status workerPodAutoScaler in
    let unchanged :=
      CurrentReplicas stored = currentWorkers
      /\ AvailableReplicas stored = availableWorkers
      /\ DesiredReplicas stored = desiredWorkers
      /\ CurrentMessages stored = queueMessages
      /\ LastScaleTime stored = lastScaleTime in
    let sent :=
      with_status workerPodAutoScaler currentWorkers availableWorkers
        desiredWorkers queueMessages lastScaleTime in
    let run :=
      updateWorkerPodAutoScalerStatus name namespace UpdateStatus
        desiredWorkers workerPodAutoScaler currentWorkers availableWorkers
        queueMessages lastScaleTime in
    (unchanged -> run = ([], Ret tt))
    /\ (~ unchanged ->
         snd run = Ret tt
         /\ fst run
            = EUpdateStatus (Namespace workerPodAutoScaler) sent
              :: match UpdateStatus (Namespace workerPodAutoScaler) sent with
                 | Some err =>
                     [EErrorLog ("Error updating wpa status, err: " ++ Error err)]
                 | None => []
                 end
         /\ Namespace sent = Namespace workerPodAutoScaler
         /\ Name sent = Name workerPodAutoScaler
         /\ Spec sent = Spec workerPodAutoScaler
         /\ Status sent
            = {| CurrentMessages := queueMessages;
                 CurrentReplicas := currentWorkers;
                 AvailableReplicas := availableWorkers;
                 DesiredReplicas := desiredWorkers;
                 LastScaleTime := lastScaleTime |})
    /\ (unchanged <-> sent = workerPodAutoScaler).
Proof.
  intros. unfold run, updateWorkerPodAutoScalerStatus. fold stored. fold sent.
  assert (Htime : Time_Equal (LastScaleTime stored) lastScaleTime = true
                  <-> LastScaleTime stored = lastScaleTime).
  { destruct (LastScaleTime stored) as [a |], lastScaleTime as [b |]; cbn;
      split; intros H; try congruence.
    - apply Z.eqb_eq in H. congruence.
    - injection H as ->. apply Z.eqb_refl. }
  assert (Htest :
    (CurrentReplicas stored =? currentWorkers)
    && (AvailableReplicas stored =? availableWorkers)
    && (DesiredReplicas stored =? desiredWorkers)
    && (CurrentMessages stored =? queueMessages)
    && Time_Equal (LastScaleTime stored) lastScaleTime = true <-> unchanged).
  { unfold unchanged. rewrite !andb_true_iff, !Z.eqb_eq, Htime. tauto. }
  split; [| split].
  - intros Hu. apply Htest in Hu. rewrite Hu. reflexivity.
  - intros Hn.
    destruct ((CurrentReplicas stored =? currentWorkers)
              && (AvailableReplicas stored =? availableWorkers)
              && (DesiredReplicas stored =? desiredWorkers)
              && (CurrentMessages stored =? queueMessages)
              && Time_Equal (LastScaleTime stored) lastScaleTime) eqn:Ht.
    + exfalso. apply Hn, Htest. reflexivity.
    + destruct (UpdateStatus (Namespace workerPodAutoScaler) sent);
        cbn; repeat split; reflexivity.
  - unfold unchanged, sent, with_status, stored.
    destruct workerPodAutoScaler as [ns n sp [cm cr ar dr lt]]; cbn.
    split.
    + intros (-> & -> & -> & -> & ->). reflexivity.
    + intros H. injection H as -> -> -> -> ->. repeat split.
Qed.

Section ReconcilerProperties.
Context {P : Platform} {X : Externals}.

(** A tick that ends without an error forgets its item. *)
Lemma processNextWorkItem_forgets :
  forall c event trace,
    syncHandler c event = (trace, Ret None) ->
    processNextWorkItem c (ItemEvent event) false
    = (trace ++ [EForget (ItemEvent event); EDone (ItemEvent event)], Ret true).
Proof.
  intros c event trace H. unfold processNextWorkItem.
  rewrite H. cbn. rewrite app_nil_r, <- app_assoc. reflexivity.
Qed.

Ltac trace_cases H :=
  repeat match type of H with
         | In _ (_ ++ _) => apply in_app_or in H; destruct H as [H | H]
         | In _ (_ :: _) => destruct H as [H | H]
         | In _ [] => destruct H
         end.

(** With an unsynced record for the policy, the second part of a tick
    stops at its reading of the registry. *)
Lemma syncHandler_scale_unsynced :
  forall c event namespace name workerPodAutoScaler currentWorkers
         availableWorkers queueName messagesSentPerMinute idleWorkers
         trace result,
    Queues_GetQueueInfo (Queues c) namespace name
    = (queueName, UnsyncedQueueMessageCount, messagesSentPerMinute,
       idleWorkers) ->
    syncHandler_scale c event namespace name workerPodAutoScaler
      currentWorkers availableWorkers = (trace, result) ->
    (forall e, In e trace -> is_scaling_effect e = false)
    /\ (In (EQueuesGetQueueInfo namespace name) trace -> result = Ret None).
Proof.
  intros * Hinfo Hrun. unfold syncHandler_scale in Hrun.
  rewrite Hinfo, Z.eqb_refl in Hrun.
  destruct (String.eqb (event_name event) WokerPodAutoScalerEventAdd
            || String.eqb (event_name event) WokerPodAutoScalerEventUpdate);
    [| destruct (String.eqb (event_name event) WokerPodAutoScalerEventDelete)];
    cbn in Hrun.
  1: destruct (Queues_Add _ _ _ _ _ _ _) as [e |]; cbn in Hrun.
  3: destruct (Queues_Delete _ _ _) as [e |]; cbn in Hrun.
  all: try (destruct (String.eqb queueName ""); cbn in Hrun).
  all: injection Hrun as <- <-.
  all: split; [intros e0 He; trace_cases He; subst; reflexivity |].
  all: intros He; trace_cases He; try discriminate; reflexivity.
Qed.

(** C7. When the registry answers the policy's key with the unsynced
    count, a tick performs no scaling effect: no desired count, no gauge,
    no workload update, no status write. A tick that got as far as asking
    the registry then returns no error, and its item is forgotten on the
    work queue and not put back with a back-off. *)
Theorem unsynced_tick_is_skipped :
  forall c event namespace name queueName messagesSentPerMinute idleWorkers
         trace result,
    SplitMetaNamespaceKey (event_key event) = Some (namespace, name) ->
    Queues_GetQueueInfo (Queues c) namespace name
    = (queueName, UnsyncedQueueMessageCount, messagesSentPerMinute,
       idleWorkers) ->
    syncHandler c event = (trace, result) ->
    (forall e, In e trace -> is_scaling_effect e = false)
    /\ (In (EQueuesGetQueueInfo namespace name) trace ->
         result = Ret None
         /\ processNextWorkItem c (ItemEvent event) false
            = (trace ++ [EForget (ItemEvent event); EDone (ItemEvent event)],
               Ret true)
         /\ forall e,
              In e (fst (processNextWorkItem c (ItemEvent event) false)) ->
              is_scaling_effect e = false).
Proof.
  intros * Hkey Hinfo Hrun.
  assert (Hmain :
    (forall e, In e trace -> is_scaling_effect e = false)
    /\ (In (EQueuesGetQueueInfo namespace name) trace -> result = Ret None)).
  { unfold syncHandler in Hrun. rewrite Hkey in Hrun.
    destruct (workerPodAutoScalersLister c namespace name) as [w | err].
    2: { destruct (IsNotFound err); cbn in Hrun; injection Hrun as <- <-;
         (split; [intros e0 He; trace_cases He; subst; reflexivity |]);
         intros He; trace_cases He; discriminate. }
    destruct (negb (String.eqb (DeploymentName (Spec w)) "")).
    - destruct (deploymentLister c (Namespace w) (DeploymentName (Spec w)))
        as [d | err].
      + destruct (Replicas d) as [r |]; cbn in Hrun.
        * destruct (syncHandler_scale c event namespace name w r
                      (WorkloadAvailableReplicas d)) as [t' r'] eqn:Hs.
          injection Hrun as <- <-.
          apply (syncHandler_scale_unsynced _ _ _ _ _ _ _ _ _ _ _ _ Hinfo Hs).
        * injection Hrun as <- <-. split; intros; contradiction.
      + destruct (IsNotFound err); cbn in Hrun; injection Hrun as <- <-;
          split; intros; contradiction.
    - destruct (negb (String.eqb (ReplicaSetName (Spec w)) "")).
      + destruct (replicaSetLister c (Namespace w) (ReplicaSetName (Spec w)))
          as [d | err].
        * destruct (Replicas d) as [r |]; cbn in Hrun.
          -- destruct (syncHandler_scale c event namespace name w r
                         (WorkloadAvailableReplicas d)) as [t' r'] eqn:Hs.
             injection Hrun as <- <-.
             apply (syncHandler_scale_unsynced _ _ _ _ _ _ _ _ _ _ _ _ Hinfo Hs).
          -- injection Hrun as <- <-. split; intros; contradiction.
        * destruct (IsNotFound err); cbn in Hrun; injection Hrun as <- <-;
            split; intros; contradiction.
      + cbn in Hrun. injection Hrun as <- <-.
        split; [intros e0 He; trace_cases He; subst; reflexivity |].
        intros He; trace_cases He; discriminate. }
  destruct Hmain as [Hquiet Hnil]. split; [exact Hquiet |].
  intros Hin. specialize (Hnil Hin). subst result.
  pose proof (processNextWorkItem_forgets c event trace Hrun) as Hp.
  split; [reflexivity |]. split; [exact Hp |].
  rewrite Hp. cbn [fst]. intros e He. trace_cases He; subst; auto.
Qed.

(** C9. A policy that names neither a deployment nor a replica-set makes
    the tick report the error and return none: the item is forgotten on
    the work queue, not put back with a back-off. *)
Theorem missing_workload_reference_is_forgotten :
  forall c event namespace name workerPodAutoScaler,
    SplitMetaNamespaceKey (event_key event) = Some (namespace, name) ->
    workerPodAutoScalersLister c namespace name = Found workerPodAutoScaler ->
    DeploymentName (Spec workerPodAutoScaler) = ""%string ->
    ReplicaSetName (Spec workerPodAutoScaler) = ""%string ->
    let report :=
      EHandleError (event_key event
                    ++ ": deployment or replicaset name must be specified") in
    syncHandler c event = ([report], Ret None)
    /\ processNextWorkItem c (ItemEvent event) false
       = ([report; EForget (ItemEvent event); EDone (ItemEvent event)],
          Ret true)
    /\ ~ In (EAddRateLimited event)
           (fst (processNextWorkItem c (ItemEvent event) false)).
Proof.
  intros * Hkey Hget Hd Hr report.
  assert (Hsync : syncHandler c event = ([report], Ret None)).
  { unfold syncHandler. rewrite Hkey, Hget, Hd, Hr. reflexivity. }
  split; [exact Hsync |].
  rewrite (processNextWorkItem_forgets c event _ Hsync). cbn.
  split; [reflexivity |].
  intros [H | [H | [H | []]]]; discriminate.
Qed.
End ReconcilerProperties.

Lemma status_write_suppressed_iff_unchanged_witness :
  updateWorkerPodAutoScalerStatus "otpsms" "default" (fun _ _ => None) 18
    Example.policy 20 20 10 (Some 1000) = ([], Ret tt).
Proof.
  refine (proj1 (status_write_suppressed_iff_unchanged "otpsms" "default"
                   (fun _ _ => None) 18 Example.policy 20 20 10 (Some 1000)) _).
  repeat split.
Defined.

Lemma unsynced_tick_is_skipped_witness :
  @processNextWorkItem amd64 Example.externals
    (Example.controller Example.policy) (ItemEvent Example.add_event) false
  = ([EQueuesAdd "default" "otpsms" "https://sqs.example/otpsms" "sqs" 20 zero;
      EQueuesGetQueueInfo "default" "otpsms";
      EWarning "otpsms q not initialized, waiting for init to complete"]
     ++ [EForget (ItemEvent Example.add_event);
         EDone (ItemEvent Example.add_event)],
     Ret true).
Proof.
  refine (proj1 (proj2 (proj2 (@unsynced_tick_is_skipped amd64 Example.externals
                   (Example.controller Example.policy) Example.add_event
                   "default" "otpsms" "otpsms" zero 0 _ (Ret None) _ _ _) _))).
  - reflexivity.
  - reflexivity.
  - reflexivity.
  - right. left. reflexivity.
Defined.

Lemma missing_workload_reference_is_forgotten_witness :
  @syncHandler amd64 Example.externals
    (Example.controller Example.policy_without_workload) Example.add_event
  = ([EHandleError
        "default/otpsms: deployment or replicaset name must be specified"],
     Ret None).
Proof.
  refine (proj1 (@missing_workload_reference_is_forgotten amd64 Example.externals
                   (Example.controller Example.policy_without_workload)
                   Example.add_event "default" "otpsms"
                   Example.policy_without_workload _ _ _ _));
    reflexivity.
Defined.

(** * More on the decision function *)

(** ** The decision in integers *)

Section IntegerForm.
Context {P : Platform}.

(** The bounding rules as a minimum and maxima, where the two
    subtractions stay within [int32]. *)
Lemma convertDesiredReplicasWithRules_closed_form :
  forall current desired min max maxDisruptable,
    Int32.in_range (current - desired) = true ->
    Int32.in_range (current - maxDisruptable) = true ->
    convertDesiredReplicasWithRules current desired min max maxDisruptable
    = if min >=? max then max
      else Z.min max (Z.max min (Z.max desired (current - maxDisruptable))).
Proof.
  intros * Hd Hm. unfold convertDesiredReplicasWithRules, Int32.sub.
  rewrite (Int32_wrap_in_range _ Hd), (Int32_wrap_in_range _ Hm).
  destruct (Z.geb_spec min max); [reflexivity |].
  destruct (Z.gtb_spec (current - desired) maxDisruptable).
  - destruct (Z.gtb_spec (current - maxDisruptable) max); [lia |].
    destruct (Z.ltb_spec (current - maxDisruptable) min); lia.
  - destruct (Z.gtb_spec desired max); [lia |].
    destruct (Z.ltb_spec desired min); lia.
Qed.

(** The quotient of the backlog by the target is an [int32] that is not
    negative. *)
Lemma rawDesired_bounds :
  forall queueMessages targetMessagesPerWorker,
    0 <= queueMessages <= Int32.max_int ->
    0 < targetMessagesPerWorker <= Int32.max_int ->
    0 <= (queueMessages + targetMessagesPerWorker - 1) / targetMessagesPerWorker
      <= queueMessages.
Proof.
  intros a t Ha Ht.
  pose proof (ceiling_bounds a t ltac:(lia)). nia.
Qed.

(** [GetDesiredWorkers] in integer arithmetic, branch by branch. *)
Lemma GetDesiredWorkers_integers :
  forall queueName queueMessages messagesSentPerMinute secondsToProcessOneJob
         targetMessagesPerWorker currentWorkers idleWorkers minWorkers
         maxWorkers maxDisruption maxDisruptableWorkers,
    0 <= queueMessages <= Int32.max_int ->
    0 < targetMessagesPerWorker <= Int32.max_int ->
    0 <= currentWorkers <= Int32.max_int ->
    0 <= minWorkers <= Int32.max_int ->
    getMaxDisruptableWorkers maxDisruption currentWorkers
    = Ret maxDisruptableWorkers ->
    0 <= maxDisruptableWorkers ->
    GetDesiredWorkers queueName queueMessages messagesSentPerMinute
      secondsToProcessOneJob targetMessagesPerWorker currentWorkers
      idleWorkers minWorkers maxWorkers maxDisruption
    = Ret (desired_in_integers queueMessages targetMessagesPerWorker
             currentWorkers idleWorkers
             (getMinWorkers messagesSentPerMinute minWorkers
                secondsToProcessOneJob)
             maxWorkers maxDisruptableWorkers
             (ltb zero messagesSentPerMinute && ltb zero secondsToProcessOneJob)).
Proof.
  intros * Hq Ht Hc Hmin Hmd Hnn.
  pose proof (getMaxDisruptableWorkers_range _ _ _ Hmd) as Hmdr.
  pose proof (getMinWorkers_ge_minWorkers messagesSentPerMinute minWorkers
                secondsToProcessOneJob) as Hge.
  pose proof (getMinWorkers_range messagesSentPerMinute minWorkers
                secondsToProcessOneJob ltac:(lia)) as Hle.
  pose proof (rawDesired_bounds _ _ Hq Ht) as Hraw.
  rewrite GetDesiredWorkers_by_branch, Hmd. cbn [obind]. f_equal.
  unfold branch, desired_in_integers.
  set (computedMin := getMinWorkers _ _ _) in *.
  rewrite (rawDesired_exact _ _ Hq Ht).
  set (raw := (queueMessages + targetMessagesPerWorker - 1)
              / targetMessagesPerWorker) in *.
  unfold Int32.min_int, Int32.max_int in *.
  assert (Hin : forall z, -2147483648 <= z <= 2147483647 ->
                          Int32.in_range z = true).
  { intros z Hz. apply in_range_bounds. unfold Int32.min_int, Int32.max_int. lia. }
  destruct (Z.eqb_spec currentWorkers 0) as [Hz | Hnz].
  - cbn [branch_desired branch_disruption].
    apply convertDesiredReplicasWithRules_closed_form; apply Hin; lia.
  - destruct (Z.gtb_spec queueMessages 0) as [Hpos | Hnone].
    + assert (Hstab : isChangeTooSmall raw currentWorkers tolerance
                      = (10 * Z.abs (raw - currentWorkers) <=? currentWorkers)).
      { apply eq_true_iff_eq.
        rewrite isChangeTooSmall_exact by (unfold Int32.max_int; lia).
        unfold Int32.sub. rewrite Int32_wrap_in_range by (apply Hin; lia).
        rewrite Z.leb_le. reflexivity. }
      rewrite Hstab.
      destruct (10 * Z.abs (raw - currentWorkers) <=? currentWorkers);
        cbn [branch_desired branch_disruption];
        apply convertDesiredReplicasWithRules_closed_form; apply Hin; lia.
    + destruct (ltb zero messagesSentPerMinute && ltb zero secondsToProcessOneJob).
      * cbn [branch_desired branch_disruption].
        apply convertDesiredReplicasWithRules_closed_form; apply Hin; lia.
      * destruct (Z.eqb_spec currentWorkers idleWorkers);
          cbn [branch_desired branch_disruption];
          apply convertDesiredReplicasWithRules_closed_form; apply Hin; lia.
Qed.

(** X1. On [int32] inputs that are not negative, with a target above
    zero and a disruption bound that is read and not negative,
    [GetDesiredWorkers] returns the count of [desired_in_integers]: the
    maximum when the computed minimum is not below it, else the larger
    of the branch's count and of the current count less the bound, kept
    between the computed minimum and the maximum; the quotient and the
    stability test are those of exact arithmetic, and no subtraction
    wraps around. *)
Theorem GetDesiredWorkers_in_integers :
  forall queueName queueMessages messagesSentPerMinute secondsToProcessOneJob
         targetMessagesPerWorker currentWorkers idleWorkers minWorkers
         maxWorkers maxDisruption maxDisruptableWorkers,
    0 <= queueMessages <= Int32.max_int ->
    0 < targetMessagesPerWorker <= Int32.max_int ->
    0 <= currentWorkers <= Int32.max_int ->
    0 <= minWorkers <= Int32.max_int ->
    getMaxDisruptableWorkers maxDisruption currentWorkers
    = Ret maxDisruptableWorkers ->
    0 <= maxDisruptableWorkers ->
    GetDesiredWorkers queueName queueMessages messagesSentPerMinute
      secondsToProcessOneJob targetMessagesPerWorker currentWorkers
      idleWorkers minWorkers maxWorkers maxDisruption
    = Ret (desired_in_integers queueMessages targetMessagesPerWorker
             currentWorkers idleWorkers
             (getMinWorkers messagesSentPerMinute minWorkers
                secondsToProcessOneJob)
             maxWorkers maxDisruptableWorkers
             (ltb zero messagesSentPerMinute && ltb zero secondsToProcessOneJob)).
Proof. intros. apply GetDesiredWorkers_integers; assumption. Qed.

End IntegerForm.

(** ** Monotonicity, and the velocity switch *)

(** The count in integers grows with the backlog. *)
Lemma desired_in_integers_monotone :
  forall q1 q2 t current idle computedMin max maxDisruptable traffic,
    0 <= q1 <= q2 -> 0 < t -> 0 <= current -> 0 <= computedMin ->
    0 <= maxDisruptable ->
    desired_in_integers q1 t current idle computedMin max maxDisruptable traffic
    <= desired_in_integers q2 t current idle computedMin max maxDisruptable traffic.
Proof.
  intros * Hq Ht Hc Hm Hd. unfold desired_in_integers.
  destruct (Z.geb_spec computedMin max); [lia |].
  assert (Hraw : (q1 + t - 1) / t <= (q2 + t - 1) / t)
    by (apply Z.div_le_mono; lia).
  assert (Hraw0 : 0 <= (q1 + t - 1) / t) by (apply Z.div_pos; lia).
  set (r1 := (q1 + t - 1) / t) in *. set (r2 := (q2 + t - 1) / t) in *.
  destruct (Z.eqb_spec current 0); [lia |].
  destruct (Z.gtb_spec q1 0), (Z.gtb_spec q2 0); try lia;
    repeat match goal with
           | |- context [?a <=? ?b] => destruct (Z.leb_spec a b)
           | |- context [?a =? ?b] => destruct (Z.eqb_spec a b)
           | |- context [if traffic then _ else _] => destruct traffic
           end; lia.
Qed.

Section Monotonicity.
Context {P : Platform}.

(** X2. [GetDesiredWorkers] is monotone in the backlog: with everything
    else the same, more messages in the queue never give a smaller
    desired count. *)
Theorem GetDesiredWorkers_monotone_in_backlog :
  forall queueName messages1 messages2 messagesSentPerMinute
         secondsToProcessOneJob targetMessagesPerWorker currentWorkers
         idleWorkers minWorkers maxWorkers maxDisruption
         maxDisruptableWorkers,
    0 <= messages1 <= messages2 ->
    messages2 <= Int32.max_int ->
    0 < targetMessagesPerWorker <= Int32.max_int ->
    0 <= currentWorkers <= Int32.max_int ->
    0 <= minWorkers <= Int32.max_int ->
    getMaxDisruptableWorkers maxDisruption currentWorkers
    = Ret maxDisruptableWorkers ->
    0 <= maxDisruptableWorkers ->
    exists desired1 desired2,
      GetDesiredWorkers queueName messages1 messagesSentPerMinute
        secondsToProcessOneJob targetMessagesPerWorker currentWorkers
        idleWorkers minWorkers maxWorkers maxDisruption = Ret desired1
      /\ GetDesiredWorkers queueName messages2 messagesSentPerMinute
           secondsToProcessOneJob targetMessagesPerWorker currentWorkers
           idleWorkers minWorkers maxWorkers maxDisruption = Ret desired2
      /\ desired1 <= desired2.
Proof.
  intros * Hm Hm2 Ht Hc Hmin Hmd Hnn.
  rewrite (GetDesiredWorkers_integers queueName messages1 _ _ _ _ _ _ _ _
             maxDisruptableWorkers) by (assumption || lia).
  rewrite (GetDesiredWorkers_integers queueName messages2 _ _ _ _ _ _ _ _
             maxDisruptableWorkers) by (assumption || lia).
  eexists. eexists. split; [reflexivity |]. split; [reflexivity |].
  pose proof (getMinWorkers_ge_minWorkers messagesSentPerMinute minWorkers
                secondsToProcessOneJob).
  apply desired_in_integers_monotone; lia.
Qed.

(** A number equal to zero is not above zero. *)
Lemma eqb_zero_not_ltb :
  forall x : float64, eqb x zero = true -> ltb zero x = false.
Proof.
  intros x. unfold ltb, eqb, SFltb, SFeqb, zero.
  destruct x as [s | s | | s m e]; cbn; try discriminate; try reflexivity;
    destruct s; cbn; congruence.
Qed.

(** X3. When [secondsToProcessOneJob] is zero the sending rate plays no
    part: [GetDesiredWorkers] returns the same for any two values of
    [messagesSentPerMinute]. *)
Theorem velocity_disabled_without_processing_time :
  forall queueName queueMessages rate1 rate2 secondsToProcessOneJob
         targetMessagesPerWorker currentWorkers idleWorkers minWorkers
         maxWorkers maxDisruption,
    eqb secondsToProcessOneJob zero = true ->
    GetDesiredWorkers queueName queueMessages rate1 secondsToProcessOneJob
      targetMessagesPerWorker currentWorkers idleWorkers minWorkers maxWorkers
      maxDisruption
    = GetDesiredWorkers queueName queueMessages rate2 secondsToProcessOneJob
        targetMessagesPerWorker currentWorkers idleWorkers minWorkers
        maxWorkers maxDisruption.
Proof.
  intros * Hs. rewrite !GetDesiredWorkers_by_branch.
  unfold branch, getMinWorkers. rewrite Hs, (eqb_zero_not_ltb _ Hs), !andb_false_r.
  reflexivity.
Qed.

End Monotonicity.

(** In a scale-up the count in integers does not depend on the
    disruption bound. *)
Lemma desired_in_integers_scale_up :
  forall q t current idle computedMin max bound1 bound2 traffic,
    0 <= bound1 -> 0 <= bound2 ->
    current = 0 /\ 0 <= (q + t - 1) / t
    \/ 0 < q /\ current <= (q + t - 1) / t ->
    desired_in_integers q t current idle computedMin max bound1 traffic
    = desired_in_integers q t current idle computedMin max bound2 traffic
    /\ Z.min max current
       <= desired_in_integers q t current idle computedMin max bound1 traffic.
Proof.
  intros * H1 H2 Hup. unfold desired_in_integers.
  destruct (Z.geb_spec computedMin max); [lia |].
  set (raw := (q + t - 1) / t) in *.
  destruct (Z.eqb_spec current 0); [lia |].
  destruct (Z.gtb_spec q 0); [| lia].
  destruct (Z.leb_spec (10 * Z.abs (raw - current)) current); lia.
Qed.

Section ScaleUp.
Context {P : Platform}.

(** X4. A disruption bound that is not negative plays no part in a
    scale-up. On [int32] inputs that are not negative, with a target
    above zero: from no workers, or with a backlog whose quotient is at
    least the current count, [GetDesiredWorkers] returns the same count
    for any two values of [maxDisruption] that are read as bounds that
    are not negative, and that count is not below the smaller of the
    current count and the maximum. *)
Theorem scale_up_ignores_maxDisruption :
  forall queueName queueMessages messagesSentPerMinute secondsToProcessOneJob
         targetMessagesPerWorker currentWorkers idleWorkers minWorkers
         maxWorkers maxDisruption1 maxDisruption2 bound1 bound2,
    0 <= queueMessages <= Int32.max_int ->
    0 < targetMessagesPerWorker <= Int32.max_int ->
    0 <= currentWorkers <= Int32.max_int ->
    0 <= minWorkers <= Int32.max_int ->
    getMaxDisruptableWorkers maxDisruption1 currentWorkers = Ret bound1 ->
    getMaxDisruptableWorkers maxDisruption2 currentWorkers = Ret bound2 ->
    0 <= bound1 -> 0 <= bound2 ->
    currentWorkers = 0
    \/ 0 < queueMessages
       /\ currentWorkers
          <= (queueMessages + targetMessagesPerWorker - 1)
             / targetMessagesPerWorker ->
    exists desired,
      GetDesiredWorkers queueName queueMessages messagesSentPerMinute
        secondsToProcessOneJob targetMessagesPerWorker currentWorkers
        idleWorkers minWorkers maxWorkers maxDisruption1 = Ret desired
      /\ GetDesiredWorkers queueName queueMessages messagesSentPerMinute
           secondsToProcessOneJob targetMessagesPerWorker currentWorkers
           idleWorkers minWorkers maxWorkers maxDisruption2 = Ret desired
      /\ Z.min maxWorkers currentWorkers <= desired.
Proof.
  intros * Hq Ht Hc Hmin Hmd1 Hmd2 Hb1 Hb2 Hup.
  rewrite (GetDesiredWorkers_integers queueName queueMessages _ _ _ _ _ _ _ _
             bound1) by assumption.
  rewrite (GetDesiredWorkers_integers queueName queueMessages _ _ _ _ _ _ _ _
             bound2) by assumption.
  pose proof (rawDesired_bounds _ _ Hq Ht) as Hraw.
  destruct (desired_in_integers_scale_up queueMessages targetMessagesPerWorker
              currentWorkers idleWorkers
              (getMinWorkers messagesSentPerMinute minWorkers
                 secondsToProcessOneJob)
              maxWorkers bound1 bound2
              (ltb zero messagesSentPerMinute && ltb zero secondsToProcessOneJob)
              Hb1 Hb2) as [Heq Hlow]; [lia |].
  eexists. split; [reflexivity |]. split; [rewrite Heq; reflexivity | exact Hlow].
Qed.

End ScaleUp.

(** A negative bound does play a part: the bounding rules take it from the
    current count, so that 5000 messages for 20 workers give 26 workers
    with a disruption of -6 and 25 with a disruption of 3. *)
Remark negative_bound_raises_scale_up :
  @GetDesiredWorkers amd64 "otpsms" 5000 zero zero 200 20 0 0 30
    (Some "-6"%string) = Ret 26
  /\ @GetDesiredWorkers amd64 "otpsms" 5000 zero zero 200 20 0 0 30
       (Some "3"%string) = Ret 25.
Proof. vm_compute. split; reflexivity. Qed.

(** *** Strings *)
Lemma digits_app_percent :
  forall s acc, strconv.digits (String.append s "%") acc = None.
Proof.
  induction s as [| c s IH]; intros acc; cbn.
  - reflexivity.
  - destruct (strconv.is_digit c); [apply IH | reflexivity].
Qed.

(** A string that ends in a percent sign is no integer. *)
Lemma Atoi_app_percent :
  forall s, strconv.Atoi (String.append s "%") = None.
Proof.
  intros s. unfold strconv.Atoi.
  destruct s as [| c s]; [reflexivity |].
  pose proof (digits_app_percent s 0) as Hs.
  pose proof (digits_app_percent (String c s) 0) as Hcs.
  cbn [String.append] in *.
  destruct c as [[] [] [] [] [] [] [] []];
    try (rewrite Hcs; reflexivity);
    rewrite Hs; destruct (String.append s "%"); reflexivity.
Qed.

(** The digits of an integer hold no percent sign. *)
Lemma digits_no_percent :
  forall s acc n, strconv.digits s acc = Some n -> intstr.remove_percent s = s.
Proof.
  induction s as [| c s IH]; intros acc n H; cbn in *.
  - reflexivity.
  - destruct (strconv.is_digit c) eqn:Hc; [| discriminate].
    destruct (Ascii.eqb_spec c "%"%char) as [-> | _]; [discriminate |].
    f_equal. eapply IH. eassumption.
Qed.

(** Removing the percent signs of an integer leaves it as it is. *)
Lemma Atoi_no_percent :
  forall s i, strconv.Atoi s = Some i -> intstr.remove_percent s = s.
Proof.
  intros s i H. unfold strconv.Atoi in H.
  destruct s as [| c s]; [reflexivity |].
  destruct c as [[] [] [] [] [] [] [] []]; cbv beta iota zeta in H;
    first [ destruct (strconv.digits (String _ s) 0) eqn:Hd;
            [ eapply digits_no_percent; eassumption | discriminate ]
          | cbn [intstr.remove_percent Ascii.eqb Bool.eqb]; f_equal;
            destruct s as [| c' s']; [discriminate |];
            destruct (strconv.digits (String c' s') 0) eqn:Hd;
            [ eapply digits_no_percent; eassumption | discriminate ] ].
Qed.

(** Removing the percent signs removes a percent sign at the end. *)
Lemma remove_percent_app_percent :
  forall s, intstr.remove_percent (String.append s "%") = intstr.remove_percent s.
Proof.
  induction s as [| c s IH]; cbn; [reflexivity |].
  destruct (Ascii.eqb c "%"%char); [assumption | f_equal; assumption].
Qed.

(** ** More on [float64]: exact products and quotients *)

(** Dropping the last bit of an even mantissa is exact. *)
Lemma shr_1_even :
  forall k, 0 <= k ->
    shr_1 {| shr_m := k * 2; shr_r := false; shr_s := false |}
    = {| shr_m := k; shr_r := false; shr_s := false |}.
Proof.
  intros [| p | p] Hk; try lia; [reflexivity |].
  replace (Z.pos p * 2) with (Z.pos p~0) by lia. reflexivity.
Qed.

(** Bits that are zero are dropped without a trace. *)
Lemma iter_pos_shr_1_exact :
  forall n m, 0 <= m ->
    iter_pos shr_1 n {| shr_m := m * 2 ^ Z.pos n; shr_r := false; shr_s := false |}
    = {| shr_m := m; shr_r := false; shr_s := false |}.
Proof.
  induction n as [n IH | n IH |]; intros m Hm; cbn [iter_pos].
  - assert (Hp : 0 < 2 ^ Z.pos n) by (apply Z.pow_pos_nonneg; lia).
    assert (E1 : 2 ^ Z.pos n~1 = 2 ^ Z.pos n * 2 ^ Z.pos n * 2).
    { replace (Z.pos n~1) with (Z.pos n + Z.pos n + 1) by lia.
      rewrite !Z.pow_add_r by lia. reflexivity. }
    replace (m * 2 ^ Z.pos n~1) with (m * 2 ^ Z.pos n * 2 ^ Z.pos n * 2)
      by (rewrite E1; ring).
    rewrite shr_1_even by nia. rewrite IH by nia. apply IH. assumption.
  - assert (Hp : 0 < 2 ^ Z.pos n) by (apply Z.pow_pos_nonneg; lia).
    assert (E1 : 2 ^ Z.pos n~0 = 2 ^ Z.pos n * 2 ^ Z.pos n).
    { replace (Z.pos n~0) with (Z.pos n + Z.pos n) by lia.
      rewrite !Z.pow_add_r by lia. reflexivity. }
    replace (m * 2 ^ Z.pos n~0) with (m * 2 ^ Z.pos n * 2 ^ Z.pos n)
      by (rewrite E1; ring).
    rewrite IH by nia. apply IH. assumption.
  - change (2 ^ 1) with 2. apply shr_1_even. assumption.
Qed.

(** A mantissa of 53 bits followed by zeros is rounded to itself. *)
Lemma binary_round_aux_shifted :
  forall s m n e,
    Z.pos (digits2_pos m) = 53 -> 0 < n -> -1074 <= e + n <= 971 ->
    binary_round_aux prec emax s (Z.pos m * 2 ^ n) e loc_Exact
    = S754_finite s m (e + n).
Proof.
  intros s m n e Hd Hn He.
  assert (Hpn : 0 < 2 ^ n) by (apply Z.pow_pos_nonneg; lia).
  destruct (Z.pos m * 2 ^ n) as [| P | P] eqn:HP; try lia.
  assert (HdP : Z.pos (digits2_pos P) = 53 + n).
  { apply digits_unique. rewrite <- HP.
    pose proof (digits_bounds m) as Hb. rewrite Hd in Hb.
    replace (53 + n - 1) with (53 - 1 + n) by lia.
    rewrite !Z.pow_add_r by lia. nia. }
  unfold binary_round_aux. unfold shr_fexp at 1.
  unfold fexp, emin, prec, emax. cbn [Zdigits2]. rewrite HdP.
  replace (Z.max (53 + n + e - 53) (3 - 1024 - 53) - e) with n by lia.
  destruct n as [| n' | n']; try lia.
  cbn [shr shr_record_of_loc]. rewrite <- HP.
  rewrite iter_pos_shr_1_exact by lia.
  cbn [shr_m loc_of_shr_record round_nearest_even].
  unfold shr_fexp, fexp, emin. cbn [Zdigits2]. rewrite Hd.
  replace (Z.max (53 + (e + Z.pos n') - 53) (3 - 1024 - 53) - (e + Z.pos n'))
    with 0 by lia.
  cbn [shr shr_record_of_loc shr_m].
  destruct (Z.leb_spec (e + Z.pos n') (1024 - 53)); [reflexivity | lia].
Qed.

(** A positive integer below 2^53 has at most 53 binary digits. *)
Lemma digits_le_53 :
  forall p, Z.pos p < 2 ^ 53 -> Z.pos (digits2_pos p) <= 53.
Proof.
  intros p Hp. pose proof (digits_bounds p) as [Hlo _].
  destruct (Z.le_gt_cases (Z.pos (digits2_pos p)) 53); [assumption |].
  assert (2 ^ 53 <= 2 ^ (Z.pos (digits2_pos p) - 1))
    by (apply Z.pow_le_mono_r; lia). lia.
Qed.

(** The product of two integers is exact when it is below 2^53. *)
Lemma mul_of_Z_exact :
  forall a b : positive,
    Z.pos a * Z.pos b < 2 ^ 53 ->
    mul (of_Z (Z.pos a)) (of_Z (Z.pos b)) = of_Z (Z.pos a * Z.pos b).
Proof.
  intros a b Hab.
  assert (Ha : Z.pos a < 2 ^ 53) by nia. assert (Hb : Z.pos b < 2 ^ 53) by nia.
  destruct (binary_round_exact false a (digits_le_53 a Ha)) as (ma & Hfa & Hma & Hda).
  destruct (binary_round_exact false b (digits_le_53 b Hb)) as (mb & Hfb & Hmb & Hdb).
  change (Z.pos a * Z.pos b) with (Z.pos (a * b)) in *.
  destruct (binary_round_exact false (a * b) (digits_le_53 _ Hab))
    as (mab & Hfab & Hmab & Hdab).
  unfold mul, of_Z, binary_normalize. rewrite Hfa, Hfb, Hfab.
  unfold SFmul. cbn [xorb].
  pose proof (digits_bounds a) as Hba. pose proof (digits_bounds b) as Hbb.
  pose proof (digits_bounds (a * b)) as Hbab.
  pose proof (digits_le_53 a Ha) as Hla. pose proof (digits_le_53 b Hb) as Hlb.
  pose proof (digits_le_53 _ Hab) as Hlab.
  set (da := Z.pos (digits2_pos a)) in *. set (db := Z.pos (digits2_pos b)) in *.
  set (dab := Z.pos (digits2_pos (a * b))) in *.
  assert (0 < da) by (unfold da; lia). assert (0 < db) by (unfold db; lia).
  assert (0 < dab) by (unfold dab; lia).
  assert (Hdig : da + db - 1 <= dab).
  { destruct (Z.le_gt_cases (da + db - 1) dab); [assumption | exfalso].
    assert (2 ^ dab <= 2 ^ (da - 1 + (db - 1)))
      by (apply Z.pow_le_mono_r; lia).
    rewrite Z.pow_add_r in * by lia.
    rewrite Pos2Z.inj_mul in Hbab.
    assert (0 < 2 ^ (da - 1)) by (apply Z.pow_pos_nonneg; lia).
    assert (0 < 2 ^ (db - 1)) by (apply Z.pow_pos_nonneg; lia).
    nia. }
  set (n := 53 + dab - da - db).
  assert (Hprod : Z.pos (ma * mb) = Z.pos mab * 2 ^ n).
  { assert (Hexp : 2 ^ (53 - da) * 2 ^ (53 - db) = 2 ^ (53 - dab) * 2 ^ n).
    { rewrite <- !Z.pow_add_r by (unfold n; lia). f_equal. unfold n. lia. }
    rewrite Pos2Z.inj_mul, Hma, Hmb, Hmab, Pos2Z.inj_mul.
    transitivity (Z.pos a * Z.pos b * (2 ^ (53 - da) * 2 ^ (53 - db))); [ring |].
    rewrite Hexp. ring. }
  rewrite Hprod.
  change (binary_round_aux 53 1024) with (binary_round_aux prec emax).
  rewrite binary_round_aux_shifted by (unfold n; lia).
  f_equal. unfold n. lia.
Qed.

(** The ceiling of a positive number with a negative exponent, as an
    integer. *)
Lemma Ceil_finite_trunc :
  forall mf ef,
    ef < 0 -> Z.pos mf < 2 ^ 53 ->
    trunc (Ceil (S754_finite false mf ef))
    = Some ((Z.pos mf + 2 ^ (- ef) - 1) / 2 ^ (- ef)).
Proof.
  intros mf ef He Hm. unfold Ceil.
  destruct (Z.leb_spec 0 ef); [lia |].
  set (d := 2 ^ (- ef)) in *.
  assert (Hd : 2 <= d).
  { unfold d. change 2 with (2 ^ 1) at 1. apply Z.pow_le_mono_r; lia. }
  pose proof (Z.div_mod (Z.pos mf) d ltac:(lia)) as Hdm.
  pose proof (Z.mod_pos_bound (Z.pos mf) d ltac:(lia)) as Hrem.
  assert (Hv : (if Z.pos mf mod d =? 0 then Z.pos mf / d else Z.pos mf / d + 1)
               = (Z.pos mf + d - 1) / d).
  { symmetry. apply ceiling_unique; [lia |].
    destruct (Z.eqb_spec (Z.pos mf mod d) 0); nia. }
  rewrite Hv. fold (of_Z ((Z.pos mf + d - 1) / d)).
  apply of_Z_exact.
  assert (0 <= (Z.pos mf + d - 1) / d <= Z.pos mf); [| lia].
  split; [apply Z.div_pos; lia |].
  apply Z.div_le_upper_bound; nia.
Qed.

(** The rounded-up quotient of two integers, computed on [float64], is the
    exact one. *)
Lemma Ceil_div_trunc :
  forall a t : positive,
    Z.pos a < 2 ^ 50 -> Z.pos t < 2 ^ 31 ->
    trunc (Ceil (div (of_Z (Z.pos a)) (of_Z (Z.pos t))))
    = Some ((Z.pos a + Z.pos t - 1) / Z.pos t).
Proof.
  intros a t Ha Ht.
  assert (Hda : Z.pos (digits2_pos a) <= 50).
  { pose proof (digits_bounds a) as [Hlo _].
    destruct (Z.le_gt_cases (Z.pos (digits2_pos a)) 50); [assumption |].
    assert (2 ^ 50 <= 2 ^ (Z.pos (digits2_pos a) - 1))
      by (apply Z.pow_le_mono_r; lia). lia. }
  assert (Hdt : Z.pos (digits2_pos t) <= 31).
  { pose proof (digits_bounds t) as [Hlo _].
    destruct (Z.le_gt_cases (Z.pos (digits2_pos t)) 31); [assumption |].
    assert (2 ^ 31 <= 2 ^ (Z.pos (digits2_pos t) - 1))
      by (apply Z.pow_le_mono_r; lia). lia. }
  destruct (div_of_Z_bracket a t) as (mf & ef & E & mr & Hdiv & Hdf & HE &
                                        Hef & Hmr52 & Hmr & Hexact);
    [lia | lia | lia |].
  rewrite Hdiv.
  change (2 ^ 50) with 1125899906842624 in *.
  change (2 ^ 52) with 4503599627370496 in *.
  change (2 ^ 53) with 9007199254740992 in *.
  assert (Hpow : forall k, 0 <= k -> 0 < 2 ^ k)
    by (intros; apply Z.pow_pos_nonneg; lia).
  assert (HN : Z.pos t < 2 ^ E).
  { destruct (Z.lt_ge_cases (Z.pos t) (2 ^ E)); [assumption | exfalso].
    assert (Z.pos a * 2 ^ E / Z.pos t <= Z.pos a).
    { apply Z.div_le_upper_bound; [lia |]. specialize (Hpow E). nia. }
    lia. }
  assert (HE2 : 2 <= E).
  { destruct (Z.lt_ge_cases E 2); [exfalso | lia].
    assert (2 ^ E <= 2 ^ 1) by (apply Z.pow_le_mono_r; lia).
    change (2 ^ 1) with 2 in *.
    assert (Z.pos a * 2 ^ E / Z.pos t <= Z.pos a * 2).
    { apply Z.div_le_upper_bound; [lia |]. nia. }
    lia. }
  pose proof (scaled_quotient_ceiling (Z.pos a) (Z.pos t) (2 ^ E) mr
                ltac:(lia) Hmr Hexact) as Hbr.
  pose proof (digits_bounds mf) as Hbmf. rewrite Hdf in Hbmf.
  change (2 ^ 53) with 9007199254740992 in *.
  rewrite Ceil_finite_trunc.
  - f_equal. apply ceiling_unique.
    + apply Hpow. destruct Hef as [[-> _] | [-> _]]; lia.
    + destruct Hef as [[-> Hm] | [-> Hm]].
      * rewrite Z.opp_involutive, Hm. exact Hbr.
      * replace (- (- E + 1)) with (E - 1) by lia.
        assert (H2 : 2 ^ E = 2 * 2 ^ (E - 1)).
        { rewrite <- Z.pow_succ_r by lia. f_equal. lia. }
        rewrite H2 in Hbr. lia.
  - destruct Hef as [[-> _] | [-> _]]; lia.
  - change (2 ^ 53) with 9007199254740992. lia.
Qed.

(** ** The disruption bound *)

Section DisruptionValue.
Context {P : Platform}.

(** The percentage of a count, as [GetValueFromIntOrPercent] computes it
    on [float64], is exact. *)
Lemma percent_value_exact :
  forall p current,
    0 <= p <= 100 -> 0 <= current <= Int32.max_int ->
    int_of_float64 (Ceil (div (mul (of_Z p) (of_Z current)) (of_Z 100)))
    = (p * current + 99) / 100.
Proof.
  intros p c Hp Hc. unfold Int32.max_int in Hc.
  assert (Hzero : forall x,
            (x = S754_zero false \/ exists m e, x = S754_finite false m e) ->
            int_of_float64
              (Ceil (div (mul (S754_zero false) x) (of_Z 100))) = 0
            /\ int_of_float64
                 (Ceil (div (mul x (S754_zero false)) (of_Z 100))) = 0).
  { intros x [-> | (m & e & ->)]; split; reflexivity. }
  assert (Hshape : forall z, 0 <= z < 2 ^ 53 ->
            of_Z z = S754_zero false \/ exists m e, of_Z z = S754_finite false m e).
  { intros [| q | q] Hz; try lia; [left; reflexivity | right].
    destruct (binary_round_exact false q (digits_le_53 q ltac:(lia)))
      as (m & Hm & _).
    exists m, (Z.pos (digits2_pos q) - 53). exact Hm. }
  change (2 ^ 53) with 9007199254740992 in Hshape.
  destruct p as [| p | p]; try lia.
  - rewrite Z.mul_0_l. change (of_Z 0) with (S754_zero false).
    apply (Hzero (of_Z c)). apply Hshape. lia.
  - destruct c as [| c | c]; try lia.
    + rewrite Z.mul_0_r. change (of_Z 0) with (S754_zero false).
      apply (Hzero (of_Z (Z.pos p))). apply Hshape. lia.
    + rewrite mul_of_Z_exact
        by (change (2 ^ 53) with 9007199254740992; nia).
      change (Z.pos p * Z.pos c) with (Z.pos (p * c)).
      unfold int_of_float64.
      rewrite (Ceil_div_trunc (p * c) 100)
        by (try change (2 ^ 50) with 1125899906842624;
            try change (2 ^ 31) with 2147483648; nia).
      replace (Z.pos (p * c) + 100 - 1) with (Z.pos (p * c) + 99) by lia.
      assert (Hn : 0 <= (Z.pos (p * c) + 99) / 100 <= Z.pos (p * c)).
      { split; [apply Z.div_pos; lia |].
        assert ((Z.pos (p * c) + 99) / 100 < Z.pos (p * c) + 1); [| lia].
        apply Z.div_lt_upper_bound; lia. }
      assert (Hr : Int64.in_range ((Z.pos (p * c) + 99) / 100) = true).
      { unfold Int64.in_range, Int64.min_int, Int64.max_int.
        apply andb_true_iff. split; apply Z.leb_le; nia. }
      rewrite Hr. reflexivity.
Qed.

(** X5. For a [maxDisruption] of p percent, p from 0 to 100, and a
    current count c, [getMaxDisruptableWorkers] returns p * c / 100
    rounded up, computed without rounding error: a value from 0 to c,
    and at least 1 when p and c are. *)
Theorem percent_disruption_is_rounded_up :
  forall digits p currentWorkers,
    strconv.Atoi digits = Some p ->
    0 <= p <= 100 ->
    0 <= currentWorkers <= Int32.max_int ->
    getMaxDisruptableWorkers (Some (String.append digits "%")) currentWorkers
    = Ret ((p * currentWorkers + 99) / 100)
    /\ 0 <= (p * currentWorkers + 99) / 100 <= currentWorkers
    /\ (1 <= p -> 1 <= currentWorkers -> 1 <= (p * currentWorkers + 99) / 100).
Proof.
  intros digits p c Hatoi Hp Hc.
  assert (Hb : 0 <= (p * c + 99) / 100 <= c
               /\ (1 <= p -> 1 <= c -> 1 <= (p * c + 99) / 100)).
  { split; [split |].
    - apply Z.div_pos; nia.
    - assert ((p * c + 99) / 100 < c + 1); [| lia].
      apply Z.div_lt_upper_bound; nia.
    - intros. apply Z.div_le_lower_bound; nia. }
  split; [| exact Hb].
  unfold getMaxDisruptableWorkers, intstr.Parse.
  rewrite Atoi_app_percent.
  unfold intstr.GetValueFromIntOrPercent, intstr.getIntOrPercentValue.
  rewrite remove_percent_app_percent, (Atoi_no_percent _ _ Hatoi), Hatoi.
  rewrite (percent_value_exact p c Hp Hc). f_equal.
  apply Int32_wrap_in_range, in_range_bounds.
  unfold Int32.min_int, Int32.max_int in *. lia.
Qed.

(** X6. [GetDesiredWorkers] returns a count exactly when [maxDisruption]
    is set and reads as an integer once its percent signs are removed;
    otherwise it ends the process through [klog.Fatalf], and it never
    panics. *)
Theorem GetDesiredWorkers_returns_iff_maxDisruption_parses :
  forall queueName queueMessages messagesSentPerMinute secondsToProcessOneJob
         targetMessagesPerWorker currentWorkers idleWorkers minWorkers
         maxWorkers maxDisruption,
    ((exists desired,
         GetDesiredWorkers queueName queueMessages messagesSentPerMinute
           secondsToProcessOneJob targetMessagesPerWorker currentWorkers
           idleWorkers minWorkers maxWorkers maxDisruption = Ret desired)
     <-> exists s i,
           maxDisruption = Some s
           /\ strconv.Atoi (intstr.remove_percent s) = Some i)
    /\ ((exists desired,
            GetDesiredWorkers queueName queueMessages messagesSentPerMinute
              secondsToProcessOneJob targetMessagesPerWorker currentWorkers
              idleWorkers minWorkers maxWorkers maxDisruption = Ret desired)
        \/ exists msg,
             GetDesiredWorkers queueName queueMessages messagesSentPerMinute
               secondsToProcessOneJob targetMessagesPerWorker currentWorkers
               idleWorkers minWorkers maxWorkers maxDisruption = Fatal msg).
Proof.
  intros. rewrite GetDesiredWorkers_by_branch.
  unfold getMaxDisruptableWorkers, intstr.Parse,
    intstr.GetValueFromIntOrPercent, intstr.getIntOrPercentValue.
  destruct maxDisruption as [s |].
  - destruct (strconv.Atoi s) as [i |] eqn:Hs.
    + cbn [obind]. split; [| left; eexists; reflexivity].
      split; [| intros _; eexists; reflexivity].
      intros _. exists s, i. rewrite (Atoi_no_percent _ _ Hs). auto.
    + destruct (strconv.Atoi (intstr.remove_percent s)) as [i |] eqn:Hr;
        cbn [obind].
      * split; [| left; eexists; reflexivity].
        split; [| intros _; eexists; reflexivity].
        intros _. exists s, i. auto.
      * split; [| right; eexists; reflexivity].
        split; [intros [d Hd]; discriminate |].
        intros (s' & i & Hs' & Hi). injection Hs' as <-. congruence.
  - cbn [obind]. split; [| right; eexists; reflexivity].
    split; [intros [d Hd]; discriminate |].
    intros (s' & i & Hs' & _). discriminate.
Qed.

End DisruptionValue.

(** ** Quotients on whole numbers *)

Section ExactQuotients.
Context {P : Platform}.

(** X7. The quotient of [GetDesiredWorkers], computed on [float64] and
    converted to [int32], is the exact ceiling of the backlog divided by
    the target: the least count r with backlog <= target * r, which lies
    between 0 and the backlog. *)
Theorem backlog_quotient_is_the_exact_ceiling :
  forall queueMessages targetMessagesPerWorker,
    0 <= queueMessages <= Int32.max_int ->
    0 < targetMessagesPerWorker <= Int32.max_int ->
    let r := rawDesired queueMessages targetMessagesPerWorker in
    r = (queueMessages + targetMessagesPerWorker - 1) / targetMessagesPerWorker
    /\ targetMessagesPerWorker * (r - 1) < queueMessages
       <= targetMessagesPerWorker * r
    /\ 0 <= r <= queueMessages.
Proof.
  intros q t Hq Ht r. subst r. rewrite (rawDesired_exact q t Hq Ht).
  pose proof (ceiling_bounds q t ltac:(lia)) as Hb.
  split; [reflexivity |]. split; [lia |].
  split; [apply Z.div_pos; lia |].
  assert ((q + t - 1) / t < q + 1); [| lia].
  apply Z.div_lt_upper_bound; nia.
Qed.

(** X8. On [int32] counts, [isChangeTooSmall] with the tolerance 0.1
    holds exactly when ten times the distance of the desired count from
    the current one is at most the current count: the rounding of the
    division and of the constant 0.1 never changes the answer. *)
Theorem tolerance_test_in_integers :
  forall desired current,
    0 <= desired <= Int32.max_int ->
    0 < current <= Int32.max_int ->
    isChangeTooSmall desired current tolerance = true
    <-> 10 * Z.abs (desired - current) <= current.
Proof.
  intros d c Hd Hc. rewrite (isChangeTooSmall_exact d c Hc).
  unfold Int32.sub. rewrite Int32_wrap_in_range; [reflexivity |].
  apply in_range_bounds. unfold Int32.min_int, Int32.max_int in *. lia.
Qed.

(** A positive integer is not zero as a [float64]. *)
Lemma of_Z_pos_not_zero :
  forall s, 0 < s < 2 ^ 53 -> eqb (of_Z s) zero = false.
Proof.
  intros [| s | s] Hs; try lia.
  destruct (binary_round_exact false s (digits_le_53 s ltac:(lia)))
    as (m & Hm & _).
  unfold of_Z, binary_normalize. rewrite Hm. reflexivity.
Qed.

(** The workers the sending rate asks for, on whole numbers. *)
Lemma workersBasedOnMessagesSent_exact :
  forall rate seconds,
    0 <= rate < 2 ^ 53 -> 0 <= seconds < 2 ^ 53 ->
    rate * seconds <= 60 * Int32.max_int ->
    workersBasedOnMessagesSent (of_Z rate) (of_Z seconds)
    = (rate * seconds + 59) / 60.
Proof.
  intros r s Hr Hs Hrs. unfold Int32.max_int in Hrs.
  unfold workersBasedOnMessagesSent.
  assert (Hshape : forall z, 0 <= z < 2 ^ 53 ->
            of_Z z = S754_zero false \/ exists m e, of_Z z = S754_finite false m e).
  { intros [| q | q] Hz; try lia; [left; reflexivity | right].
    destruct (binary_round_exact false q (digits_le_53 q ltac:(lia)))
      as (m & Hm & _).
    exists m, (Z.pos (digits2_pos q) - 53). exact Hm. }
  destruct s as [| s | s]; try lia.
  - rewrite Z.mul_0_r. change (of_Z 0) with (S754_zero false).
    destruct (Hshape r Hr) as [-> | (m & e & ->)]; reflexivity.
  - destruct r as [| r | r]; try lia.
    + rewrite Z.mul_0_l. change (of_Z 0) with (S754_zero false).
      destruct (Hshape (Z.pos s) Hs) as [H | (m & e & ->)]; [| reflexivity].
      rewrite H. reflexivity.
    + rewrite mul_of_Z_exact
        by (change (2 ^ 53) with 9007199254740992; nia).
      replace (Z.pos r * Z.pos s) with (Z.pos (s * r)) by lia.
      change (Z.pos s * Z.pos r) with (Z.pos (s * r)).
      unfold int32_of_float64.
      rewrite (Ceil_div_trunc (s * r) 60)
        by (try change (2 ^ 50) with 1125899906842624;
            try change (2 ^ 31) with 2147483648; nia).
      replace (Z.pos (s * r) + 60 - 1) with (Z.pos (s * r) + 59) by lia.
      assert (Hn : 0 <= (Z.pos (s * r) + 59) / 60 <= 2147483647).
      { split; [apply Z.div_pos; lia |].
        assert ((Z.pos (s * r) + 59) / 60 < 2147483647 + 1); [| lia].
        apply Z.div_lt_upper_bound; lia. }
      rewrite in_range_bounds
        by (unfold Int32.min_int, Int32.max_int; lia).
      reflexivity.
Qed.

(** X9. For a sending rate and a processing time that are whole numbers,
    [getMinWorkers] returns the minimum given when the time is zero, and
    else the larger of that minimum and of rate * time / 60 rounded up,
    computed without rounding error. *)
Theorem velocity_floor_on_whole_numbers :
  forall rate seconds minWorkers,
    0 <= rate < 2 ^ 53 -> 0 <= seconds < 2 ^ 53 ->
    rate * seconds <= 60 * Int32.max_int ->
    getMinWorkers (of_Z rate) minWorkers (of_Z seconds)
    = if seconds =? 0 then minWorkers
      else Z.max minWorkers ((rate * seconds + 59) / 60).
Proof.
  intros r s m Hr Hs Hrs. destruct (Z.eqb_spec s 0) as [-> | Hnz].
  - reflexivity.
  - rewrite getMinWorkers_velocity by (apply of_Z_pos_not_zero; lia).
    rewrite (workersBasedOnMessagesSent_exact r s Hr Hs Hrs). reflexivity.
Qed.

End ExactQuotients.

(** * More on the reconciler *)

(** ** The effects of a tick *)

(** The effects of a sequence satisfy what the effects of its parts do. *)
Lemma mbind_effects :
  forall (A B : Type) (Q : Effect -> Prop) (m : M A) (k : A -> M B),
    Forall Q (fst m) ->
    (forall a, snd m = Ret a -> Forall Q (fst (k a))) ->
    Forall Q (fst (mbind m k)).
Proof.
  intros A B Q [t [a | msg | msg]] k Hm Hk; cbn in *; try assumption.
  specialize (Hk a eq_refl). destruct (k a) as [t' r]. cbn in *.
  apply Forall_app. split; assumption.
Qed.

(** The effects of a retried function are effects of its attempts. *)
Lemma retry_steps_effects :
  forall (Q : Effect -> Prop) (fn : nat -> M (option error)),
    (forall attempt, Forall Q (fst (fn attempt))) ->
    forall steps attempt last,
      Forall Q (fst (retry_steps steps attempt last fn)).
Proof.
  intros Q fn Hfn. induction steps as [| steps IH]; intros attempt last; cbn.
  - constructor.
  - apply mbind_effects; [apply Hfn |].
    intros [e |] _; [| constructor].
    destruct (IsConflict e); [apply IH | constructor].
Qed.

Section TickEffectsProofs.
Context {P : Platform} {X : Externals}.

(** [updateDeployment] sends the update it is asked for, and logs. *)
Lemma updateDeployment_effects :
  forall c namespace name replicas,
    Forall (fun e => e = EUpdateDeployment namespace name replicas
                     \/ exists msg, e = EErrorLog msg)
      (fst (updateDeployment c namespace name replicas)).
Proof.
  intros. unfold updateDeployment, RetryOnConflict.
  apply mbind_effects.
  - apply retry_steps_effects. intros attempt.
    destruct (deploymentLister c namespace name) as [d | err].
    + apply mbind_effects; [constructor; [left; reflexivity | constructor] |].
      intros _ _.
      destruct (kubeclientset_UpdateDeployment c attempt namespace name replicas).
      * apply mbind_effects; [| intros; constructor].
        constructor; [right; eexists; reflexivity | constructor].
      * constructor.
    + destruct (IsNotFound err); constructor.
  - intros [e |] _; constructor.
Qed.

(** [updateReplicaSet] sends the update it is asked for, and logs. *)
Lemma updateReplicaSet_effects :
  forall c namespace name replicas,
    Forall (fun e => e = EUpdateReplicaSet namespace name replicas
                     \/ exists msg, e = EErrorLog msg)
      (fst (updateReplicaSet c namespace name replicas)).
Proof.
  intros. unfold updateReplicaSet, RetryOnConflict.
  apply mbind_effects.
  - apply retry_steps_effects. intros attempt.
    destruct (replicaSetLister c namespace name) as [d | err].
    + apply mbind_effects; [constructor; [left; reflexivity | constructor] |].
      intros _ _.
      destruct (kubeclientset_UpdateReplicaSet c attempt namespace name replicas).
      * apply mbind_effects; [| intros; constructor].
        constructor; [right; eexists; reflexivity | constructor].
      * constructor.
    + destruct (IsNotFound err); constructor.
  - intros [e |] _; constructor.
Qed.

(** The status writer sends the status it is asked for, and logs. *)
Lemma updateWorkerPodAutoScalerStatus_effects :
  forall name namespace UpdateStatus desiredWorkers w currentWorkers
         availableWorkers queueMessages lastScaleTime,
    Forall (fun e => e = EUpdateStatus (Namespace w)
                           (with_status w currentWorkers availableWorkers
                              desiredWorkers queueMessages lastScaleTime)
                     \/ exists msg, e = EErrorLog msg)
      (fst (updateWorkerPodAutoScalerStatus name namespace UpdateStatus
              desiredWorkers w currentWorkers availableWorkers queueMessages
              lastScaleTime)).
Proof.
  intros. unfold updateWorkerPodAutoScalerStatus.
  destruct (_ && _); [constructor |].
  apply mbind_effects; [constructor; [left; reflexivity | constructor] |].
  intros _ _. destruct (UpdateStatus _ _).
  - constructor; [right; eexists; reflexivity | constructor].
  - constructor.
Qed.

(** The desired count lies within the minimum and the maximum given. *)
Lemma GetDesiredWorkers_within :
  forall queueName queueMessages messagesSentPerMinute secondsToProcessOneJob
         targetMessagesPerWorker currentWorkers idleWorkers minWorkers
         maxWorkers maxDisruption desired,
    GetDesiredWorkers queueName queueMessages messagesSentPerMinute
      secondsToProcessOneJob targetMessagesPerWorker currentWorkers
      idleWorkers minWorkers maxWorkers maxDisruption = Ret desired ->
    (minWorkers < maxWorkers -> minWorkers <= desired <= maxWorkers)
    /\ (maxWorkers <= minWorkers -> desired = maxWorkers).
Proof.
  intros * H. rewrite GetDesiredWorkers_by_branch in H.
  destruct (getMaxDisruptableWorkers maxDisruption currentWorkers)
    as [md | msg | msg]; cbn [obind] in H; try discriminate.
  injection H as <-.
  pose proof (getMinWorkers_ge_minWorkers
                messagesSentPerMinute minWorkers secondsToProcessOneJob) as Hge.
  set (computedMin := getMinWorkers _ _ _) in *.
  set (d := branch_desired _ _ _ _). set (b := branch_disruption _ _ _).
  destruct (Z.lt_ge_cases computedMin maxWorkers) as [Hlt | Hle].
  - pose proof (convertDesiredReplicasWithRules_bounded
                  currentWorkers d computedMin maxWorkers b Hlt).
    split; intros; lia.
  - rewrite (convertDesiredReplicasWithRules_pinned _ _ _ _ _ Hle).
    split; intros; lia.
Qed.

(** A pointer that is read without a panic holds the value read. *)
Lemma deref_ret :
  forall (A : Type) (p : option A) a, snd (deref p) = Ret a -> p = Some a.
Proof. intros A [x |] a H; cbn in H; congruence. Qed.

(** Reading a pointer has no effect. *)
Lemma deref_effects :
  forall (A : Type) (Q : Effect -> Prop) (p : option A), Forall Q (fst (deref p)).
Proof. intros A Q [x |]; constructor. Qed.

(** The effect of [emit]. *)
Lemma emit_effects :
  forall (Q : Effect -> Prop) e, Q e -> Forall Q (fst (emit e)).
Proof. intros. constructor; [assumption | constructor]. Qed.

(** What a sequence that ends in a constant returns. *)
Lemma mbind_const_ret :
  forall (A B : Type) (m : M A) (v a : B),
    snd (mbind m (fun _ => mret v)) = Ret a -> a = v.
Proof.
  intros A B [t [x | msg | msg]] v a H; cbn in H; congruence.
Qed.

(** Every effect of a tick, from the registry step on, is one the policy
    and its workload allow. *)
Lemma syncHandler_scale_effects :
  forall c event namespace name w currentWorkers availableWorkers,
    Forall (tick_effect_of c event namespace name w currentWorkers
              availableWorkers)
      (fst (syncHandler_scale c event namespace name w currentWorkers
              availableWorkers)).
Proof.
  intros. unfold syncHandler_scale.
  apply mbind_effects.
  { destruct (String.eqb_spec (event_name event) WokerPodAutoScalerEventAdd)
      as [Ha | Ha]; cbn [orb].
    - apply mbind_effects; [| intros; constructor].
      apply emit_effects. cbn. auto 10.
    - destruct (String.eqb_spec (event_name event) WokerPodAutoScalerEventUpdate)
        as [Hu | Hu].
      + apply mbind_effects; [| intros; constructor].
        apply emit_effects. cbn. auto 10.
      + destruct (String.eqb_spec (event_name event) WokerPodAutoScalerEventDelete)
          as [Hd | Hd]; [| constructor].
        apply mbind_effects; [| intros; constructor].
        apply emit_effects. cbn. auto. }
  intros [e |] _.
  { apply mbind_effects; [apply emit_effects; exact I | intros; constructor]. }
  apply mbind_effects; [apply emit_effects; cbn; auto |]. intros _ _.
  destruct (Queues_GetQueueInfo (Queues c) namespace name)
    as [[[queueName queueMessages] rate] idle] eqn:Hinfo.
  assert (Hqueue : registered_queue c namespace name = queueName)
    by (unfold registered_queue; rewrite Hinfo; reflexivity).
  destruct (String.eqb queueName ""); [constructor |].
  destruct (queueMessages =? UnsyncedQueueMessageCount).
  { apply mbind_effects; [apply emit_effects; exact I | intros; constructor]. }
  apply mbind_effects; [apply deref_effects |]. intros target _.
  apply mbind_effects; [apply deref_effects |]. intros min Hmin.
  apply mbind_effects; [apply deref_effects |]. intros max Hmax.
  apply deref_ret in Hmin, Hmax.
  apply mbind_effects; [constructor |]. intros desired Hdesired.
  cbn [lift snd] in Hdesired.
  assert (Hwithin : replicas_within_policy w desired).
  { exists min, max. split; [assumption |]. split; [assumption |].
    eapply GetDesiredWorkers_within. eassumption. }
  apply mbind_effects; [apply emit_effects; exact Hwithin |]. intros _ _.
  do 6 (apply mbind_effects; [apply emit_effects; exact I |]; intros _ _).
  set (op := GetScaleOperation queueName desired currentWorkers
               (LastScaleTime (Status w)) (scaleDownDelay c)).
  assert (Hscaling : op <> ScaleNoop ->
            GetScaleOperation (registered_queue c namespace name) desired
              currentWorkers (LastScaleTime (Status w)) (scaleDownDelay c)
            <> ScaleNoop).
  { intros Hop. rewrite Hqueue. exact Hop. }
  assert (Hupdate : op <> ScaleNoop ->
    Forall (tick_effect_of c event namespace name w currentWorkers
              availableWorkers)
      (fst ((if negb (String.eqb (DeploymentName (Spec w)) "")
             then updateDeployment c (Namespace w) (DeploymentName (Spec w))
                    desired
             else updateReplicaSet c (Namespace w) (ReplicaSetName (Spec w))
                    desired) ;;; mret (Some (metav1_Now c))))).
  { intros Hop. apply mbind_effects; [| intros; constructor].
    destruct (String.eqb_spec (DeploymentName (Spec w)) "") as [Heq | Hne];
      cbn [negb].
    - eapply Forall_impl; [| apply updateReplicaSet_effects].
      intros e [-> | [msg ->]]; cbn; auto 10.
    - eapply Forall_impl; [| apply updateDeployment_effects].
      intros e [-> | [msg ->]]; cbn; auto 10. }
  apply mbind_effects.
  { destruct op; [apply Hupdate; discriminate | apply Hupdate; discriminate |].
    constructor. }
  intros lastScaleTime Hlast.
  assert (Htime : lastScaleTime = LastScaleTime (Status w)
                  \/ lastScaleTime = Some (metav1_Now c) /\ op <> ScaleNoop).
  { destruct op.
    - right. split; [| discriminate]. eapply mbind_const_ret. exact Hlast.
    - right. split; [| discriminate]. eapply mbind_const_ret. exact Hlast.
    - left. cbn in Hlast. congruence. }
  apply mbind_effects.
  { eapply Forall_impl; [| apply updateWorkerPodAutoScalerStatus_effects].
    intros e [-> | [msg ->]]; [| exact I].
    cbn. repeat split; try assumption.
    destruct Htime as [-> | [-> Hop]]; auto. }
  intros _ _.
  do 2 (apply mbind_effects; [apply emit_effects; exact I |]; intros _ _).
  constructor.
Qed.

(** Every effect of a tick, for a policy in the cache: the report of a
    policy that names no workload, or an effect allowed for the policy and
    the workload it names. *)
Lemma syncHandler_effects :
  forall c event namespace name w,
    SplitMetaNamespaceKey (event_key event) = Some (namespace, name) ->
    workerPodAutoScalersLister c namespace name = Found w ->
    Forall (fun e =>
              (exists msg, e = EHandleError msg)
              \/ exists d currentWorkers,
                   policy_workload c w = Some d
                   /\ Replicas d = Some currentWorkers
                   /\ tick_effect_of c event namespace name w currentWorkers
                        (WorkloadAvailableReplicas d) e)
      (fst (syncHandler c event)).
Proof.
  intros * Hkey Hget. unfold syncHandler, policy_workload.
  rewrite Hkey, Hget.
  destruct (negb (String.eqb (DeploymentName (Spec w)) "")).
  - destruct (deploymentLister c (Namespace w) (DeploymentName (Spec w)))
      as [d | err]; [| destruct (IsNotFound err); constructor].
    apply mbind_effects; [apply deref_effects |]. intros cur Hcur.
    apply deref_ret in Hcur.
    eapply Forall_impl; [| apply syncHandler_scale_effects].
    intros e He. right. exists d, cur. auto.
  - destruct (negb (String.eqb (ReplicaSetName (Spec w)) "")).
    + destruct (replicaSetLister c (Namespace w) (ReplicaSetName (Spec w)))
        as [d | err]; [| destruct (IsNotFound err); constructor].
      apply mbind_effects; [apply deref_effects |]. intros cur Hcur.
      apply deref_ret in Hcur.
      eapply Forall_impl; [| apply syncHandler_scale_effects].
      intros e He. right. exists d, cur. auto.
    + apply mbind_effects; [| intros; constructor].
      apply emit_effects. left. eexists. reflexivity.
Qed.

(** Without a policy in the cache a tick reports, and forgets the queue of
    a policy that is gone. *)
Lemma syncHandler_effects_without_policy :
  forall c event,
    (forall namespace name w,
        SplitMetaNamespaceKey (event_key event) = Some (namespace, name) ->
        workerPodAutoScalersLister c namespace name <> Found w) ->
    Forall (fun e => (exists msg, e = EHandleError msg)
                     \/ exists namespace name, e = EQueuesDelete namespace name)
      (fst (syncHandler c event)).
Proof.
  intros c event Hnone. unfold syncHandler.
  destruct (SplitMetaNamespaceKey (event_key event)) as [[namespace name] |].
  - specialize (Hnone namespace name).
    destruct (workerPodAutoScalersLister c namespace name) as [w | err].
    + exfalso. apply (Hnone w); reflexivity.
    + destruct (IsNotFound err); [| constructor].
      apply mbind_effects; [apply emit_effects; left; eexists; reflexivity |].
      intros _ _.
      apply mbind_effects; [| intros; constructor].
      apply emit_effects. right. eexists. eexists. reflexivity.
  - apply mbind_effects; [| intros; constructor].
    apply emit_effects. left. eexists. reflexivity.
Qed.

End TickEffectsProofs.

Section TickSafety.
Context {P : Platform} {X : Externals}.

(** Every effect of a tick, whatever the cache holds. *)
Lemma syncHandler_effect_cases :
  forall c event e,
    In e (fst (syncHandler c event)) ->
    (exists msg, e = EHandleError msg)
    \/ (exists namespace name, e = EQueuesDelete namespace name)
    \/ exists namespace name w d currentWorkers,
         SplitMetaNamespaceKey (event_key event) = Some (namespace, name)
         /\ workerPodAutoScalersLister c namespace name = Found w
         /\ policy_workload c w = Some d
         /\ Replicas d = Some currentWorkers
         /\ tick_effect_of c event namespace name w currentWorkers
              (WorkloadAvailableReplicas d) e.
Proof.
  intros c event e Hin.
  destruct (SplitMetaNamespaceKey (event_key event)) as [[namespace name] |] eqn:Hkey.
  - destruct (workerPodAutoScalersLister c namespace name) as [w | err] eqn:Hget.
    + pose proof (syncHandler_effects c event namespace name w Hkey Hget) as Hall.
      rewrite Forall_forall in Hall.
      destruct (Hall e Hin) as [Hmsg | (d & cur & Hw & Hr & He)]; [auto |].
      right. right. exists namespace, name, w, d, cur. auto.
    + assert (Hall := syncHandler_effects_without_policy c event).
      rewrite Forall_forall in Hall.
      destruct (Hall ltac:(intros ns n w Hk; rewrite Hkey in Hk;
                           injection Hk as <- <-; rewrite Hget; discriminate)
                  e Hin); auto.
  - assert (Hall := syncHandler_effects_without_policy c event).
    rewrite Forall_forall in Hall.
    destruct (Hall ltac:(intros ns n w Hk; rewrite Hkey in Hk; discriminate)
                e Hin); auto.
Qed.

(** X10. Whatever the caches and the registry answer, every update a
    tick sends to a deployment or a replica-set asks for a count within
    the bounds of the policy the key names: between its minimum and its
    maximum, or its maximum when the minimum is not below it. *)
Theorem commanded_replicas_within_policy :
  forall c event ns n replicas,
    In (EUpdateDeployment ns n replicas) (fst (syncHandler c event))
    \/ In (EUpdateReplicaSet ns n replicas) (fst (syncHandler c event)) ->
    exists namespace name w,
      SplitMetaNamespaceKey (event_key event) = Some (namespace, name)
      /\ workerPodAutoScalersLister c namespace name = Found w
      /\ replicas_within_policy w replicas.
Proof.
  intros c event ns n r [Hin | Hin];
    apply syncHandler_effect_cases in Hin;
    destruct Hin as [[msg H] | [(a & b & H) | (namespace & name & w & d & cur &
                                               Hk & Hg & Hw & Hr & He)]];
    try discriminate;
    exists namespace, name, w; cbn in He; tauto.
Qed.

(** X11. A tick updates no workload but the one its policy names, in the
    namespace of the policy: the deployment when a deployment is named,
    and the replica-set only when no deployment is. *)
Theorem updates_only_the_named_workload :
  forall c event namespace name w,
    SplitMetaNamespaceKey (event_key event) = Some (namespace, name) ->
    workerPodAutoScalersLister c namespace name = Found w ->
    (forall ns n replicas,
        In (EUpdateDeployment ns n replicas) (fst (syncHandler c event)) ->
        DeploymentName (Spec w) <> ""%string
        /\ ns = Namespace w /\ n = DeploymentName (Spec w))
    /\ (forall ns n replicas,
           In (EUpdateReplicaSet ns n replicas) (fst (syncHandler c event)) ->
           DeploymentName (Spec w) = ""%string
           /\ ns = Namespace w /\ n = ReplicaSetName (Spec w)).
Proof.
  intros * Hkey Hget.
  split; intros ns n r Hin;
    apply syncHandler_effect_cases in Hin;
    destruct Hin as [[msg H] | [(a & b & H) | (namespace' & name' & w' & d & cur &
                                               Hk & Hg & Hw & Hr & He)]];
    try discriminate;
    rewrite Hkey in Hk; injection Hk as <- <-;
    rewrite Hget in Hg; injection Hg as <-;
    cbn in He; tauto.
Qed.

(** X12. Every status a tick writes is that of the policy the key names,
    with its namespace, name and spec unchanged; it reports the replicas
    and the available replicas of the workload as the cache has them,
    and a desired count within the bounds of the policy. *)
Theorem status_write_reports_the_workload :
  forall c event ns object,
    In (EUpdateStatus ns object) (fst (syncHandler c event)) ->
    exists namespace name w d currentWorkers,
      SplitMetaNamespaceKey (event_key event) = Some (namespace, name)
      /\ workerPodAutoScalersLister c namespace name = Found w
      /\ policy_workload c w = Some d
      /\ Replicas d = Some currentWorkers
      /\ ns = Namespace w
      /\ Namespace object = Namespace w
      /\ Name object = Name w
      /\ Spec object = Spec w
      /\ CurrentReplicas (Status object) = currentWorkers
      /\ AvailableReplicas (Status object) = WorkloadAvailableReplicas d
      /\ replicas_within_policy w (DesiredReplicas (Status object)).
Proof.
  intros c event ns o Hin. apply syncHandler_effect_cases in Hin.
  destruct Hin as [[msg H] | [(a & b & H) | (namespace & name & w & d & cur &
                                             Hk & Hg & Hw & Hr & He)]];
    try discriminate.
  exists namespace, name, w, d, cur. cbn in He. tauto.
Qed.

(** X13. A tick updates a workload only when [GetScaleOperation], asked
    with the queue name of the registry and the count it sends, does not
    answer with no operation; and the status it writes keeps the last
    scale time of the policy unless such an operation took place, in
    which case it is the present instant. *)
Theorem workload_updated_only_on_scale_operation :
  forall c event namespace name w,
    SplitMetaNamespaceKey (event_key event) = Some (namespace, name) ->
    workerPodAutoScalersLister c namespace name = Found w ->
    (forall ns n replicas,
        In (EUpdateDeployment ns n replicas) (fst (syncHandler c event))
        \/ In (EUpdateReplicaSet ns n replicas) (fst (syncHandler c event)) ->
        exists d currentWorkers,
          policy_workload c w = Some d
          /\ Replicas d = Some currentWorkers
          /\ GetScaleOperation (registered_queue c namespace name) replicas
               currentWorkers (LastScaleTime (Status w)) (scaleDownDelay c)
             <> ScaleNoop)
    /\ (forall ns object,
           In (EUpdateStatus ns object) (fst (syncHandler c event)) ->
           LastScaleTime (Status object) = LastScaleTime (Status w)
           \/ LastScaleTime (Status object) = Some (metav1_Now c)
              /\ exists d currentWorkers,
                   policy_workload c w = Some d
                   /\ Replicas d = Some currentWorkers
                   /\ GetScaleOperation (registered_queue c namespace name)
                        (DesiredReplicas (Status object)) currentWorkers
                        (LastScaleTime (Status w)) (scaleDownDelay c)
                      <> ScaleNoop).
Proof.
  intros * Hkey Hget. split.
  - intros ns n r [Hin | Hin];
      apply syncHandler_effect_cases in Hin;
      destruct Hin as [[msg H] | [(a & b & H) | (namespace' & name' & w' & d & cur &
                                                 Hk & Hg & Hw & Hr & He)]];
      try discriminate;
      rewrite Hkey in Hk; injection Hk as <- <-;
      rewrite Hget in Hg; injection Hg as <-;
      cbn in He; destruct He as (_ & _ & _ & _ & Hq);
      exists d, cur; auto.
  - intros ns o Hin. apply syncHandler_effect_cases in Hin.
    destruct Hin as [[msg H] | [(a & b & H) | (namespace' & name' & w' & d & cur &
                                               Hk & Hg & Hw & Hr & He)]];
      try discriminate.
    rewrite Hkey in Hk; injection Hk as <- <-.
    rewrite Hget in Hg; injection Hg as <-.
    cbn in He. destruct He as (_ & _ & _ & _ & _ & _ & _ & [Hl | [Hl Hq]]);
      [left; assumption | right].
    split; [assumption |]. exists d, cur. auto.
Qed.

(** X14. For a policy in the cache, a tick calls the registry under the
    namespace and the name of the key only: [Add], with the queue of the
    policy and the current replicas of its workload, for an add or an
    update event alone, and [Delete] for a delete event alone. *)
Theorem registry_follows_the_event :
  forall c event namespace name w,
    SplitMetaNamespaceKey (event_key event) = Some (namespace, name) ->
    workerPodAutoScalersLister c namespace name = Found w ->
    (forall ns n uri service workers seconds,
        In (EQueuesAdd ns n uri service workers seconds)
          (fst (syncHandler c event)) ->
        (event_name event = WokerPodAutoScalerEventAdd
         \/ event_name event = WokerPodAutoScalerEventUpdate)
        /\ ns = namespace /\ n = name
        /\ uri = QueueURI (Spec w)
        /\ service = QueueServiceName (Spec w)
        /\ exists d, policy_workload c w = Some d /\ Replicas d = Some workers)
    /\ (forall ns n,
           In (EQueuesDelete ns n) (fst (syncHandler c event)) ->
           event_name event = WokerPodAutoScalerEventDelete
           /\ ns = namespace /\ n = name)
    /\ (forall ns n,
           In (EQueuesGetQueueInfo ns n) (fst (syncHandler c event)) ->
           ns = namespace /\ n = name).
Proof.
  intros * Hkey Hget.
  pose proof (syncHandler_effects c event namespace name w Hkey Hget) as Hall.
  rewrite Forall_forall in Hall.
  split; [| split].
  - intros ns n uri service workers seconds Hin.
    destruct (Hall _ Hin) as [[msg H] | (d & cur & Hw & Hr & He)];
      [discriminate |].
    cbn in He. destruct He as (Hn & -> & -> & -> & -> & ->).
    repeat split; try assumption. exists d. auto.
  - intros ns n Hin.
    destruct (Hall _ Hin) as [[msg H] | (d & cur & _ & _ & He)];
      [discriminate | exact He].
  - intros ns n Hin.
    destruct (Hall _ Hin) as [[msg H] | (d & cur & _ & _ & He)];
      [discriminate | exact He].
Qed.

End TickSafety.

(** ** Updates with retries *)

(** The first element of a [flat_map] over a range. *)
Lemma flat_map_seq_shift :
  forall (A : Type) (f : nat -> list A) n,
    flat_map f (seq 0 (S n)) = f O ++ flat_map (fun j => f (S j)) (seq 0 n).
Proof.
  intros A f n. cbn [seq flat_map]. f_equal.
  rewrite <- seq_shift, !flat_map_concat_map, map_map. reflexivity.
Qed.

(** A retried function that returns no error has made an attempt without
    error, after attempts that met conflicts only; its effects are those
    of these attempts, in order. *)
Lemma retry_steps_success :
  forall (fn : nat -> M (option error)) steps attempt last t,
    retry_steps steps attempt last fn = (t, Ret None) ->
    (steps = O -> last <> None) ->
    exists k,
      (k < steps)%nat
      /\ snd (fn (attempt + k)%nat) = Ret None
      /\ (forall j, (j < k)%nat ->
            exists e, snd (fn (attempt + j)%nat) = Ret (Some e)
                      /\ IsConflict e = true)
      /\ t = flat_map (fun j => fst (fn (attempt + j)%nat)) (seq 0 (S k)).
Proof.
  intros fn. induction steps as [| steps IH]; intros attempt last t Hrun Hlast.
  - cbn in Hrun. injection Hrun as _ Hl. exfalso. apply Hlast; auto.
  - cbn [retry_steps] in Hrun.
    destruct (fn attempt) as [t0 [[e |] | msg | msg]] eqn:Hfn; cbn in Hrun;
      try discriminate.
    + destruct (IsConflict e) eqn:Hc.
      * destruct (retry_steps steps (S attempt) (Some e) fn) as [t' r'] eqn:Hrec.
        injection Hrun as <- ->.
        destruct (IH (S attempt) (Some e) t' Hrec ltac:(discriminate))
          as (k & Hk & Hok & Hconf & Ht).
        exists (S k). split; [lia |].
        replace (attempt + S k)%nat with (S attempt + k)%nat by lia.
        split; [assumption |]. split.
        -- intros [| j] Hj.
           ++ exists e. rewrite Nat.add_0_r, Hfn. auto.
           ++ replace (attempt + S j)%nat with (S attempt + j)%nat by lia.
              apply Hconf. lia.
        -- rewrite Ht.
           rewrite (flat_map_seq_shift _ (fun j => fst (fn (attempt + j)%nat)) (S k)).
           rewrite Nat.add_0_r, Hfn. cbn [fst]. f_equal.
           apply flat_map_ext. intros j. f_equal. f_equal. lia.
      * cbn in Hrun. discriminate.
    + injection Hrun as <-. exists O. split; [lia |].
      rewrite Nat.add_0_r, Hfn. split; [reflexivity |].
      split; [intros j Hj; lia |].
      cbn. rewrite Nat.add_0_r, Hfn. reflexivity.
Qed.

(** A retried function panics only if an attempt does. *)
Lemma retry_steps_no_panic :
  forall (fn : nat -> M (option error)),
    (forall attempt msg, snd (fn attempt) <> Panic msg) ->
    forall steps attempt last msg,
      snd (retry_steps steps attempt last fn) <> Panic msg.
Proof.
  intros fn Hfn. induction steps as [| steps IH]; intros attempt last msg; cbn.
  - discriminate.
  - specialize (Hfn attempt).
    destruct (fn attempt) as [t0 [[e |] | m | m]]; cbn in *.
    + destruct (IsConflict e).
      * specialize (IH (S attempt) (Some e) msg).
        destruct (retry_steps steps (S attempt) (Some e) fn) as [t' r'].
        exact IH.
      * cbn. discriminate.
    + discriminate.
    + discriminate.
    + intros H. apply (Hfn m). reflexivity.
Qed.

(** An attempt without error, reached through conflicts only and within
    the steps allowed, makes the retried function return no error. *)
Lemma retry_steps_complete :
  forall (fn : nat -> M (option error)) steps attempt last k,
    (k < steps)%nat ->
    snd (fn (attempt + k)%nat) = Ret None ->
    (forall j, (j < k)%nat ->
        exists e, snd (fn (attempt + j)%nat) = Ret (Some e)
                  /\ IsConflict e = true) ->
    snd (retry_steps steps attempt last fn) = Ret None.
Proof.
  intros fn. induction steps as [| steps IH]; intros attempt last k Hk Hok Hconf.
  - lia.
  - cbn [retry_steps]. destruct k as [| k].
    + rewrite Nat.add_0_r in Hok.
      destruct (fn attempt) as [t0 r0]. cbn in Hok. subst r0. reflexivity.
    + destruct (Hconf O ltac:(lia)) as (e & He & Hc).
      rewrite Nat.add_0_r in He.
      destruct (fn attempt) as [t0 r0]. cbn in He. subst r0.
      cbn. rewrite Hc.
      specialize (IH (S attempt) (Some e) k ltac:(lia)).
      destruct (retry_steps steps (S attempt) (Some e) fn) as [t' r'].
      cbn in *. apply IH.
      * replace (S (attempt + k)) with (attempt + S k)%nat by lia. exact Hok.
      * intros j Hj.
        replace (S (attempt + j)) with (attempt + S j)%nat by lia.
        apply Hconf. lia.
Qed.

(** What an attempt at an update returns. *)
Lemma update_attempt_ret :
  forall lister sent what missing fatal answer attempt r,
    snd (update_attempt lister sent what missing fatal answer attempt) = Ret r ->
    (exists d, lister = Found d) /\ r = answer attempt
    \/ (exists e, lister = Failed e) /\ r = Some (Errorf missing).
Proof.
  intros * H. unfold update_attempt in H.
  destruct lister as [d | e].
  - left. split; [eauto |].
    destruct (answer attempt); cbn in H; congruence.
  - right. split; [eauto |].
    destruct (IsNotFound e); cbn in H; congruence.
Qed.

(** An attempt at the update of a workload that is in the cache. *)
Lemma update_attempt_found :
  forall d sent what missing fatal answer attempt,
    update_attempt (Found d) sent what missing fatal answer attempt
    = (sent :: update_error_log what (answer attempt), Ret (answer attempt)).
Proof.
  intros. unfold update_attempt, update_error_log.
  destruct (answer attempt); reflexivity.
Qed.

(** An attempt at an update does not panic. *)
Lemma update_attempt_no_panic :
  forall lister sent what missing fatal answer attempt msg,
    snd (update_attempt lister sent what missing fatal answer attempt)
    <> Panic msg.
Proof.
  intros. unfold update_attempt.
  destruct lister as [d | e];
    [destruct (answer attempt) | destruct (IsNotFound e)]; cbn; discriminate.
Qed.

(** An update with retries returns only after an attempt that succeeded. *)
Lemma update_with_retry :
  forall lister sent what missing fatal answer (final : string) t,
    mbind (RetryOnConflict (update_attempt lister sent what missing fatal answer))
      (fun retryErr =>
         match retryErr with
         | Some e => lift (Fatal (final ++ Error e))
         | None => mret tt
         end) = (t, Ret tt) ->
    (exists d, lister = Found d)
    /\ exists k,
         (k < 5)%nat
         /\ answer k = None
         /\ (forall j, (j < k)%nat ->
               exists e, answer j = Some e /\ IsConflict e = true)
         /\ t = flat_map (fun j => sent :: update_error_log what (answer j))
                  (seq 0 (S k)).
Proof.
  intros * Hrun. unfold RetryOnConflict in Hrun.
  destruct (retry_steps 5 0 None
              (update_attempt lister sent what missing fatal answer))
    as [t0 [[e |] | msg | msg]] eqn:Hretry; cbn in Hrun; try discriminate.
  injection Hrun as <-.
  destruct (retry_steps_success _ _ _ _ _ Hretry ltac:(discriminate))
    as (k & Hk & Hok & Hconf & Ht).
  cbn [Nat.add] in *.
  destruct (update_attempt_ret _ _ _ _ _ _ _ _ Hok) as [[[d ->] Ha] | [_ Ha]];
    [| discriminate].
  split; [eauto |]. exists k. split; [assumption |].
  split; [auto |]. split.
  - intros j Hj. destruct (Hconf j Hj) as (e & He & Hc).
    rewrite update_attempt_found in He. cbn in He. exists e. split; congruence.
  - rewrite app_nil_r, Ht. apply flat_map_ext. intros j.
    rewrite update_attempt_found. reflexivity.
Qed.

(** An accepted update makes the retried update return. *)
Lemma update_with_retry_complete :
  forall d sent what missing fatal answer (final : string) k,
    (k < 5)%nat ->
    answer k = None ->
    (forall j, (j < k)%nat ->
        exists e, answer j = Some e /\ IsConflict e = true) ->
    snd (mbind (RetryOnConflict
                  (update_attempt (Found d) sent what missing fatal answer))
           (fun retryErr =>
              match retryErr with
              | Some e => lift (Fatal (final ++ Error e))
              | None => mret tt
              end)) = Ret tt.
Proof.
  intros * Hk Hok Hconf. unfold RetryOnConflict.
  assert (H : snd (retry_steps 5 0 None
                     (update_attempt (Found d) sent what missing fatal answer))
              = Ret None).
  { apply (retry_steps_complete _ 5 0 None k Hk).
    - cbn [Nat.add]. rewrite update_attempt_found. cbn [snd]. congruence.
    - intros j Hj. destruct (Hconf j Hj) as (e & He & Hc). exists e.
      cbn [Nat.add]. rewrite update_attempt_found. cbn [snd].
      split; congruence. }
  destruct (retry_steps 5 0 None
              (update_attempt (Found d) sent what missing fatal answer))
    as [t0 r0].
  cbn [snd] in H. subst r0. reflexivity.
Qed.

(** A retried update does not panic. *)
Lemma update_with_retry_no_panic :
  forall lister sent what missing fatal answer (final : string) msg,
    snd (mbind (RetryOnConflict
                  (update_attempt lister sent what missing fatal answer))
           (fun retryErr =>
              match retryErr with
              | Some e => lift (Fatal (final ++ Error e))
              | None => mret tt
              end)) <> Panic msg.
Proof.
  intros. unfold RetryOnConflict.
  pose proof (retry_steps_no_panic
                (update_attempt lister sent what missing fatal answer)
                (fun a m => update_attempt_no_panic _ _ _ _ _ _ a m)
                5%nat 0%nat None msg) as H.
  destruct (retry_steps 5 0 None
              (update_attempt lister sent what missing fatal answer))
    as [t0 [[e |] | m | m]]; cbn in *; congruence.
Qed.

Section UpdateRetries.
Context {P : Platform} {X : Externals}.

(** [updateDeployment] retries [update_attempt]. *)
Lemma updateDeployment_attempts :
  forall c namespace deploymentName replicas,
    updateDeployment c namespace deploymentName replicas
    = mbind (RetryOnConflict
               (update_attempt (deploymentLister c namespace deploymentName)
                  (EUpdateDeployment namespace deploymentName replicas)
                  "Failed to update deployment: "
                  ("deployment " ++ deploymentName
                   ++ " was not found in namespace " ++ namespace)
                  "Failed to get deployment: "
                  (fun attempt => kubeclientset_UpdateDeployment c attempt
                                    namespace deploymentName replicas)))
        (fun retryErr =>
           match retryErr with
           | Some e => lift (Fatal ("Failed to update deployment (retry failed): "
                                    ++ Error e))
           | None => mret tt
           end).
Proof. reflexivity. Qed.

(** [updateReplicaSet] retries [update_attempt]. *)
Lemma updateReplicaSet_attempts :
  forall c namespace replicaSetName replicas,
    updateReplicaSet c namespace replicaSetName replicas
    = mbind (RetryOnConflict
               (update_attempt (replicaSetLister c namespace replicaSetName)
                  (EUpdateReplicaSet namespace replicaSetName replicas)
                  "Failed to update ReplicaSet: "
                  ("ReplicaSet " ++ replicaSetName
                   ++ " was not found in namespace " ++ namespace)
                  "Failed to get ReplicaSet: "
                  (fun attempt => kubeclientset_UpdateReplicaSet c attempt
                                    namespace replicaSetName replicas)))
        (fun retryErr =>
           match retryErr with
           | Some e => lift (Fatal ("Failed to update ReplicaSet (retry failed): "
                                    ++ Error e))
           | None => mret tt
           end).
Proof. reflexivity. Qed.

(** X15. [updateDeployment] returns exactly when the deployment is in
    the cache and one of the first five attempts at the update is
    accepted, every attempt before it having met a conflict; it has then
    sent the update once per attempt and logged each conflict. In every
    other case it ends the process, and it never panics. *)
Theorem updateDeployment_returns_after_accepted_update :
  forall c namespace deploymentName replicas,
    let answer attempt :=
      kubeclientset_UpdateDeployment c attempt namespace deploymentName replicas in
    (forall t,
        updateDeployment c namespace deploymentName replicas = (t, Ret tt) ->
        exists k,
          update_accepted (deploymentLister c namespace deploymentName) answer k
          /\ t = flat_map
                   (fun j => EUpdateDeployment namespace deploymentName replicas
                             :: update_error_log "Failed to update deployment: "
                                  (answer j))
                   (seq 0 (S k)))
    /\ (forall k,
           update_accepted (deploymentLister c namespace deploymentName) answer k ->
           snd (updateDeployment c namespace deploymentName replicas) = Ret tt)
    /\ (forall msg,
           snd (updateDeployment c namespace deploymentName replicas)
           <> Panic msg).
Proof.
  intros c namespace deploymentName replicas answer.
  rewrite updateDeployment_attempts. split; [| split].
  - intros t Hrun. apply update_with_retry in Hrun.
    destruct Hrun as (Hd & k & Hk & Hok & Hconf & Ht).
    exists k. split; [| exact Ht]. repeat split; assumption.
  - intros k ([d Hd] & Hk & Hok & Hconf). rewrite Hd.
    eapply update_with_retry_complete; eassumption.
  - intros msg. apply update_with_retry_no_panic.
Qed.

(** X16. [updateReplicaSet] returns exactly when the replica-set is in
    the cache and one of the first five attempts at the update is
    accepted, every attempt before it having met a conflict; it has then
    sent the update once per attempt and logged each conflict. In every
    other case it ends the process, and it never panics. *)
Theorem updateReplicaSet_returns_after_accepted_update :
  forall c namespace replicaSetName replicas,
    let answer attempt :=
      kubeclientset_UpdateReplicaSet c attempt namespace replicaSetName replicas in
    (forall t,
        updateReplicaSet c namespace replicaSetName replicas = (t, Ret tt) ->
        exists k,
          update_accepted (replicaSetLister c namespace replicaSetName) answer k
          /\ t = flat_map
                   (fun j => EUpdateReplicaSet namespace replicaSetName replicas
                             :: update_error_log "Failed to update ReplicaSet: "
                                  (answer j))
                   (seq 0 (S k)))
    /\ (forall k,
           update_accepted (replicaSetLister c namespace replicaSetName) answer k ->
           snd (updateReplicaSet c namespace replicaSetName replicas) = Ret tt)
    /\ (forall msg,
           snd (updateReplicaSet c namespace replicaSetName replicas)
           <> Panic msg).
Proof.
  intros c namespace replicaSetName replicas answer.
  rewrite updateReplicaSet_attempts. split; [| split].
  - intros t Hrun. apply update_with_retry in Hrun.
    destruct Hrun as (Hd & k & Hk & Hok & Hconf & Ht).
    exists k. split; [| exact Ht]. repeat split; assumption.
  - intros k ([d Hd] & Hk & Hok & Hconf). rewrite Hd.
    eapply update_with_retry_complete; eassumption.
  - intros msg. apply update_with_retry_no_panic.
Qed.

End UpdateRetries.

(** ** The work queue *)

(** A filter that no element passes leaves nothing. *)
Lemma filter_none :
  forall (A : Type) (f : A -> bool) (l : list A),
    Forall (fun a => f a = false) l -> filter f l = [].
Proof.
  intros A f l H. induction H as [| a l Ha _ IH]; cbn; [| rewrite Ha]; auto.
Qed.

Section WorkQueue.
Context {P : Platform} {X : Externals}.

(** A tick makes no call to the work queue. *)
Lemma syncHandler_no_workqueue_effect :
  forall c event,
    Forall (fun e => is_workqueue_effect e = false) (fst (syncHandler c event)).
Proof.
  intros c event. apply Forall_forall. intros e Hin.
  apply syncHandler_effect_cases in Hin.
  destruct Hin as [[msg ->] | [(a & b & ->) | (namespace & name & w & d & cur &
                                               _ & _ & _ & _ & He)]];
    try reflexivity.
  destruct e; cbn in He; try reflexivity; contradiction.
Qed.

(** The calls an item that is processed makes to the work queue, and
    what is returned. *)
Lemma processNextWorkItem_calls :
  forall c obj,
    filter is_workqueue_effect (fst (processNextWorkItem c obj false))
    = workqueue_calls obj (snd (item_tick c obj))
    /\ snd (processNextWorkItem c obj false)
       = match snd (item_tick c obj) with
         | Ret _ => Ret true
         | Fatal msg => Fatal msg
         | Panic msg => Panic msg
         end.
Proof.
  intros c obj.
  unfold processNextWorkItem, item_tick. destruct obj as [event | shown].
  - pose proof (filter_none _ _ _ (syncHandler_no_workqueue_effect c event)) as Hf.
    destruct (syncHandler c event) as [t [[e |] | msg | msg]];
      cbn [fst snd] in *; cbn;
      rewrite ?app_nil_r, ?filter_app, ?Hf; cbn; auto.
  - cbn. auto.
Qed.

(** X17. The calls [processNextWorkItem] makes to the work queue: none
    when the queue is shut down, and false is returned; else [Forget]
    then [Done] when the tick returns no error or the item is no event,
    [AddRateLimited] then [Done] when the tick returns an error, [Done]
    alone when the tick panics, and none when the tick ends the process.
    True is returned whenever the tick returns. *)
Theorem processNextWorkItem_workqueue_calls :
  forall c obj,
    processNextWorkItem c obj true = ([], Ret false)
    /\ filter is_workqueue_effect (fst (processNextWorkItem c obj false))
       = workqueue_calls obj (snd (item_tick c obj))
    /\ snd (processNextWorkItem c obj false)
       = match snd (item_tick c obj) with
         | Ret _ => Ret true
         | Fatal msg => Fatal msg
         | Panic msg => Panic msg
         end.
Proof.
  intros c obj. split; [reflexivity |]. apply processNextWorkItem_calls.
Qed.

(** The effects of a sequence. *)
Lemma mbind_fst :
  forall (A B : Type) (m : M A) (k : A -> M B),
    fst (mbind m k)
    = fst m ++ match snd m with Ret a => fst (k a) | _ => [] end.
Proof.
  intros A B [t [a | msg | msg]] k; cbn; rewrite ?app_nil_r; auto.
  destruct (k a); reflexivity.
Qed.

(** The outcome of a sequence. *)
Lemma mbind_snd :
  forall (A B : Type) (m : M A) (k : A -> M B),
    snd (mbind m k)
    = match snd m with
      | Ret a => snd (k a)
      | Fatal msg => Fatal msg
      | Panic msg => Panic msg
      end.
Proof.
  intros A B [t [a | msg | msg]] k; cbn; auto.
  destruct (k a); reflexivity.
Qed.

(** X18. [runWorker] processes the items in the order the queue gives
    them, up to the first answer that says the queue is shut down, and
    asks for nothing after it; as long as every tick returns, each item
    it processed is marked [Done] once, after one [Forget] or one
    [AddRateLimited]. *)
Theorem runWorker_stops_at_shutdown :
  forall passes,
    Forall (fun p => exists r, snd (item_tick (fst p) (snd p)) = Ret r)
      (before_shutdown passes) ->
    snd (runWorker passes) = Ret (after_shutdown passes)
    /\ filter is_workqueue_effect (fst (runWorker passes))
       = flat_map (fun p => workqueue_calls (snd p)
                              (snd (item_tick (fst p) (snd p))))
           (before_shutdown passes).
Proof.
  induction passes as [| [[c obj] shutdown] rest IH]; intros Hret.
  - split; reflexivity.
  - cbn [runWorker]. rewrite mbind_fst, mbind_snd.
    destruct (processNextWorkItem_calls c obj) as (Hcalls & Hend).
    destruct shutdown.
    + split; reflexivity.
    + cbn [before_shutdown after_shutdown] in *.
      inversion Hret as [| ? ? [r Hr] Hrest]; subst.
      cbn [fst snd] in Hr. rewrite Hr in Hend. rewrite Hend.
      destruct (IH Hrest) as [IHs IHf].
      split; [exact IHs |].
      cbn [flat_map fst snd]. rewrite filter_app, Hcalls, IHf. reflexivity.
Qed.

(** The calls to the work queue for an event, by what its tick is. *)
Lemma processNextWorkItem_trace :
  forall c event t r,
    syncHandler c event = (t, r) ->
    filter is_workqueue_effect
      (fst (processNextWorkItem c (ItemEvent event) false))
    = workqueue_calls (ItemEvent event) r
    /\ snd (processNextWorkItem c (ItemEvent event) false)
       = match r with
         | Ret _ => Ret true
         | Fatal msg => Fatal msg
         | Panic msg => Panic msg
         end.
Proof.
  intros c event t r H.
  destruct (processNextWorkItem_calls c (ItemEvent event)) as (Hc & He).
  cbn [item_tick] in *. rewrite H in *. auto.
Qed.

End WorkQueue.

(** ** The paths of a tick *)

Section TickPaths.
Context {P : Platform} {X : Externals}.

(** A returned value is handed on. *)
Lemma mbind_mret_l :
  forall (A B : Type) (a : A) (k : A -> M B), mbind (mret a) k = k a.
Proof. intros. unfold mbind, mret. destruct (k a). reflexivity. Qed.

(** With the policy and its workload in the cache, a tick is
    [syncHandler_scale] on the replicas of the workload. *)
Lemma syncHandler_at_workload :
  forall c event namespace name w d currentWorkers,
    SplitMetaNamespaceKey (event_key event) = Some (namespace, name) ->
    workerPodAutoScalersLister c namespace name = Found w ->
    policy_workload c w = Some d ->
    Replicas d = Some currentWorkers ->
    syncHandler c event
    = syncHandler_scale c event namespace name w currentWorkers
        (WorkloadAvailableReplicas d).
Proof.
  intros * Hkey Hget Hw Hr. unfold syncHandler, policy_workload in *.
  rewrite Hkey, Hget.
  destruct (negb (String.eqb (DeploymentName (Spec w)) "")).
  - destruct (deploymentLister c (Namespace w) (DeploymentName (Spec w)));
      [| discriminate].
    injection Hw as ->. rewrite Hr. cbn [deref]. rewrite mbind_mret_l. reflexivity.
  - destruct (negb (String.eqb (ReplicaSetName (Spec w)) "")); [| discriminate].
    destruct (replicaSetLister c (Namespace w) (ReplicaSetName (Spec w)));
      [| discriminate].
    injection Hw as ->. rewrite Hr. cbn [deref]. rewrite mbind_mret_l. reflexivity.
Qed.

(** X19. When the policy names a workload that the cache cannot give,
    the tick does nothing and returns an error, and
    [processNextWorkItem] puts the event back on the queue with
    [AddRateLimited], marks it [Done] and reports the error. *)
Theorem missing_workload_is_requeued :
  forall c event namespace name w,
    SplitMetaNamespaceKey (event_key event) = Some (namespace, name) ->
    workerPodAutoScalersLister c namespace name = Found w ->
    (DeploymentName (Spec w) <> ""%string
     \/ ReplicaSetName (Spec w) <> ""%string) ->
    policy_workload c w = None ->
    (exists e, syncHandler c event = ([], Ret (Some e)))
    /\ (exists msg,
           processNextWorkItem c (ItemEvent event) false
           = ([EAddRateLimited event; EDone (ItemEvent event); EHandleError msg],
              Ret true)).
Proof.
  intros * Hkey Hget Hnamed Hw.
  assert (Hsync : exists e, syncHandler c event = ([], Ret (Some e))).
  { unfold syncHandler, policy_workload in *. rewrite Hkey, Hget.
    destruct (String.eqb_spec (DeploymentName (Spec w)) "") as [Hd | Hd];
      cbn [negb] in *.
    - destruct (String.eqb_spec (ReplicaSetName (Spec w)) "") as [Hr | Hr];
        cbn [negb] in *; [tauto |].
      destruct (replicaSetLister c (Namespace w) (ReplicaSetName (Spec w)))
        as [r | err]; [discriminate |].
      destruct (IsNotFound err); eexists; reflexivity.
    - destruct (deploymentLister c (Namespace w) (DeploymentName (Spec w)))
        as [r | err]; [discriminate |].
      destruct (IsNotFound err); eexists; reflexivity. }
  split; [exact Hsync |].
  destruct Hsync as [e He]. unfold processNextWorkItem. rewrite He. cbn.
  eexists. reflexivity.
Qed.

(** X20. When the cache cannot give the policy of a key: if the policy
    is not found, the tick reports it, deletes the queue of the key from
    the registry and returns no error, so that the item is forgotten;
    for any other error the tick does nothing and returns the error, and
    the item is queued again. *)
Theorem vanished_policy_is_dropped :
  forall c event namespace name err,
    SplitMetaNamespaceKey (event_key event) = Some (namespace, name) ->
    workerPodAutoScalersLister c namespace name = Failed err ->
    if IsNotFound err then
      (exists msg,
          syncHandler c event
          = ([EHandleError msg; EQueuesDelete namespace name], Ret None))
      /\ filter is_workqueue_effect
           (fst (processNextWorkItem c (ItemEvent event) false))
         = [EForget (ItemEvent event); EDone (ItemEvent event)]
    else
      syncHandler c event = ([], Ret (Some err))
      /\ filter is_workqueue_effect
           (fst (processNextWorkItem c (ItemEvent event) false))
         = [EAddRateLimited event; EDone (ItemEvent event)].
Proof.
  intros * Hkey Hget.
  assert (Hsync : syncHandler c event
                  = if IsNotFound err then
                      ([EHandleError ("workerPodAutoScaler '" ++ event_key event
                                      ++ "' in work queue no longer exists");
                        EQueuesDelete namespace name], Ret None)
                    else ([], Ret (Some err))).
  { unfold syncHandler. rewrite Hkey, Hget. destruct (IsNotFound err); reflexivity. }
  destruct (IsNotFound err).
  - split; [eexists; exact Hsync |].
    apply (processNextWorkItem_trace _ _ _ _ Hsync).
  - split; [exact Hsync |].
    apply (processNextWorkItem_trace _ _ _ _ Hsync).
Qed.

(** X21. When the workload of the policy has no replica count, the tick
    panics on the nil pointer before it does anything; the deferred
    [Done] still runs, and the item is neither forgotten nor queued
    again. *)
Theorem workload_without_replicas_panics :
  forall c event namespace name w d,
    SplitMetaNamespaceKey (event_key event) = Some (namespace, name) ->
    workerPodAutoScalersLister c namespace name = Found w ->
    policy_workload c w = Some d ->
    Replicas d = None ->
    exists msg,
      syncHandler c event = ([], Panic msg)
      /\ processNextWorkItem c (ItemEvent event) false
         = ([EDone (ItemEvent event)], Panic msg).
Proof.
  intros * Hkey Hget Hw Hr.
  assert (Hsync : exists msg, syncHandler c event = ([], Panic msg)).
  { unfold syncHandler, policy_workload in *. rewrite Hkey, Hget.
    destruct (negb (String.eqb (DeploymentName (Spec w)) "")).
    - destruct (deploymentLister c (Namespace w) (DeploymentName (Spec w)));
        [| discriminate].
      injection Hw as ->. rewrite Hr. eexists. reflexivity.
    - destruct (negb (String.eqb (ReplicaSetName (Spec w)) ""));
        [| discriminate].
      destruct (replicaSetLister c (Namespace w) (ReplicaSetName (Spec w)));
        [| discriminate].
      injection Hw as ->. rewrite Hr. eexists. reflexivity. }
  destruct Hsync as [msg Hsync]. exists msg. split; [exact Hsync |].
  unfold processNextWorkItem. rewrite Hsync. reflexivity.
Qed.

(** An effect followed by a value. *)
Lemma mbind_emit_ret :
  forall (A B : Type) (e : Effect) (a : A) (k : A -> M B),
    mbind (mbind (emit e) (fun _ => mret a)) k
    = mbind ([e], Ret tt) (fun _ => k a).
Proof. intros. unfold mbind, emit, mret. destruct (k a). reflexivity. Qed.

(** Effects followed by one more. *)
Lemma mbind_effects_emit :
  forall (B : Type) (l : list Effect) (e : Effect) (m : M B),
    mbind (l, Ret tt) (fun _ => mbind (emit e) (fun _ => m))
    = mbind (l ++ [e], Ret tt) (fun _ => m).
Proof.
  intros. unfold mbind, emit. destruct m. rewrite <- app_assoc. reflexivity.
Qed.

(** The tick up to the decision, and from it on. *)
Lemma syncHandler_decision :
  forall c event namespace name w d currentWorkers
         queueName queueMessages messagesSentPerMinute idleWorkers,
    tick_reaches_decision c event namespace name w d currentWorkers
      queueName queueMessages messagesSentPerMinute idleWorkers ->
    syncHandler c event
    = mbind (sync_queue_effects event namespace name w currentWorkers, Ret tt)
        (fun _ =>
           targetMessagesPerWorker <~ deref (TargetMessagesPerWorker (Spec w)) ;;
           minReplicas <~ deref (MinReplicas (Spec w)) ;;
           maxReplicas <~ deref (MaxReplicas (Spec w)) ;;
           desiredWorkers <~
             lift (GetDesiredWorkers queueName queueMessages
                     messagesSentPerMinute
                     match SecondsToProcessOneJob (Spec w) with
                     | Some v => v
                     | None => zero
                     end
                     targetMessagesPerWorker currentWorkers idleWorkers
                     minReplicas maxReplicas
                     (GetMaxDisruption w (defaultMaxDisruption c))) ;;
           syncHandler_apply c namespace name w currentWorkers
             (WorkloadAvailableReplicas d) queueName queueMessages
             messagesSentPerMinute idleWorkers desiredWorkers).
Proof.
  intros * (Hkey & Hget & Hw & Hr & Hq & Hinfo & Hname & Hsynced).
  rewrite (syncHandler_at_workload _ _ _ _ _ _ _ Hkey Hget Hw Hr).
  unfold syncHandler_scale, sync_queue_answer, sync_queue_effects,
    syncHandler_apply in *.
  apply String.eqb_neq in Hname. apply Z.eqb_neq in Hsynced.
  destruct (String.eqb (event_name event) WokerPodAutoScalerEventAdd
            || String.eqb (event_name event) WokerPodAutoScalerEventUpdate).
  - rewrite Hq, mbind_emit_ret, Hinfo. cbv beta iota.
    rewrite Hname, Hsynced. cbv beta iota.
    rewrite mbind_effects_emit. reflexivity.
  - destruct (String.eqb (event_name event) WokerPodAutoScalerEventDelete).
    + rewrite Hq, mbind_emit_ret, Hinfo. cbv beta iota.
      rewrite Hname, Hsynced. cbv beta iota.
      rewrite mbind_effects_emit. reflexivity.
    + rewrite mbind_mret_l, Hinfo. cbv beta iota.
      rewrite Hname, Hsynced. cbv beta iota.
      reflexivity.
Qed.

End TickPaths.

(** Filtering a [flat_map] whose parts pass the filter at their head
    only. *)
Lemma filter_flat_map_head :
  forall (A B : Type) (f : A -> bool) (sent : A) (g : B -> list A) (l : list B),
    f sent = true ->
    (forall b, Forall (fun a => f a = false) (g b)) ->
    filter f (flat_map (fun b => sent :: g b) l) = repeat sent (List.length l).
Proof.
  intros A B f sent g l Hs Hg. induction l as [| b l IH]; [reflexivity |].
  cbn [flat_map length repeat]. cbn [app filter]. rewrite Hs, filter_app.
  rewrite (filter_none _ _ _ (Hg b)), IH. reflexivity.
Qed.

(** A log line is neither an update nor a status write. *)
Lemma update_error_log_not_update :
  forall what answer,
    Forall (fun e => is_workload_update e = false /\ is_status_write e = false)
      (update_error_log what answer).
Proof. intros what [e |]; repeat constructor. Qed.

(** The attempt that is accepted is the first without error. *)
Lemma accepted_attempt_unique :
  forall (answer : nat -> option error) k k',
    answer k = None ->
    (forall j, (j < k)%nat -> exists e, answer j = Some e /\ IsConflict e = true) ->
    answer k' = None ->
    (forall j, (j < k')%nat -> exists e, answer j = Some e /\ IsConflict e = true) ->
    k' = k.
Proof.
  intros answer k k' Hk Hlt Hk' Hlt'.
  destruct (Nat.lt_trichotomy k k') as [H | [H | H]]; [| auto |].
  - destruct (Hlt' k H) as (e & He & _). congruence.
  - destruct (Hlt k' H) as (e & He & _). congruence.
Qed.

Section UpdateTraces.
Context {P : Platform} {X : Externals}.

(** The update of the workload a policy names, as a tick makes it. *)
Lemma policy_update_accepted :
  forall c w d replicas k,
    policy_workload c w = Some d ->
    (k < 5)%nat ->
    workload_update_answer c w replicas k = None ->
    (forall j, (j < k)%nat ->
        exists e, workload_update_answer c w replicas j = Some e
                  /\ IsConflict e = true) ->
    exists t,
      (if negb (String.eqb (DeploymentName (Spec w)) "") then
         updateDeployment c (Namespace w) (DeploymentName (Spec w)) replicas
       else
         updateReplicaSet c (Namespace w) (ReplicaSetName (Spec w)) replicas)
      = (t, Ret tt)
      /\ filter is_workload_update t = repeat (workload_update w replicas) (S k)
      /\ filter is_status_write t = [].
Proof.
  intros * Hw Hk Hok Hconf.
  unfold policy_workload, workload_update_answer, workload_update in *.
  destruct (negb (String.eqb (DeploymentName (Spec w)) "")).
  - destruct (deploymentLister c (Namespace w) (DeploymentName (Spec w)))
      as [d' |] eqn:Hl; [| discriminate].
    rewrite updateDeployment_attempts, Hl.
    pose proof (update_with_retry_complete d'
                  (EUpdateDeployment (Namespace w) (DeploymentName (Spec w)) replicas)
                  "Failed to update deployment: "
                  ("deployment " ++ DeploymentName (Spec w)
                   ++ " was not found in namespace " ++ Namespace w)
                  "Failed to get deployment: " _
                  "Failed to update deployment (retry failed): "
                  k Hk Hok Hconf) as Hret.
    match goal with |- exists t, ?m = _ /\ _ => destruct m as [t r] eqn:Hrun end.
    cbn [snd] in Hret. subst r. exists t. split; [reflexivity |].
    apply update_with_retry in Hrun.
    destruct Hrun as (_ & k' & _ & Hok' & Hconf' & ->).
    rewrite (accepted_attempt_unique _ k k' Hok Hconf Hok' Hconf').
    split.
    + rewrite filter_flat_map_head, length_seq; [reflexivity | reflexivity |].
      intros j. eapply Forall_impl; [| apply update_error_log_not_update].
      cbn. tauto.
    + apply filter_none. apply Forall_flat_map. apply Forall_forall.
      intros j _. constructor; [reflexivity |].
      eapply Forall_impl; [| apply update_error_log_not_update].
      cbn. tauto.
  - destruct (negb (String.eqb (ReplicaSetName (Spec w)) "")); [| discriminate].
    destruct (replicaSetLister c (Namespace w) (ReplicaSetName (Spec w)))
      as [d' |] eqn:Hl; [| discriminate].
    rewrite updateReplicaSet_attempts, Hl.
    pose proof (update_with_retry_complete d'
                  (EUpdateReplicaSet (Namespace w) (ReplicaSetName (Spec w)) replicas)
                  "Failed to update ReplicaSet: "
                  ("ReplicaSet " ++ ReplicaSetName (Spec w)
                   ++ " was not found in namespace " ++ Namespace w)
                  "Failed to get ReplicaSet: " _
                  "Failed to update ReplicaSet (retry failed): "
                  k Hk Hok Hconf) as Hret.
    match goal with |- exists t, ?m = _ /\ _ => destruct m as [t r] eqn:Hrun end.
    cbn [snd] in Hret. subst r. exists t. split; [reflexivity |].
    apply update_with_retry in Hrun.
    destruct Hrun as (_ & k' & _ & Hok' & Hconf' & ->).
    rewrite (accepted_attempt_unique _ k k' Hok Hconf Hok' Hconf').
    split.
    + rewrite filter_flat_map_head, length_seq; [reflexivity | reflexivity |].
      intros j. eapply Forall_impl; [| apply update_error_log_not_update].
      cbn. tauto.
    + apply filter_none. apply Forall_flat_map. apply Forall_forall.
      intros j _. constructor; [reflexivity |].
      eapply Forall_impl; [| apply update_error_log_not_update].
      cbn. tauto.
Qed.

(** The status writer returns, and updates no workload. *)
Lemma updateWorkerPodAutoScalerStatus_returns :
  forall name namespace UpdateStatus desired w cur avail msgs last,
    snd (updateWorkerPodAutoScalerStatus name namespace UpdateStatus desired w
           cur avail msgs last) = Ret tt
    /\ filter is_workload_update
         (fst (updateWorkerPodAutoScalerStatus name namespace UpdateStatus
                 desired w cur avail msgs last)) = [].
Proof.
  intros. unfold updateWorkerPodAutoScalerStatus.
  destruct (_ && _); [split; reflexivity |].
  destruct (UpdateStatus _ _); split; reflexivity.
Qed.

(** The calls to the registry are neither updates nor status writes. *)
Lemma sync_queue_effects_filters :
  forall event namespace name w cur,
    filter is_workload_update (sync_queue_effects event namespace name w cur) = []
    /\ filter is_status_write (sync_queue_effects event namespace name w cur) = [].
Proof.
  intros. unfold sync_queue_effects.
  destruct (_ || _); [| destruct (String.eqb _ _)]; split; reflexivity.
Qed.

End UpdateTraces.

Section TickOutcomes.
Context {P : Platform} {X : Externals}.

(** [GetDesiredWorkers] ends the process when the disruption bound
    cannot be read. *)
Lemma GetDesiredWorkers_fatal :
  forall queueName queueMessages messagesSentPerMinute secondsToProcessOneJob
         targetMessagesPerWorker currentWorkers idleWorkers minWorkers
         maxWorkers maxDisruption msg,
    getMaxDisruptableWorkers maxDisruption currentWorkers = Fatal msg ->
    GetDesiredWorkers queueName queueMessages messagesSentPerMinute
      secondsToProcessOneJob targetMessagesPerWorker currentWorkers
      idleWorkers minWorkers maxWorkers maxDisruption = Fatal msg.
Proof.
  intros * H. unfold GetDesiredWorkers, GetDesiredWorkers_run.
  rewrite H. reflexivity.
Qed.

(** X22. In a tick that reaches the decision, a [maxDisruption] that
    cannot be read ends the process after the registry was told of the
    event and asked for the queue: no gauge is set, no workload or
    status is updated, and the item is not even marked [Done]. *)
Theorem unreadable_maxDisruption_ends_the_process :
  forall c event namespace name w d currentWorkers
         queueName queueMessages messagesSentPerMinute idleWorkers
         targetMessagesPerWorker minReplicas maxReplicas msg,
    tick_reaches_decision c event namespace name w d currentWorkers
      queueName queueMessages messagesSentPerMinute idleWorkers ->
    TargetMessagesPerWorker (Spec w) = Some targetMessagesPerWorker ->
    MinReplicas (Spec w) = Some minReplicas ->
    MaxReplicas (Spec w) = Some maxReplicas ->
    getMaxDisruptableWorkers (GetMaxDisruption w (defaultMaxDisruption c))
      currentWorkers = Fatal msg ->
    syncHandler c event
    = (sync_queue_effects event namespace name w currentWorkers, Fatal msg)
    /\ processNextWorkItem c (ItemEvent event) false
       = (sync_queue_effects event namespace name w currentWorkers, Fatal msg).
Proof.
  intros * Hreach Ht Hmin Hmax Hfatal.
  assert (Hsync : syncHandler c event
                  = (sync_queue_effects event namespace name w currentWorkers,
                     Fatal msg)).
  { rewrite (syncHandler_decision _ _ _ _ _ _ _ _ _ _ _ Hreach).
    rewrite Ht, Hmin, Hmax. cbn [deref]. rewrite !mbind_mret_l.
    rewrite (GetDesiredWorkers_fatal _ _ _ _ _ _ _ _ _ _ _ Hfatal).
    cbn. rewrite app_nil_r. reflexivity. }
  split; [exact Hsync |].
  unfold processNextWorkItem. rewrite Hsync. reflexivity.
Qed.

(** X23. In a tick that reaches the decision, a policy without
    [targetMessagesPerWorker], [minReplicas] or [maxReplicas] makes the
    tick panic on the nil pointer, after the registry was told of the
    event and asked for the queue; the deferred [Done] is the only call
    to the work queue. *)
Theorem policy_without_bounds_panics :
  forall c event namespace name w d currentWorkers
         queueName queueMessages messagesSentPerMinute idleWorkers,
    tick_reaches_decision c event namespace name w d currentWorkers
      queueName queueMessages messagesSentPerMinute idleWorkers ->
    TargetMessagesPerWorker (Spec w) = None
    \/ MinReplicas (Spec w) = None
    \/ MaxReplicas (Spec w) = None ->
    exists msg,
      syncHandler c event
      = (sync_queue_effects event namespace name w currentWorkers, Panic msg)
      /\ processNextWorkItem c (ItemEvent event) false
         = (sync_queue_effects event namespace name w currentWorkers
            ++ [EDone (ItemEvent event)], Panic msg).
Proof.
  intros * Hreach Hnil.
  exists "invalid memory address or nil pointer dereference"%string.
  assert (Hsync : syncHandler c event
                  = (sync_queue_effects event namespace name w currentWorkers,
                     Panic "invalid memory address or nil pointer dereference")).
  { rewrite (syncHandler_decision _ _ _ _ _ _ _ _ _ _ _ Hreach).
    destruct (TargetMessagesPerWorker (Spec w)) as [t |];
      [| cbn; rewrite app_nil_r; reflexivity].
    destruct (MinReplicas (Spec w)) as [mn |];
      [| cbn; rewrite app_nil_r; reflexivity].
    destruct (MaxReplicas (Spec w)) as [mx |];
      [| cbn; rewrite app_nil_r; reflexivity].
    exfalso. intuition discriminate. }
  split; [exact Hsync |].
  unfold processNextWorkItem. rewrite Hsync. reflexivity.
Qed.

(** The tick from the decision on, when the decision is to scale and the
    update is accepted, or not to scale. *)
Lemma syncHandler_apply_run :
  forall c namespace name w currentWorkers availableWorkers queueName
         queueMessages messagesSentPerMinute idleWorkers desiredWorkers
         t lastScaleTime,
    match GetScaleOperation queueName desiredWorkers currentWorkers
            (LastScaleTime (Status w)) (scaleDownDelay c) with
    | ScaleNoop => t = [] /\ lastScaleTime = LastScaleTime (Status w)
    | _ =>
        (if negb (String.eqb (DeploymentName (Spec w)) "") then
           updateDeployment c (Namespace w) (DeploymentName (Spec w))
             desiredWorkers
         else
           updateReplicaSet c (Namespace w) (ReplicaSetName (Spec w))
             desiredWorkers) = (t, Ret tt)
        /\ lastScaleTime = Some (metav1_Now c)
    end ->
    let status :=
      updateWorkerPodAutoScalerStatus name namespace
        (customclientset_UpdateStatus c) desiredWorkers w currentWorkers
        availableWorkers queueMessages lastScaleTime in
    snd (syncHandler_apply c namespace name w currentWorkers availableWorkers
           queueName queueMessages messagesSentPerMinute idleWorkers
           desiredWorkers) = Ret None
    /\ filter is_workload_update
         (fst (syncHandler_apply c namespace name w currentWorkers
                 availableWorkers queueName queueMessages
                 messagesSentPerMinute idleWorkers desiredWorkers))
       = filter is_workload_update t
    /\ filter is_status_write
         (fst (syncHandler_apply c namespace name w currentWorkers
                 availableWorkers queueName queueMessages
                 messagesSentPerMinute idleWorkers desiredWorkers))
       = filter is_status_write t ++ filter is_status_write (fst status).
Proof.
  intros * Hop status. subst status. unfold syncHandler_apply.
  destruct (updateWorkerPodAutoScalerStatus_returns name namespace
              (customclientset_UpdateStatus c) desiredWorkers w currentWorkers
              availableWorkers queueMessages lastScaleTime) as [Hs Hf].
  assert (Hupd :
    (match GetScaleOperation queueName desiredWorkers currentWorkers
             (LastScaleTime (Status w)) (scaleDownDelay c) with
     | ScaleUp | ScaleDown =>
         (if negb (String.eqb (DeploymentName (Spec w)) "") then
            updateDeployment c (Namespace w) (DeploymentName (Spec w))
              desiredWorkers
          else
            updateReplicaSet c (Namespace w) (ReplicaSetName (Spec w))
              desiredWorkers) ;;;
         mret (Some (metav1_Now c))
     | ScaleNoop => mret (LastScaleTime (Status w))
     end) = (t, Ret lastScaleTime)).
  { destruct (GetScaleOperation _ _ _ _ _); destruct Hop as [-> ->];
      cbn; rewrite ?app_nil_r; reflexivity. }
  rewrite Hupd.
  rewrite !mbind_fst, !mbind_snd. cbn [emit fst snd].
  rewrite !mbind_fst, !mbind_snd. cbn [emit fst snd mret]. rewrite Hs.
  cbn [app]. repeat split.
  - cbn [filter is_workload_update]. rewrite !filter_app, Hf. cbn.
    rewrite app_nil_r. reflexivity.
  - cbn [filter is_status_write]. rewrite !filter_app. cbn.
    rewrite app_nil_r. reflexivity.
Qed.

(** X24. In a tick that reaches the decision, when [GetScaleOperation]
    asks for a scaling and the update of the workload is accepted at
    attempt k after k conflicts, the tick returns no error, has sent k +
    1 updates, all of them to the workload the policy names and with the
    desired count, and writes the status as
    [updateWorkerPodAutoScalerStatus] does with the present instant as
    last scale time. *)
Theorem scaling_tick_updates_the_workload :
  forall c event namespace name w d currentWorkers
         queueName queueMessages messagesSentPerMinute idleWorkers
         targetMessagesPerWorker minReplicas maxReplicas desiredWorkers k,
    tick_reaches_decision c event namespace name w d currentWorkers
      queueName queueMessages messagesSentPerMinute idleWorkers ->
    TargetMessagesPerWorker (Spec w) = Some targetMessagesPerWorker ->
    MinReplicas (Spec w) = Some minReplicas ->
    MaxReplicas (Spec w) = Some maxReplicas ->
    GetDesiredWorkers queueName queueMessages messagesSentPerMinute
      match SecondsToProcessOneJob (Spec w) with
      | Some v => v
      | None => zero
      end
      targetMessagesPerWorker currentWorkers idleWorkers minReplicas
      maxReplicas (GetMaxDisruption w (defaultMaxDisruption c))
    = Ret desiredWorkers ->
    GetScaleOperation queueName desiredWorkers currentWorkers
      (LastScaleTime (Status w)) (scaleDownDelay c) <> ScaleNoop ->
    (k < 5)%nat ->
    workload_update_answer c w desiredWorkers k = None ->
    (forall j, (j < k)%nat ->
        exists e, workload_update_answer c w desiredWorkers j = Some e
                  /\ IsConflict e = true) ->
    snd (syncHandler c event) = Ret None
    /\ filter is_workload_update (fst (syncHandler c event))
       = repeat (workload_update w desiredWorkers) (S k)
    /\ filter is_status_write (fst (syncHandler c event))
       = filter is_status_write
           (fst (updateWorkerPodAutoScalerStatus name namespace
                   (customclientset_UpdateStatus c) desiredWorkers w
                   currentWorkers (WorkloadAvailableReplicas d) queueMessages
                   (Some (metav1_Now c)))).
Proof.
  intros * Hreach Ht Hmin Hmax Hdesired Hop Hk Hok Hconf.
  pose proof Hreach as (_ & _ & Hw & _).
  destruct (policy_update_accepted c w d desiredWorkers k Hw Hk Hok Hconf)
    as (t & Hrun & Hupd & Hst).
  rewrite (syncHandler_decision _ _ _ _ _ _ _ _ _ _ _ Hreach).
  rewrite Ht, Hmin, Hmax. cbn [deref]. rewrite !mbind_mret_l.
  rewrite Hdesired. change (lift (Ret desiredWorkers)) with (mret desiredWorkers).
  rewrite mbind_mret_l, mbind_fst, mbind_snd. cbn [fst snd].
  destruct (sync_queue_effects_filters event namespace name w currentWorkers)
    as [Hq1 Hq2].
  destruct (syncHandler_apply_run c namespace name w currentWorkers
              (WorkloadAvailableReplicas d) queueName queueMessages
              messagesSentPerMinute idleWorkers desiredWorkers t
              (Some (metav1_Now c))) as (Hret & Hfu & Hfs).
  { destruct (GetScaleOperation _ _ _ _ _); [auto | auto | congruence]. }
  rewrite !filter_app, Hq1, Hq2, Hret, Hfu, Hfs, Hupd, Hst. auto.
Qed.

(** X25. In a tick that reaches the decision, when [GetScaleOperation]
    answers with no operation, the tick returns no error, sends no
    update to any workload, and writes the status as
    [updateWorkerPodAutoScalerStatus] does with the last scale time of
    the policy. *)
Theorem idle_tick_leaves_the_workload :
  forall c event namespace name w d currentWorkers
         queueName queueMessages messagesSentPerMinute idleWorkers
         targetMessagesPerWorker minReplicas maxReplicas desiredWorkers,
    tick_reaches_decision c event namespace name w d currentWorkers
      queueName queueMessages messagesSentPerMinute idleWorkers ->
    TargetMessagesPerWorker (Spec w) = Some targetMessagesPerWorker ->
    MinReplicas (Spec w) = Some minReplicas ->
    MaxReplicas (Spec w) = Some maxReplicas ->
    GetDesiredWorkers queueName queueMessages messagesSentPerMinute
      match SecondsToProcessOneJob (Spec w) with
      | Some v => v
      | None => zero
      end
      targetMessagesPerWorker currentWorkers idleWorkers minReplicas
      maxReplicas (GetMaxDisruption w (defaultMaxDisruption c))
    = Ret desiredWorkers ->
    GetScaleOperation queueName desiredWorkers currentWorkers
      (LastScaleTime (Status w)) (scaleDownDelay c) = ScaleNoop ->
    snd (syncHandler c event) = Ret None
    /\ filter is_workload_update (fst (syncHandler c event)) = []
    /\ filter is_status_write (fst (syncHandler c event))
       = filter is_status_write
           (fst (updateWorkerPodAutoScalerStatus name namespace
                   (customclientset_UpdateStatus c) desiredWorkers w
                   currentWorkers (WorkloadAvailableReplicas d) queueMessages
                   (LastScaleTime (Status w)))).
Proof.
  intros * Hreach Ht Hmin Hmax Hdesired Hop.
  rewrite (syncHandler_decision _ _ _ _ _ _ _ _ _ _ _ Hreach).
  rewrite Ht, Hmin, Hmax. cbn [deref]. rewrite !mbind_mret_l.
  rewrite Hdesired. change (lift (Ret desiredWorkers)) with (mret desiredWorkers).
  rewrite mbind_mret_l, mbind_fst, mbind_snd. cbn [fst snd].
  destruct (sync_queue_effects_filters event namespace name w currentWorkers)
    as [Hq1 Hq2].
  destruct (syncHandler_apply_run c namespace name w currentWorkers
              (WorkloadAvailableReplicas d) queueName queueMessages
              messagesSentPerMinute idleWorkers desiredWorkers []
              (LastScaleTime (Status w))) as (Hret & Hfu & Hfs).
  { rewrite Hop. auto. }
  rewrite !filter_app, Hq1, Hq2, Hret, Hfu, Hfs. auto.
Qed.

End TickOutcomes.

(** ** The event handlers and the keys *)

(** A string is cut into one part more than it has slashes. *)
Lemma split_slash_length :
  forall s, List.length (split_slash s) = S (count_slash s).
Proof.
  induction s as [| c s IH]; [reflexivity |].
  cbn [split_slash count_slash]. destruct (Ascii.eqb c "/").
  - cbn. rewrite IH. reflexivity.
  - destruct (split_slash s) as [| part parts]; [discriminate |].
    cbn in *. lia.
Qed.

(** The parts of a string cut at its slashes have no slash. *)
Lemma split_slash_parts :
  forall s, Forall (fun part => count_slash part = O) (split_slash s).
Proof.
  induction s as [| c s IH]; [repeat constructor |].
  cbn [split_slash]. destruct (Ascii.eqb c "/") eqn:Hc.
  - constructor; [reflexivity | assumption].
  - destruct (split_slash s) as [| part parts].
    + repeat constructor. cbn. rewrite Hc. reflexivity.
    + inversion IH; subst. constructor; [| assumption].
      cbn. rewrite Hc. assumption.
Qed.

(** A string without a slash is its only part. *)
Lemma split_slash_no_slash :
  forall s, count_slash s = O -> split_slash s = [s].
Proof.
  induction s as [| c s IH]; [reflexivity |].
  cbn [split_slash count_slash]. destruct (Ascii.eqb c "/"); [discriminate |].
  intros H. rewrite (IH H). reflexivity.
Qed.

(** Cutting at the first slash. *)
Lemma split_slash_app :
  forall a b,
    count_slash a = O ->
    split_slash (a ++ "/" ++ b) = a :: split_slash b.
Proof.
  induction a as [| c a IH]; intros b Ha; [reflexivity |].
  cbn [count_slash] in Ha. cbn [String.append split_slash].
  destruct (Ascii.eqb c "/"); [discriminate |].
  change (a ++ String "/" b)%string with (a ++ "/" ++ b)%string.
  rewrite (IH b Ha). reflexivity.
Qed.

(** A key is taken apart when it has at most one slash, and the parts
    have none. *)
Lemma SplitMetaNamespaceKey_some :
  forall key namespace name,
    SplitMetaNamespaceKey key = Some (namespace, name) ->
    count_slash namespace = O /\ count_slash name = O
    /\ (count_slash key <= 1)%nat.
Proof.
  intros key namespace name H. unfold SplitMetaNamespaceKey in H.
  pose proof (split_slash_parts key) as Hparts.
  pose proof (split_slash_length key) as Hlen.
  destruct (split_slash key) as [| a [| b [| x rest]]]; try discriminate.
  - injection H as <- <-. inversion Hparts; subst. cbn in Hlen.
    repeat split; auto. lia.
  - injection H as <- <-. inversion Hparts as [| ? ? Ha Hb]; subst.
    inversion Hb; subst. cbn in Hlen. repeat split; auto. lia.
Qed.

(** The keys that are not taken apart are those with two slashes or
    more. *)
Lemma SplitMetaNamespaceKey_none :
  forall key,
    SplitMetaNamespaceKey key = None <-> (2 <= count_slash key)%nat.
Proof.
  intros key. unfold SplitMetaNamespaceKey.
  pose proof (split_slash_length key) as Hlen.
  destruct (split_slash key) as [| a [| b [| x rest]]]; cbn in Hlen;
    split; intros H; try discriminate; try lia; reflexivity.
Qed.

(** The key of a policy whose namespace and name have no slash is taken
    apart into them. *)
Lemma policy_key_splits :
  forall w,
    count_slash (Namespace w) = O ->
    count_slash (Name w) = O ->
    exists key,
      MetaNamespaceKeyFunc (ObjPolicy w) = inl key
      /\ SplitMetaNamespaceKey key = Some (Namespace w, Name w).
Proof.
  intros w Hns Hn. unfold MetaNamespaceKeyFunc, SplitMetaNamespaceKey.
  destruct (Namespace w) as [| c ns] eqn:Hnsw.
  - cbn. eexists. split; [reflexivity |].
    rewrite (split_slash_no_slash _ Hn). reflexivity.
  - cbn [String.length Nat.ltb Nat.leb]. eexists. split; [reflexivity |].
    rewrite (split_slash_app _ _ Hns), (split_slash_no_slash _ Hn). reflexivity.
Qed.

(** A key of a policy that is taken apart into its namespace and name:
    neither has a slash. *)
Lemma policy_key_slashes :
  forall w key,
    MetaNamespaceKeyFunc (ObjPolicy w) = inl key ->
    SplitMetaNamespaceKey key = Some (Namespace w, Name w) ->
    count_slash (Namespace w) = O /\ count_slash (Name w) = O.
Proof.
  intros w key Hkey Hsplit.
  destruct (SplitMetaNamespaceKey_some _ _ _ Hsplit) as (Hns & Hn & _). auto.
Qed.

Section EventHandlers.
Context {P : Platform} {X : Externals}.

(** X26. Each of the three handlers hands the queue one event for a
    policy, named add, update or delete after the handler, without
    reporting an error; and the key of the event is taken apart by
    [SplitMetaNamespaceKey] into the namespace and the name of the
    policy exactly when neither of them has a slash. *)
Theorem enqueued_key_names_the_policy :
  forall w,
    let enqueues (enqueue : Object -> M WokerPodAutoScalerEvent) (op : string) :=
      exists event,
        enqueue (ObjPolicy w) = ([], Ret event)
        /\ event_name event = op
        /\ (SplitMetaNamespaceKey (event_key event)
            = Some (Namespace w, Name w)
            <-> count_slash (Namespace w) = O /\ count_slash (Name w) = O) in
    enqueues enqueueAddWorkerPodAutoScaler WokerPodAutoScalerEventAdd
    /\ enqueues enqueueUpdateWorkerPodAutoScaler WokerPodAutoScalerEventUpdate
    /\ enqueues enqueueDeleteWorkerPodAutoScaler WokerPodAutoScalerEventDelete.
Proof.
  intros w enqueues.
  assert (Hkey : exists key, MetaNamespaceKeyFunc (ObjPolicy w) = inl key).
  { unfold MetaNamespaceKeyFunc. destruct (_ <? _)%nat; eexists; reflexivity. }
  destruct Hkey as [key Hkey].
  assert (Hsplit : SplitMetaNamespaceKey key = Some (Namespace w, Name w)
                   <-> count_slash (Namespace w) = O /\ count_slash (Name w) = O).
  { split.
    - intros Hsplit. exact (policy_key_slashes w key Hkey Hsplit).
    - intros [Hns Hn].
      destruct (policy_key_splits w Hns Hn) as (key' & Hkey' & Hsplit).
      congruence. }
  repeat split;
    (eexists; split;
     [unfold enqueueAddWorkerPodAutoScaler, enqueueUpdateWorkerPodAutoScaler,
        enqueueDeleteWorkerPodAutoScaler, getKeyForWorkerPodAutoScaler;
      rewrite Hkey; reflexivity
     | split; [reflexivity | exact Hsplit]]).
Qed.

(** X27. An object without metadata is not dropped by the handlers: the
    error is reported, and an event with the empty key is handed to the
    queue all the same; that key is taken apart into the empty namespace
    and the empty name. *)
Theorem object_without_metadata_is_enqueued :
  forall shown,
    let enqueues (enqueue : Object -> M WokerPodAutoScalerEvent) (op : string) :=
      exists msg,
        enqueue (ObjOther shown)
        = ([EHandleError msg], Ret {| event_key := ""; event_name := op |}) in
    enqueues enqueueAddWorkerPodAutoScaler WokerPodAutoScalerEventAdd
    /\ enqueues enqueueUpdateWorkerPodAutoScaler WokerPodAutoScalerEventUpdate
    /\ enqueues enqueueDeleteWorkerPodAutoScaler WokerPodAutoScalerEventDelete
    /\ SplitMetaNamespaceKey "" = Some (""%string, ""%string).
Proof.
  intros shown enqueues. repeat split; eexists; reflexivity.
Qed.

(** X28. A key with two slashes or more is not taken apart: the tick
    reports it and returns no error, and [processNextWorkItem] forgets
    the item and marks it [Done], so that it is never queued again. *)
Theorem key_with_two_slashes_is_dropped :
  forall c event,
    (2 <= count_slash (event_key event))%nat ->
    syncHandler c event
    = ([EHandleError ("invalid resource key: " ++ event_key event)], Ret None)
    /\ processNextWorkItem c (ItemEvent event) false
       = ([EHandleError ("invalid resource key: " ++ event_key event);
           EForget (ItemEvent event); EDone (ItemEvent event)], Ret true).
Proof.
  intros c event Hslash. apply SplitMetaNamespaceKey_none in Hslash.
  assert (Hsync : syncHandler c event
                  = ([EHandleError ("invalid resource key: " ++ event_key event)],
                     Ret None)).
  { unfold syncHandler. rewrite Hslash. reflexivity. }
  split; [exact Hsync |].
  unfold processNextWorkItem. rewrite Hsync. reflexivity.
Qed.

End EventHandlers.

(** ** Instances *)

Lemma backlog_quotient_is_the_exact_ceiling_witness :
  @rawDesired amd64 4100 200 = 21.
Proof.
  refine (proj1 (@backlog_quotient_is_the_exact_ceiling amd64 4100 200 _ _));
    unfold Int32.max_int; lia.
Defined.

Lemma tolerance_test_in_integers_witness :
  isChangeTooSmall 21 20 tolerance = true <-> 10 * Z.abs (21 - 20) <= 20.
Proof.
  apply (tolerance_test_in_integers 21 20); unfold Int32.max_int; lia.
Defined.

Lemma velocity_floor_on_whole_numbers_witness :
  @getMinWorkers amd64 (of_Z 600) 1 (of_Z 3) = 30.
Proof.
  refine (@velocity_floor_on_whole_numbers amd64 600 3 1 _ _ _);
    unfold Int32.max_int; lia.
Defined.

Lemma GetDesiredWorkers_in_integers_witness :
  @GetDesiredWorkers amd64 "otpsms" 10 (of_Z 10) zero 200 20 0 0 20
    (Some "10%"%string) = Ret 18.
Proof.
  refine (@GetDesiredWorkers_in_integers amd64 "otpsms" 10 (of_Z 10) zero 200 20
            0 0 20 (Some "10%"%string) 2 _ _ _ _ _ _);
    first [reflexivity | unfold Int32.max_int; lia].
Defined.

Lemma GetDesiredWorkers_monotone_in_backlog_witness :
  exists desired1 desired2,
    @GetDesiredWorkers amd64 "otpsms" 10 zero zero 200 20 0 0 30
      (Some "10%"%string) = Ret desired1
    /\ @GetDesiredWorkers amd64 "otpsms" 5000 zero zero 200 20 0 0 30
         (Some "10%"%string) = Ret desired2
    /\ desired1 <= desired2.
Proof.
  refine (@GetDesiredWorkers_monotone_in_backlog amd64 "otpsms" 10 5000 zero zero
            200 20 0 0 30 (Some "10%"%string) 2 _ _ _ _ _ _ _);
    first [reflexivity | unfold Int32.max_int; lia].
Defined.

Lemma velocity_disabled_without_processing_time_witness :
  @GetDesiredWorkers amd64 "otpsms" 0 (of_Z 600) zero 200 20 0 1 30
    (Some "10%"%string)
  = @GetDesiredWorkers amd64 "otpsms" 0 zero zero 200 20 0 1 30
      (Some "10%"%string).
Proof.
  apply (@velocity_disabled_without_processing_time amd64). reflexivity.
Defined.

Lemma scale_up_ignores_maxDisruption_witness :
  exists desired,
    @GetDesiredWorkers amd64 "otpsms" 5000 zero zero 200 20 0 0 30
      (Some "10%"%string) = Ret desired
    /\ @GetDesiredWorkers amd64 "otpsms" 5000 zero zero 200 20 0 0 30
         (Some "3"%string) = Ret desired
    /\ Z.min 30 20 <= desired.
Proof.
  refine (@scale_up_ignores_maxDisruption amd64 "otpsms" 5000 zero zero 200 20 0
            0 30 (Some "10%"%string) (Some "3"%string) 2 3 _ _ _ _ _ _ _ _ _);
    first [reflexivity | unfold Int32.max_int; lia | idtac].
  right. split; [lia |]. vm_compute. discriminate.
Defined.

Lemma percent_disruption_is_rounded_up_witness :
  @getMaxDisruptableWorkers amd64 (Some "10%"%string) 25 = Ret 3.
Proof.
  refine (proj1 (@percent_disruption_is_rounded_up amd64 "10" 10 25 _ _ _));
    first [reflexivity | unfold Int32.max_int; lia].
Defined.

Lemma GetDesiredWorkers_returns_iff_maxDisruption_parses_witness :
  exists desired,
    @GetDesiredWorkers amd64 "otpsms" 10 zero zero 200 20 0 0 30
      (Some "10%"%string) = Ret desired.
Proof.
  refine (proj2 (proj1 (@GetDesiredWorkers_returns_iff_maxDisruption_parses amd64
                          "otpsms" 10 zero zero 200 20 0 0 30
                          (Some "10%"%string))) _).
  exists "10%"%string, 10. split; reflexivity.
Defined.

Lemma commanded_replicas_within_policy_witness :
  exists namespace name w,
    SplitMetaNamespaceKey (event_key Example.add_event) = Some (namespace, name)
    /\ workerPodAutoScalersLister Scenario.scaling namespace name = Found w
    /\ replicas_within_policy w 18.
Proof.
  apply (@commanded_replicas_within_policy amd64 Example.externals
           Scenario.scaling Example.add_event "default" "otpsms-worker" 18).
  left. vm_compute. auto 20.
Defined.

Lemma updates_only_the_named_workload_witness :
  DeploymentName (Spec Example.policy) <> ""%string
  /\ "default"%string = Namespace Example.policy
  /\ "otpsms-worker"%string = DeploymentName (Spec Example.policy).
Proof.
  refine (proj1 (@updates_only_the_named_workload amd64 Example.externals
                   Scenario.scaling Example.add_event "default" "otpsms"
                   Example.policy _ _) "default"%string "otpsms-worker"%string
            18 _);
    [reflexivity | reflexivity | vm_compute; auto 20].
Defined.

Lemma status_write_reports_the_workload_witness :
  exists namespace name w d currentWorkers,
    SplitMetaNamespaceKey (event_key Example.add_event) = Some (namespace, name)
    /\ workerPodAutoScalersLister Scenario.scaling namespace name = Found w
    /\ policy_workload Scenario.scaling w = Some d
    /\ Replicas d = Some currentWorkers
    /\ "default"%string = Namespace w
    /\ Namespace (with_status Example.policy 20 20 18 10 (Some 2000))
       = Namespace w
    /\ Name (with_status Example.policy 20 20 18 10 (Some 2000)) = Name w
    /\ Spec (with_status Example.policy 20 20 18 10 (Some 2000)) = Spec w
    /\ CurrentReplicas (Status (with_status Example.policy 20 20 18 10 (Some 2000)))
       = currentWorkers
    /\ AvailableReplicas
         (Status (with_status Example.policy 20 20 18 10 (Some 2000)))
       = WorkloadAvailableReplicas d
    /\ replicas_within_policy w
         (DesiredReplicas
            (Status (with_status Example.policy 20 20 18 10 (Some 2000)))).
Proof.
  apply (@status_write_reports_the_workload amd64 Example.externals
           Scenario.scaling Example.add_event "default"
           (with_status Example.policy 20 20 18 10 (Some 2000))).
  vm_compute. auto 20.
Defined.

Lemma workload_updated_only_on_scale_operation_witness :
  exists d currentWorkers,
    policy_workload Scenario.scaling Example.policy = Some d
    /\ Replicas d = Some currentWorkers
    /\ @GetScaleOperation Example.externals
         (registered_queue Scenario.scaling "default" "otpsms") 18
         currentWorkers (LastScaleTime (Status Example.policy))
         (scaleDownDelay Scenario.scaling)
       <> ScaleNoop.
Proof.
  refine (proj1 (@workload_updated_only_on_scale_operation amd64
                   Example.externals Scenario.scaling Example.add_event
                   "default" "otpsms" Example.policy _ _)
            "default"%string "otpsms-worker"%string 18 _);
    [reflexivity | reflexivity | left; vm_compute; auto 20].
Defined.

Lemma registry_follows_the_event_witness :
  (event_name Example.add_event = WokerPodAutoScalerEventAdd
   \/ event_name Example.add_event = WokerPodAutoScalerEventUpdate)
  /\ "default"%string = "default"%string /\ "otpsms"%string = "otpsms"%string
  /\ "https://sqs.example/otpsms"%string = QueueURI (Spec Example.policy)
  /\ "sqs"%string = QueueServiceName (Spec Example.policy)
  /\ exists d, policy_workload Scenario.scaling Example.policy = Some d
               /\ Replicas d = Some 20.
Proof.
  refine (proj1 (@registry_follows_the_event amd64 Example.externals
                   Scenario.scaling Example.add_event "default" "otpsms"
                   Example.policy _ _)
            "default"%string "otpsms"%string
            "https://sqs.example/otpsms"%string "sqs"%string 20 zero _);
    [reflexivity | reflexivity | vm_compute; auto 20].
Defined.

Lemma updateDeployment_returns_after_accepted_update_witness :
  snd (updateDeployment Scenario.scaling "default" "otpsms-worker" 18) = Ret tt.
Proof.
  refine (proj1 (proj2 (updateDeployment_returns_after_accepted_update
                          Scenario.scaling "default" "otpsms-worker" 18))
            1%nat _).
  split; [eexists; reflexivity |]. split; [repeat constructor |].
  split; [reflexivity |].
  intros [| j] Hj; [eexists; split; reflexivity |].
  exfalso. inversion Hj as [| ? H]. inversion H.
Defined.

Lemma updateReplicaSet_returns_after_accepted_update_witness :
  snd (updateReplicaSet Scenario.scaling "default" "otpsms-workers" 18) = Ret tt.
Proof.
  refine (proj1 (proj2 (updateReplicaSet_returns_after_accepted_update
                          Scenario.scaling "default" "otpsms-workers" 18))
            1%nat _).
  split; [eexists; reflexivity |]. split; [repeat constructor |].
  split; [reflexivity |].
  intros [| j] Hj; [eexists; split; reflexivity |].
  exfalso. inversion Hj as [| ? H]. inversion H.
Defined.

Lemma runWorker_stops_at_shutdown_witness :
  snd (@runWorker amd64 Example.externals Scenario.passes)
  = Ret [(Scenario.scaling, ItemOther "late", false)].
Proof.
  refine (proj1 (@runWorker_stops_at_shutdown amd64 Example.externals
                   Scenario.passes _)).
  repeat constructor; eexists; vm_compute; reflexivity.
Defined.

Lemma missing_workload_is_requeued_witness :
  exists e,
    @syncHandler amd64 Example.externals
      (Scenario.cluster (Found Example.policy) (Failed (NotFound "not found"))
         Scenario.accepted)
      Example.add_event = ([], Ret (Some e)).
Proof.
  refine (proj1 (@missing_workload_is_requeued amd64 Example.externals
                   (Scenario.cluster (Found Example.policy)
                      (Failed (NotFound "not found")) Scenario.accepted)
                   Example.add_event "default" "otpsms" Example.policy
                   _ _ _ _));
    first [reflexivity | left; discriminate].
Defined.

Lemma vanished_policy_is_dropped_witness :
  filter is_workqueue_effect
    (fst (@processNextWorkItem amd64 Example.externals
            (Scenario.cluster (Failed (NotFound "not found"))
               (Found Scenario.deployment) Scenario.accepted)
            (ItemEvent Example.add_event) false))
  = [EForget (ItemEvent Example.add_event); EDone (ItemEvent Example.add_event)].
Proof.
  refine (proj2 (@vanished_policy_is_dropped amd64 Example.externals
                   (Scenario.cluster (Failed (NotFound "not found"))
                      (Found Scenario.deployment) Scenario.accepted)
                   Example.add_event "default" "otpsms" (NotFound "not found")
                   _ _));
    reflexivity.
Defined.

Lemma workload_without_replicas_panics_witness :
  exists msg,
    @syncHandler amd64 Example.externals
      (Scenario.cluster (Found Example.policy)
         (Found {| Replicas := None; WorkloadAvailableReplicas := 0 |})
         Scenario.accepted)
      Example.add_event = ([], Panic msg)
    /\ @processNextWorkItem amd64 Example.externals
         (Scenario.cluster (Found Example.policy)
            (Found {| Replicas := None; WorkloadAvailableReplicas := 0 |})
            Scenario.accepted)
         (ItemEvent Example.add_event) false
       = ([EDone (ItemEvent Example.add_event)], Panic msg).
Proof.
  refine (@workload_without_replicas_panics amd64 Example.externals
            (Scenario.cluster (Found Example.policy)
               (Found {| Replicas := None; WorkloadAvailableReplicas := 0 |})
               Scenario.accepted)
            Example.add_event "default" "otpsms" Example.policy
            {| Replicas := None; WorkloadAvailableReplicas := 0 |} _ _ _ _);
    reflexivity.
Defined.

Lemma unreadable_maxDisruption_ends_the_process_witness :
  @processNextWorkItem amd64 Example.externals
    (Scenario.cluster (Found (Scenario.policy_with (Some 0) "ten"))
       (Found Scenario.deployment) Scenario.accepted)
    (ItemEvent Example.add_event) false
  = ([EQueuesAdd "default" "otpsms" "https://sqs.example/otpsms" "sqs" 20 zero;
      EQueuesGetQueueInfo "default" "otpsms"],
     Fatal "Error calculating maxDisruptable workers").
Proof.
  refine (proj2 (@unreadable_maxDisruption_ends_the_process amd64
                   Example.externals
                   (Scenario.cluster (Found (Scenario.policy_with (Some 0) "ten"))
                      (Found Scenario.deployment) Scenario.accepted)
                   Example.add_event "default" "otpsms"
                   (Scenario.policy_with (Some 0) "ten") Scenario.deployment 20
                   "otpsms" 10 (of_Z 10) 0 200 0 20
                   "Error calculating maxDisruptable workers" _ _ _ _ _));
    try reflexivity.
  repeat split; try reflexivity; discriminate.
Defined.

Lemma policy_without_bounds_panics_witness :
  exists msg,
    @syncHandler amd64 Example.externals
      (Scenario.cluster (Found (Scenario.policy_with None "10%"))
         (Found Scenario.deployment) Scenario.accepted)
      Example.add_event
    = ([EQueuesAdd "default" "otpsms" "https://sqs.example/otpsms" "sqs" 20 zero;
        EQueuesGetQueueInfo "default" "otpsms"], Panic msg)
    /\ @processNextWorkItem amd64 Example.externals
         (Scenario.cluster (Found (Scenario.policy_with None "10%"))
            (Found Scenario.deployment) Scenario.accepted)
         (ItemEvent Example.add_event) false
       = ([EQueuesAdd "default" "otpsms" "https://sqs.example/otpsms" "sqs" 20
             zero;
           EQueuesGetQueueInfo "default" "otpsms"]
          ++ [EDone (ItemEvent Example.add_event)], Panic msg).
Proof.
  refine (@policy_without_bounds_panics amd64 Example.externals
            (Scenario.cluster (Found (Scenario.policy_with None "10%"))
               (Found Scenario.deployment) Scenario.accepted)
            Example.add_event "default" "otpsms"
            (Scenario.policy_with None "10%") Scenario.deployment 20
            "otpsms" 10 (of_Z 10) 0 _ _).
  - repeat split; try reflexivity; discriminate.
  - right. left. reflexivity.
Defined.

Lemma scaling_tick_updates_the_workload_witness :
  filter is_workload_update
    (fst (@syncHandler amd64 Example.externals Scenario.scaling
            Example.add_event))
  = repeat (workload_update Example.policy 18) 2.
Proof.
  refine (proj1 (proj2 (@scaling_tick_updates_the_workload amd64
                          Example.externals Scenario.scaling Example.add_event
                          "default" "otpsms" Example.policy Scenario.deployment
                          20 "otpsms" 10 (of_Z 10) 0 200 0 20 18 1%nat
                          _ _ _ _ _ _ _ _ _)));
    try reflexivity.
  - repeat split; try reflexivity; discriminate.
  - vm_compute. discriminate.
  - repeat constructor.
  - intros [| j] Hj; [eexists; split; reflexivity |].
    exfalso. inversion Hj as [| ? H]. inversion H.
Defined.

Lemma idle_tick_leaves_the_workload_witness :
  filter is_workload_update
    (fst (@syncHandler amd64 Scenario.early Scenario.scaling Example.add_event))
  = [].
Proof.
  refine (proj1 (proj2 (@idle_tick_leaves_the_workload amd64 Scenario.early
                          Scenario.scaling Example.add_event
                          "default" "otpsms" Example.policy Scenario.deployment
                          20 "otpsms" 10 (of_Z 10) 0 200 0 20 18
                          _ _ _ _ _ _)));
    try reflexivity.
  repeat split; try reflexivity; discriminate.
Defined.

Lemma enqueued_key_names_the_policy_witness :
  exists event,
    enqueueAddWorkerPodAutoScaler (ObjPolicy Example.policy) = ([], Ret event)
    /\ event_name event = WokerPodAutoScalerEventAdd
    /\ (SplitMetaNamespaceKey (event_key event)
        = Some (Namespace Example.policy, Name Example.policy)
        <-> count_slash (Namespace Example.policy) = O
            /\ count_slash (Name Example.policy) = O).
Proof.
  exact (proj1 (enqueued_key_names_the_policy Example.policy)).
Defined.

Lemma key_with_two_slashes_is_dropped_witness :
  @syncHandler amd64 Example.externals Scenario.scaling
    {| event_key := "a/b/c"; event_name := WokerPodAutoScalerEventAdd |}
  = ([EHandleError "invalid resource key: a/b/c"], Ret None).
Proof.
  refine (proj1 (@key_with_two_slashes_is_dropped amd64 Example.externals
                   Scenario.scaling
                   {| event_key := "a/b/c";
                      event_name := WokerPodAutoScalerEventAdd |} _)).
  repeat constructor.
Defined.
